(** * SceneManager: texture and material catalogs, uniform uploads and the
      fixed draw list of the CS-330 still-life scene

    Shallow embedding of [Source/SceneManager.cpp].  The scene manager is a
    record of its member variables; every member function is a computation
    in a small monad that threads the manager, the state of the outside
    world (image files, the texture-name allocator of the graphics driver)
    and the trace of calls that leave the class (OpenGL, the image decoder,
    the shader manager, the mesh library, the log streams).  Undefined
    behaviour of the C++ program (a null pointer dereference, an access
    outside [m_textureIDs]) is an explicit outcome.

    [float] values are idealised as real numbers: the decimal literals of
    the source are the corresponding rationals and the arithmetic of the
    vector library is exact. *)

From Stdlib Require Import ZArith List String Reals Lra Lia Bool.
From stdpp Require Import base list strings.
Import ListNotations.

Local Open Scope string_scope.
Local Open Scope Z_scope.

(** ** The vector and matrix library *)

Module glm.
Local Open Scope R_scope.

Record vec2 := mk_vec2 { x2 : R; y2 : R }.
Record vec3 := mk_vec3 { x3 : R; y3 : R; z3 : R }.
Record vec4 := mk_vec4 { x : R; y : R; z : R; w : R }.

(** Modelled from the spec: the 4x4 matrix type of the vendored
    vector/matrix library, which is not part of the sources.  As in the
    library a matrix is stored by columns: [col0 m] is [m[0]]. *)
Record mat4 := mk_mat4 { col0 : vec4; col1 : vec4; col2 : vec4; col3 : vec4 }.

Definition vadd (a b : vec4) : vec4 :=
  mk_vec4 (x a + x b) (y a + y b) (z a + z b) (w a + w b).

Definition vmul (a : vec4) (s : R) : vec4 :=
  mk_vec4 (x a * s) (y a * s) (z a * s) (w a * s).

(** [mat4(1.0f)] *)
Definition identity : mat4 :=
  mk_mat4 (mk_vec4 1 0 0 0) (mk_vec4 0 1 0 0) (mk_vec4 0 0 1 0) (mk_vec4 0 0 0 1).

(** [m * v]: the linear combination of the columns of [m]. *)
Definition mul_vec (m : mat4) (v : vec4) : vec4 :=
  vadd (vadd (vadd (vmul (col0 m) (x v)) (vmul (col1 m) (y v)))
             (vmul (col2 m) (z v)))
       (vmul (col3 m) (w v)).

(** [a * b]: column [j] of the product is [a] applied to column [j] of [b]. *)
Definition mul (a b : mat4) : mat4 :=
  mk_mat4 (mul_vec a (col0 b)) (mul_vec a (col1 b))
          (mul_vec a (col2 b)) (mul_vec a (col3 b)).

(** Modelled from the spec: [glm::radians], degrees to radians. *)
Definition radians (degrees : R) : R := degrees * (PI / 180).

Definition dot (a b : vec3) : R := x3 a * x3 b + y3 a * y3 b + z3 a * z3 b.

Definition normalize (v : vec3) : vec3 :=
  let k := / sqrt (dot v v) in
  mk_vec3 (x3 v * k) (y3 v * k) (z3 v * k).

(** Modelled from the spec: [glm::scale(v)], the scaling of the identity. *)
Definition scale (v : vec3) : mat4 :=
  let m := identity in
  mk_mat4 (vmul (col0 m) (x3 v)) (vmul (col1 m) (y3 v))
          (vmul (col2 m) (z3 v)) (col3 m).

(** Modelled from the spec: [glm::translate(v)], the translation of the
    identity. *)
Definition translate (v : vec3) : mat4 :=
  let m := identity in
  mk_mat4 (col0 m) (col1 m) (col2 m)
          (vadd (vadd (vadd (vmul (col0 m) (x3 v)) (vmul (col1 m) (y3 v)))
                      (vmul (col2 m) (z3 v)))
                (col3 m)).

(** Modelled from the spec: [glm::rotate(angle, v)], the rotation of the
    identity by [angle] radians about the axis [v] (axis-angle formula
    on the normalised axis). *)
Definition rotate (angle : R) (v : vec3) : mat4 :=
  let m := identity in
  let c := cos angle in
  let s := sin angle in
  let axis := normalize v in
  let temp := mk_vec3 ((1 - c) * x3 axis) ((1 - c) * y3 axis) ((1 - c) * z3 axis) in
  let r00 := c + x3 temp * x3 axis in
  let r01 := x3 temp * y3 axis + s * z3 axis in
  let r02 := x3 temp * z3 axis - s * y3 axis in
  let r10 := y3 temp * x3 axis - s * z3 axis in
  let r11 := c + y3 temp * y3 axis in
  let r12 := y3 temp * z3 axis + s * x3 axis in
  let r20 := z3 temp * x3 axis + s * y3 axis in
  let r21 := z3 temp * y3 axis - s * x3 axis in
  let r22 := c + z3 temp * z3 axis in
  mk_mat4
    (vadd (vadd (vmul (col0 m) r00) (vmul (col1 m) r01)) (vmul (col2 m) r02))
    (vadd (vadd (vmul (col0 m) r10) (vmul (col1 m) r11)) (vmul (col2 m) r12))
    (vadd (vadd (vmul (col0 m) r20) (vmul (col1 m) r21)) (vmul (col2 m) r22))
    (col3 m).

(** The transforms as maps on homogeneous points, in closed form. *)
Definition scale_point (s : vec3) (p : vec4) : vec4 :=
  mk_vec4 (x3 s * x p) (y3 s * y p) (z3 s * z p) (w p).

Definition rotateX_point (a : R) (p : vec4) : vec4 :=
  mk_vec4 (x p) (cos a * y p - sin a * z p) (sin a * y p + cos a * z p) (w p).

Definition rotateY_point (a : R) (p : vec4) : vec4 :=
  mk_vec4 (cos a * x p + sin a * z p) (y p) (cos a * z p - sin a * x p) (w p).

Definition rotateZ_point (a : R) (p : vec4) : vec4 :=
  mk_vec4 (cos a * x p - sin a * y p) (sin a * x p + cos a * y p) (z p) (w p).

Definition translate_point (t : vec3) (p : vec4) : vec4 :=
  mk_vec4 (x p + x3 t * w p) (y p + y3 t * w p) (z p + z3 t * w p) (w p).
End glm.

Import glm.

(** The model matrix of [SetTransformations]:
    [translation * rotationZ * rotationY * rotationX * scale]. *)
Definition modelView (scaleXYZ : vec3)
    (XrotationDegrees YrotationDegrees ZrotationDegrees : R)
    (positionXYZ : vec3) : mat4 :=
  let scale := glm.scale scaleXYZ in
  let rotationX := glm.rotate (glm.radians XrotationDegrees) (mk_vec3 1 0 0) in
  let rotationY := glm.rotate (glm.radians YrotationDegrees) (mk_vec3 0 1 0) in
  let rotationZ := glm.rotate (glm.radians ZrotationDegrees) (mk_vec3 0 0 1) in
  let translation := glm.translate positionXYZ in
  glm.mul (glm.mul (glm.mul (glm.mul translation rotationZ) rotationY) rotationX) scale.


(** ** Data model *)

(** [GLuint] is a 32-bit unsigned integer, [int] a 32-bit signed one.  The
    conversion from the first to the second (as in [int textureID =
    m_textureIDs[index].ID]) wraps around. *)
Definition GLuint_wrap (z : Z) : Z := z mod 2 ^ 32.

Definition int_of_GLuint (u : Z) : Z := (u + 2 ^ 31) mod 2 ^ 32 - 2 ^ 31.

(** [ShaderManager*] and [ShapeMeshes*]: the objects behind the pointers are
    outside the class, only nullness matters to it. *)
Inductive pointer := NULL | Object (address : positive).

Definition is_null (p : pointer) : bool :=
  match p with NULL => true | Object _ => false end.

(** Modelled from the spec: the record types of [SceneManager.h], which is
    not part of the sources; the fields are the ones the member functions
    access. *)
Module TEXTURE_INFO.
Record t := mk { ID : Z; tag : string }.
End TEXTURE_INFO.

Module OBJECT_MATERIAL.
Record t := mk { diffuseColor : vec3; specularColor : vec3; shininess : R; tag : string }.
End OBJECT_MATERIAL.

Inductive MeshType := Plane | Sphere | Cylinder | Box.

Module DrawCmd.
Record t := mk {
  type : MeshType;
  scale : vec3;
  rotationDeg : vec3;
  translation : vec3;
  material : string;
  texture : string
}.
End DrawCmd.

(** The member variables.  [m_textureIDs] is the fixed array of the class
    (sixteen elements in the program; here its capacity is the length of
    the list), of which the first [m_loadedTextures] elements are in use;
    [m_objectMaterials] is a [std::vector]. *)
Record SceneManager := mkSceneManager {
  m_pShaderManager : pointer;
  m_basicMeshes : pointer;
  m_textureIDs : list TEXTURE_INFO.t;
  m_loadedTextures : Z;
  m_objectMaterials : list OBJECT_MATERIAL.t
}.

Definition set_textureIDs (a : list TEXTURE_INFO.t) (s : SceneManager) : SceneManager :=
  mkSceneManager (m_pShaderManager s) (m_basicMeshes s) a
                 (m_loadedTextures s) (m_objectMaterials s).

Definition set_loadedTextures (n : Z) (s : SceneManager) : SceneManager :=
  mkSceneManager (m_pShaderManager s) (m_basicMeshes s) (m_textureIDs s)
                 n (m_objectMaterials s).

Definition set_objectMaterials (v : list OBJECT_MATERIAL.t) (s : SceneManager) : SceneManager :=
  mkSceneManager (m_pShaderManager s) (m_basicMeshes s) (m_textureIDs s)
                 (m_loadedTextures s) v.

(** The uniform names of the anonymous namespace. *)
Definition g_ModelName := "model".
Definition g_ColorValueName := "objectColor".
Definition g_TextureValueName := "objectTexture".
Definition g_UseTextureName := "bUseTexture".
Definition g_UseLightingName := "bUseLighting".

(** ** The outside world *)

Inductive GLenum :=
| GL_TEXTURE_2D | GL_TEXTURE_WRAP_S | GL_TEXTURE_WRAP_T | GL_REPEAT
| GL_TEXTURE_MIN_FILTER | GL_TEXTURE_MAG_FILTER | GL_LINEAR
| GL_RGB8 | GL_RGB | GL_RGBA8 | GL_RGBA | GL_UNSIGNED_BYTE.

(** The lines written to [std::cout] and [std::cerr]. *)
Inductive message :=
| Successfully_loaded_image (filename : string) (width height channels : Z)
| Not_implemented_channels (channels : Z)
| Could_not_load_image (filename : string)
| ERROR_m_basicMeshes_is_null.

(** The calls that leave the class, with their arguments.
    [glGenTextures n name] records the name the driver wrote;
    [glActiveTexture i] stands for [glActiveTexture(GL_TEXTURE0 + i)]. *)
Inductive event :=
| stbi_set_flip_vertically_on_load (flag : bool)
| stbi_load (filename : string)
| stbi_image_free
| cout (m : message)
| cerr (m : message)
| glGenTextures (n : Z) (name : Z)
| glBindTexture (target : GLenum) (name : Z)
| glTexParameteri (target pname param : GLenum)
| glTexImage2D (target : GLenum) (level : Z) (internalformat : GLenum)
               (width height border : Z) (format type : GLenum)
| glGenerateMipmap (target : GLenum)
| glActiveTexture (i : Z)
| setMat4Value (name : string) (value : mat4)
| setVec4Value (name : string) (value : vec4)
| setVec3Value (name : string) (value : vec3)
| setVec2Value (name : string) (value : vec2)
| setFloatValue (name : string) (value : R)
| setIntValue (name : string) (value : Z)
| setBoolValue (name : string) (value : bool)
| setSampler2DValue (name : string) (slot : Z)
| LoadPlaneMesh | LoadCylinderMesh | LoadBoxMesh | LoadSphereMesh
| DrawPlaneMesh | DrawSphereMesh | DrawCylinderMesh | DrawBoxMesh.

(** What [stbi_load] reports about a decoded file. *)
Record Image := mkImage { width : Z; height : Z; colorChannels : Z }.

(** The environment of a run: what each path decodes to ([None] when
    [stbi_load] returns a null pointer), the name the driver hands out at
    its n-th [glGenTextures], how many it has handed out, and the
    indeterminate content of an uninitialised [OBJECT_MATERIAL] local. *)
Record World := mkWorld {
  files : string -> option Image;
  texture_names : nat -> Z;
  generated : nat;
  indeterminate : vec3 * vec3 * R
}.

(** ** The monad of member functions *)

Inductive fault := null_dereference | out_of_bounds.

Inductive outcome (A : Type) :=
| Done (a : A) (w : World) (s : SceneManager) (t : list event)
| Undefined (f : fault).
Arguments Done {A} a w s t.
Arguments Undefined {A} f.

Definition M (A : Type) : Type := World -> SceneManager -> outcome A.

Definition ret {A} (a : A) : M A := fun w s => Done a w s [].

(** The calls [t] happened before the outcome [o]. *)
Definition prepend {A} (t : list event) (o : outcome A) : outcome A :=
  match o with
  | Done a w s t' => Done a w s (t ++ t')%list
  | Undefined f => Undefined f
  end.

Definition bind {A B} (c : M A) (k : A -> M B) : M B :=
  fun w s =>
    match c w s with
    | Done a w1 s1 t1 => prepend t1 (k a w1 s1)
    | Undefined f => Undefined f
    end.

Declare Scope M_scope.
Delimit Scope M_scope with M.
Notation "x <- c ;; k" := (bind c (fun x => k))
  (at level 100, c at next level, right associativity) : M_scope.
Notation "c ;; k" := (bind c (fun _ => k))
  (at level 100, right associativity) : M_scope.
Local Open Scope M_scope.

Definition emit (e : event) : M unit := fun w s => Done tt w s [e].

Definition this : M SceneManager := fun w s => Done s w s [].

Definition modify (f : SceneManager -> SceneManager) : M unit :=
  fun w s => Done tt w (f s) [].

Definition undefined {A} (f : fault) : M A := fun _ _ => Undefined f.

(** [m_pShaderManager->call] and [m_basicMeshes->call]. *)
Definition shader (e : event) : M unit :=
  s <- this ;;
  if is_null (m_pShaderManager s) then undefined null_dereference else emit e.

Definition meshes (e : event) : M unit :=
  s <- this ;;
  if is_null (m_basicMeshes s) then undefined null_dereference else emit e.

(** [m_textureIDs[i]] as an rvalue and as the target of a field update. *)
Definition texture_at (i : Z) : M TEXTURE_INFO.t :=
  fun w s =>
    if i <? 0 then Undefined out_of_bounds
    else match m_textureIDs s !! Z.to_nat i with
         | Some e => Done e w s []
         | None => Undefined out_of_bounds
         end.

Definition texture_update (i : Z) (f : TEXTURE_INFO.t -> TEXTURE_INFO.t) : M unit :=
  e <- texture_at i ;;
  modify (fun s => set_textureIDs (<[Z.to_nat i := f e]> (m_textureIDs s)) s).

(** [glGenTextures(1, &name)] *)
Definition gen_texture : M Z :=
  fun w s =>
    let name := GLuint_wrap (texture_names w (generated w)) in
    Done name
         (mkWorld (files w) (texture_names w) (S (generated w)) (indeterminate w))
         s [glGenTextures 1 name].

Definition load_image (filename : string) : M (option Image) :=
  fun w s => Done (files w filename) w s [stbi_load filename].

(** [OBJECT_MATERIAL material;]: the strings are default-constructed, the
    floats are whatever the stack holds. *)
Definition local_material : M OBJECT_MATERIAL.t :=
  fun w s =>
    let '(d, sp, sh) := indeterminate w in
    Done (OBJECT_MATERIAL.mk d sp sh EmptyString) w s [].

(** [for (int i = 0; i < n; i++) body(i)], by the number of iterations left. *)
Fixpoint for_range (left : nat) (i : Z) (body : Z -> M unit) : M unit :=
  match left with
  | O => ret tt
  | S left' => body i ;; for_range left' (i + 1) body
  end.

(** [for (const auto& c : l) body(c)] *)
Fixpoint for_each {A} (l : list A) (body : A -> M unit) : M unit :=
  match l with
  | [] => ret tt
  | c :: l' => body c ;; for_each l' body
  end.

(** ** Textures *)

(** [CreateGLTexture]: decode the file, upload it, and register it in the
    next free element of [m_textureIDs]. *)
Definition CreateGLTexture (filename tag : string) : M bool :=
  emit (stbi_set_flip_vertically_on_load true) ;;
  image <- load_image filename ;;
  match image with
  | Some img =>
      emit (cout (Successfully_loaded_image filename (width img) (height img)
                                            (colorChannels img))) ;;
      textureID <- gen_texture ;;
      emit (glBindTexture GL_TEXTURE_2D textureID) ;;
      emit (glTexParameteri GL_TEXTURE_2D GL_TEXTURE_WRAP_S GL_REPEAT) ;;
      emit (glTexParameteri GL_TEXTURE_2D GL_TEXTURE_WRAP_T GL_REPEAT) ;;
      emit (glTexParameteri GL_TEXTURE_2D GL_TEXTURE_MIN_FILTER GL_LINEAR) ;;
      emit (glTexParameteri GL_TEXTURE_2D GL_TEXTURE_MAG_FILTER GL_LINEAR) ;;
      let register : M bool :=
        emit (glGenerateMipmap GL_TEXTURE_2D) ;;
        emit stbi_image_free ;;
        emit (glBindTexture GL_TEXTURE_2D 0) ;;
        s <- this ;;
        texture_update (m_loadedTextures s)
          (fun e => TEXTURE_INFO.mk textureID (TEXTURE_INFO.tag e)) ;;
        texture_update (m_loadedTextures s)
          (fun e => TEXTURE_INFO.mk (TEXTURE_INFO.ID e) tag) ;;
        modify (set_loadedTextures (m_loadedTextures s + 1)) ;;
        ret true in
      if colorChannels img =? 3 then
        emit (glTexImage2D GL_TEXTURE_2D 0 GL_RGB8 (width img) (height img) 0
                           GL_RGB GL_UNSIGNED_BYTE) ;;
        register
      else if colorChannels img =? 4 then
        emit (glTexImage2D GL_TEXTURE_2D 0 GL_RGBA8 (width img) (height img) 0
                           GL_RGBA GL_UNSIGNED_BYTE) ;;
        register
      else
        emit (cout (Not_implemented_channels (colorChannels img))) ;;
        ret false
  | None =>
      emit (cout (Could_not_load_image filename)) ;;
      ret false
  end.

(** The loop bound [m_loadedTextures] is not changed by the loop bodies
    below, so it is read once. *)
Definition BindGLTextures : M unit :=
  s <- this ;;
  for_range (Z.to_nat (m_loadedTextures s)) 0 (fun i =>
    emit (glActiveTexture i) ;;
    e <- texture_at i ;;
    emit (glBindTexture GL_TEXTURE_2D (TEXTURE_INFO.ID e))).

Definition DestroyGLTextures : M unit :=
  s <- this ;;
  for_range (Z.to_nat (m_loadedTextures s)) 0 (fun i =>
    name <- gen_texture ;;
    texture_update i (fun e => TEXTURE_INFO.mk name (TEXTURE_INFO.tag e))).

(** The [while ((index < m_loadedTextures) && (bFound == false))] loops, by
    the number of indices left below [m_loadedTextures]. *)
Fixpoint FindTextureID_loop (left : nat) (index : Z) (tag : string) : M Z :=
  match left with
  | O => ret (-1)
  | S left' =>
      e <- texture_at index ;;
      if String.eqb (TEXTURE_INFO.tag e) tag
      then ret (int_of_GLuint (TEXTURE_INFO.ID e))
      else FindTextureID_loop left' (index + 1) tag
  end.

Definition FindTextureID (tag : string) : M Z :=
  s <- this ;;
  FindTextureID_loop (Z.to_nat (m_loadedTextures s)) 0 tag.

Fixpoint FindTextureSlot_loop (left : nat) (index : Z) (tag : string) : M Z :=
  match left with
  | O => ret (-1)
  | S left' =>
      e <- texture_at index ;;
      if String.eqb (TEXTURE_INFO.tag e) tag
      then ret index
      else FindTextureSlot_loop left' (index + 1) tag
  end.

Definition FindTextureSlot (tag : string) : M Z :=
  s <- this ;;
  FindTextureSlot_loop (Z.to_nat (m_loadedTextures s)) 0 tag.

(** ** Materials *)

(** The loop of [FindMaterial], by the number of indices left below
    [m_objectMaterials.size()]; [material] is the out-parameter. *)
Fixpoint FindMaterial_loop (left index : nat) (v : list OBJECT_MATERIAL.t)
    (tag : string) (material : OBJECT_MATERIAL.t) : OBJECT_MATERIAL.t :=
  match left with
  | O => material
  | S left' =>
      match v !! index with
      | Some m =>
          if String.eqb (OBJECT_MATERIAL.tag m) tag
          then OBJECT_MATERIAL.mk (OBJECT_MATERIAL.diffuseColor m)
                                  (OBJECT_MATERIAL.specularColor m)
                                  (OBJECT_MATERIAL.shininess m)
                                  (OBJECT_MATERIAL.tag material)
          else FindMaterial_loop left' (S index) v tag material
      | None => material
      end
  end.

(** [FindMaterial(tag, material)] returns its flag and the content of the
    out-parameter on return. *)
Definition FindMaterial (tag : string) (material : OBJECT_MATERIAL.t)
  : M (bool * OBJECT_MATERIAL.t) :=
  s <- this ;;
  if Nat.eqb (length (m_objectMaterials s)) 0 then ret (false, material)
  else
    let v := m_objectMaterials s in
    ret (true, FindMaterial_loop (length v) 0 v tag material).

(** ** Uniform uploads *)

Definition SetTransformations (scaleXYZ : vec3)
    (XrotationDegrees YrotationDegrees ZrotationDegrees : R)
    (positionXYZ : vec3) : M unit :=
  let m := modelView scaleXYZ XrotationDegrees YrotationDegrees ZrotationDegrees
                     positionXYZ in
  s <- this ;;
  if negb (is_null (m_pShaderManager s)) then
    shader (setMat4Value g_ModelName m)
  else ret tt.

Definition SetShaderColor (redColorValue greenColorValue blueColorValue alphaValue : R)
  : M unit :=
  let currentColor := mk_vec4 redColorValue greenColorValue blueColorValue alphaValue in
  s <- this ;;
  if negb (is_null (m_pShaderManager s)) then
    shader (setIntValue g_UseTextureName 0) ;;
    shader (setVec4Value g_ColorValueName currentColor)
  else ret tt.

Definition SetShaderTexture (textureTag : string) : M unit :=
  s <- this ;;
  if negb (is_null (m_pShaderManager s)) then
    shader (setIntValue g_UseTextureName 1) ;;
    textureID <- FindTextureSlot textureTag ;;
    shader (setSampler2DValue g_TextureValueName textureID)
  else ret tt.

Definition SetTextureUVScale (u v : R) : M unit :=
  s <- this ;;
  if negb (is_null (m_pShaderManager s)) then
    shader (setVec2Value "UVscale" (mk_vec2 u v))
  else ret tt.

(** [SetShaderMaterial] tests the size of the catalog and the flag of
    [FindMaterial], not the shader pointer. *)
Definition SetShaderMaterial (materialTag : string) : M unit :=
  s <- this ;;
  if (0 <? length (m_objectMaterials s))%nat then
    material <- local_material ;;
    r <- FindMaterial materialTag material ;;
    let '(bReturn, material) := r in
    if bReturn then
      shader (setVec3Value "material.diffuseColor" (OBJECT_MATERIAL.diffuseColor material)) ;;
      shader (setVec3Value "material.specularColor" (OBJECT_MATERIAL.specularColor material)) ;;
      shader (setFloatValue "material.shininess" (OBJECT_MATERIAL.shininess material))
    else ret tt
  else ret tt.

(** ** The scene *)

(** The return values of the eleven [CreateGLTexture] calls are assigned to
    [bReturn] and never read. *)
Definition LoadSceneTextures : M unit :=
  _ <- CreateGLTexture "textures/Lid.png" "Lid" ;;
  _ <- CreateGLTexture "textures/Stone.png" "Stone" ;;
  _ <- CreateGLTexture "textures/Pasta.png" "pasta" ;;
  _ <- CreateGLTexture "textures/glass.png" "glass" ;;
  _ <- CreateGLTexture "textures/jar.png" "jar" ;;
  _ <- CreateGLTexture "textures/beanContainer.png" "beancontainer" ;;
  _ <- CreateGLTexture "textures/beanContainer1.png" "beancontainer1" ;;
  _ <- CreateGLTexture "textures/painting.png" "painting" ;;
  _ <- CreateGLTexture "textures/table.png" "table" ;;
  _ <- CreateGLTexture "textures/wall.png" "wall" ;;
  _ <- CreateGLTexture "textures/plastic.png" "plastic" ;;
  BindGLTextures.

Definition plasticMaterial : OBJECT_MATERIAL.t :=
  OBJECT_MATERIAL.mk (mk_vec3 0.8 0.4 0.8) (mk_vec3 0.2 0.2 0.2) 1.0 "plastic".

Definition woodMaterial : OBJECT_MATERIAL.t :=
  OBJECT_MATERIAL.mk (mk_vec3 0.6 0.5 0.2) (mk_vec3 0.1 0.2 0.2) 1.0 "wood".

Definition metalMaterial : OBJECT_MATERIAL.t :=
  OBJECT_MATERIAL.mk (mk_vec3 0.3 0.3 0.2) (mk_vec3 0.7 0.7 0.8) 8.0 "metal".

Definition glassMaterial : OBJECT_MATERIAL.t :=
  OBJECT_MATERIAL.mk (mk_vec3 0.3 0.3 0.2) (mk_vec3 0.9 0.9 0.8) 10.0 "glass".

Definition tileMaterial : OBJECT_MATERIAL.t :=
  OBJECT_MATERIAL.mk (mk_vec3 0.5 0.5 0.5) (mk_vec3 0.7 0.7 0.7) 6.0 "tile".

Definition stoneMaterial : OBJECT_MATERIAL.t :=
  OBJECT_MATERIAL.mk (mk_vec3 0.5 0.5 0.5) (mk_vec3 0.73 0.3 0.3) 6.0 "stone".

Definition push_back (m : OBJECT_MATERIAL.t) : M unit :=
  modify (fun s => set_objectMaterials (m_objectMaterials s ++ [m])%list s).

Definition DefineObjectMaterials : M unit :=
  push_back plasticMaterial ;;
  push_back woodMaterial ;;
  push_back metalMaterial ;;
  push_back glassMaterial ;;
  push_back tileMaterial ;;
  push_back stoneMaterial.

Definition SetupSceneLights : M unit :=
  shader (setBoolValue g_UseLightingName true) ;;
  let warmLightX := 1.0%R in
  let warmLightY := 0.994%R in
  let warmLightZ := 0.75%R in
  let coolLightX := 0.6%R in
  let coolLightY := 0.77%R in
  let coolLightZ := 0.9%R in
  shader (setVec3Value "pointLights[0].position" (mk_vec3 (-20.5) 10.0 (-10.0))) ;;
  shader (setVec3Value "pointLights[0].direction" (mk_vec3 20.5 (-10.0) 10.0)) ;;
  shader (setBoolValue "pointLights[0].bUseDirection" true) ;;
  shader (setVec3Value "pointLights[0].ambient"
            (mk_vec3 (warmLightX * 0.51) (warmLightY * 0.51) (warmLightZ * 0.51))) ;;
  shader (setVec3Value "pointLights[0].diffuse"
            (mk_vec3 (warmLightX * 0.56) (warmLightY * 0.56) (warmLightZ * 0.56))) ;;
  shader (setVec3Value "pointLights[0].specular"
            (mk_vec3 (warmLightX * 0.54) (warmLightY * 0.54) (warmLightZ * 0.54))) ;;
  shader (setFloatValue "pointLights[0].focalStrength" 102.0) ;;
  shader (setFloatValue "pointLights[0].specularIntensity" 2.1) ;;
  shader (setBoolValue "pointLights[0].bActive" true) ;;
  shader (setVec3Value "pointLights[1].position" (mk_vec3 4.0 4.0 4.0)) ;;
  shader (setBoolValue "pointLights[1].bUseDirection" false) ;;
  shader (setVec3Value "pointLights[1].ambient"
            (mk_vec3 (coolLightX * 0.5) (coolLightY * 0.5) (coolLightZ * 0.5))) ;;
  shader (setVec3Value "pointLights[1].diffuse"
            (mk_vec3 (coolLightX * 0.2) (coolLightY * 0.2) (coolLightZ * 0.2))) ;;
  shader (setVec3Value "pointLights[1].specular"
            (mk_vec3 (coolLightX * 0.0) (coolLightY * 0.0) (coolLightZ * 0.0))) ;;
  shader (setFloatValue "pointLights[1].focalStrength" 12.0) ;;
  shader (setFloatValue "pointLights[1].specularIntensity" 0.0) ;;
  shader (setBoolValue "pointLights[1].bActive" true).

Definition PrepareScene : M unit :=
  LoadSceneTextures ;;
  DefineObjectMaterials ;;
  SetupSceneLights ;;
  meshes LoadPlaneMesh ;;
  meshes LoadCylinderMesh ;;
  meshes LoadBoxMesh ;;
  meshes LoadSphereMesh.

(** The lambda [drawOne] of [RenderScene]. *)
Definition drawOne (c : DrawCmd.t) : M unit :=
  SetTransformations (DrawCmd.scale c)
                     (x3 (DrawCmd.rotationDeg c)) (y3 (DrawCmd.rotationDeg c))
                     (z3 (DrawCmd.rotationDeg c)) (DrawCmd.translation c) ;;
  SetShaderMaterial (DrawCmd.material c) ;;
  SetShaderTexture (DrawCmd.texture c) ;;
  match DrawCmd.type c with
  | Plane => meshes DrawPlaneMesh
  | Sphere => meshes DrawSphereMesh
  | Cylinder => meshes DrawCylinderMesh
  | Box => meshes DrawBoxMesh
  end.

Definition cmds : list DrawCmd.t :=
  [ DrawCmd.mk Plane (mk_vec3 20.0 1.0 10.0) (mk_vec3 90.0 0.0 0.0) (mk_vec3 0.0 9.0 (-10.0)) "stone" "wall";
    DrawCmd.mk Plane (mk_vec3 20.0 1.0 10.0) (mk_vec3 0.0 0.0 0.0) (mk_vec3 0.0 0.0 0.0) "wood" "table";
    DrawCmd.mk Sphere (mk_vec3 0.3 0.3 0.3) (mk_vec3 0.0 0.0 0.0) (mk_vec3 (-6.0) 0.3 (-3.0)) "stone" "Stone";
    DrawCmd.mk Cylinder (mk_vec3 1.0 2.5 1.0) (mk_vec3 0.0 0.0 0.0) (mk_vec3 (-3.0) 0.3 0.0) "glass" "glass";
    DrawCmd.mk Cylinder (mk_vec3 3.0 1.0 3.0) (mk_vec3 0.0 0.0 0.0) (mk_vec3 1.0 0.2 0.98) "plastic" "beancontainer1";
    DrawCmd.mk Cylinder (mk_vec3 3.0 3.0 3.0) (mk_vec3 0.0 2.0 0.0) (mk_vec3 1.0 1.2 0.98) "plastic" "beancontainer";
    DrawCmd.mk Cylinder (mk_vec3 2.8 0.5 2.8) (mk_vec3 0.0 0.0 0.0) (mk_vec3 1.0 4.2 0.98) "plastic" "plastic";
    DrawCmd.mk Cylinder (mk_vec3 1.5 3.5 1.5) (mk_vec3 0.0 0.0 0.0) (mk_vec3 6.0 0.1 0.0) "glass" "jar";
    DrawCmd.mk Cylinder (mk_vec3 1.0 0.3 1.0) (mk_vec3 0.0 0.0 0.0) (mk_vec3 6.0 3.5 0.0) "plastic" "Lid";
    DrawCmd.mk Box (mk_vec3 3.5 0.01 5.5) (mk_vec3 90.0 180.0 0.0) (mk_vec3 6.0 8.5 (-10.0)) "plastic" "painting";
    DrawCmd.mk Box (mk_vec3 1.5 0.4 3.0) (mk_vec3 0.0 80.0 0.0) (mk_vec3 3.0 0.3 5.5) "plastic" "pasta";
    DrawCmd.mk Box (mk_vec3 1.5 0.4 3.0) (mk_vec3 0.0 65.0 0.0) (mk_vec3 3.0 0.6 5.5) "plastic" "pasta";
    DrawCmd.mk Box (mk_vec3 1.5 0.4 3.0) (mk_vec3 0.0 65.0 0.0) (mk_vec3 3.0 1.0 5.5) "plastic" "pasta" ].

Definition RenderScene : M unit :=
  s <- this ;;
  if is_null (m_basicMeshes s) then
    emit (cerr ERROR_m_basicMeshes_is_null)
  else
    for_each cmds drawOne.

(** ** The public operations as one type *)

Inductive operation :=
| op_CreateGLTexture (filename tag : string)
| op_BindGLTextures
| op_DestroyGLTextures
| op_FindTextureID (tag : string)
| op_FindTextureSlot (tag : string)
| op_FindMaterial (tag : string) (material : OBJECT_MATERIAL.t)
| op_SetTransformations (scaleXYZ : vec3) (rx ry rz : R) (positionXYZ : vec3)
| op_SetShaderColor (r g b a : R)
| op_SetShaderTexture (textureTag : string)
| op_SetTextureUVScale (u v : R)
| op_SetShaderMaterial (materialTag : string)
| op_LoadSceneTextures
| op_DefineObjectMaterials
| op_SetupSceneLights
| op_PrepareScene
| op_RenderScene.

Definition discard {A} (c : M A) : M unit := _ <- c ;; ret tt.

Definition run (o : operation) : M unit :=
  match o with
  | op_CreateGLTexture filename tag => discard (CreateGLTexture filename tag)
  | op_BindGLTextures => BindGLTextures
  | op_DestroyGLTextures => DestroyGLTextures
  | op_FindTextureID tag => discard (FindTextureID tag)
  | op_FindTextureSlot tag => discard (FindTextureSlot tag)
  | op_FindMaterial tag material => discard (FindMaterial tag material)
  | op_SetTransformations sc rx ry rz pos => SetTransformations sc rx ry rz pos
  | op_SetShaderColor r g b a => SetShaderColor r g b a
  | op_SetShaderTexture tag => SetShaderTexture tag
  | op_SetTextureUVScale u v => SetTextureUVScale u v
  | op_SetShaderMaterial tag => SetShaderMaterial tag
  | op_LoadSceneTextures => LoadSceneTextures
  | op_DefineObjectMaterials => DefineObjectMaterials
  | op_SetupSceneLights => SetupSceneLights
  | op_PrepareScene => PrepareScene
  | op_RenderScene => RenderScene
  end.

(** ** Notions of the statements *)

(** The texture catalog: the elements of [m_textureIDs] in use. *)
Definition catalog (s : SceneManager) : list TEXTURE_INFO.t :=
  take (Z.to_nat (m_loadedTextures s)) (m_textureIDs s).

(** The elements in use lie inside the array. *)
Definition textures_in_bounds (s : SceneManager) : Prop :=
  m_loadedTextures s <= Z.of_nat (length (m_textureIDs s)).

Definition has_texture_tag (tag : string) (e : TEXTURE_INFO.t) : Prop :=
  TEXTURE_INFO.tag e = tag.

Definition has_material_tag (tag : string) (m : OBJECT_MATERIAL.t) : Prop :=
  OBJECT_MATERIAL.tag m = tag.

#[global] Instance has_texture_tag_dec tag e : Decision (has_texture_tag tag e).
Proof. unfold has_texture_tag. apply _. Defined.

#[global] Instance has_material_tag_dec tag m : Decision (has_material_tag tag m).
Proof. unfold has_material_tag. apply _. Defined.

(** The slot of the first catalog entry with the tag, or -1. *)
Definition first_slot (tag : string) (s : SceneManager) : Z :=
  match list_find (has_texture_tag tag) (catalog s) with
  | Some (i, _) => Z.of_nat i
  | None => -1
  end.

(** The out-parameter after a search for [tag] in the vector [v]. *)
Definition found_material (tag : string) (v : list OBJECT_MATERIAL.t)
    (material : OBJECT_MATERIAL.t) : OBJECT_MATERIAL.t :=
  match list_find (has_material_tag tag) v with
  | Some (_, m) =>
      OBJECT_MATERIAL.mk (OBJECT_MATERIAL.diffuseColor m)
                         (OBJECT_MATERIAL.specularColor m)
                         (OBJECT_MATERIAL.shininess m)
                         (OBJECT_MATERIAL.tag material)
  | None => material
  end.

(** The content of the uninitialised local of [SetShaderMaterial]. *)
Definition stack_material (w : World) : OBJECT_MATERIAL.t :=
  let '(d, sp, sh) := indeterminate w in OBJECT_MATERIAL.mk d sp sh EmptyString.

Definition draw_event (m : MeshType) : event :=
  match m with
  | Plane => DrawPlaneMesh
  | Sphere => DrawSphereMesh
  | Cylinder => DrawCylinderMesh
  | Box => DrawBoxMesh
  end.

Definition drawn_mesh (e : event) : option MeshType :=
  match e with
  | DrawPlaneMesh => Some Plane
  | DrawSphereMesh => Some Sphere
  | DrawCylinderMesh => Some Cylinder
  | DrawBoxMesh => Some Box
  | _ => None
  end.

Definition is_draw (e : event) : bool :=
  match drawn_mesh e with Some _ => true | None => false end.

(** Calls of the shader manager. *)
Definition is_upload (e : event) : bool :=
  match e with
  | setMat4Value _ _ | setVec4Value _ _ | setVec3Value _ _ | setVec2Value _ _
  | setFloatValue _ _ | setIntValue _ _ | setBoolValue _ _
  | setSampler2DValue _ _ => true
  | _ => false
  end.

Definition is_material_upload (e : event) : bool :=
  match e with
  | setVec3Value n _ =>
      String.eqb n "material.diffuseColor" || String.eqb n "material.specularColor"
  | setFloatValue n _ => String.eqb n "material.shininess"
  | _ => false
  end.

(** The uploads and the draw call of one draw command: the model matrix,
    the three uniforms of the material, the two uniforms of the texture,
    the draw call. *)
Definition draw_block (c : DrawCmd.t) (material : OBJECT_MATERIAL.t) (slot : Z)
  : list event :=
  [ setMat4Value "model"
      (modelView (DrawCmd.scale c) (x3 (DrawCmd.rotationDeg c))
                 (y3 (DrawCmd.rotationDeg c)) (z3 (DrawCmd.rotationDeg c))
                 (DrawCmd.translation c));
    setVec3Value "material.diffuseColor" (OBJECT_MATERIAL.diffuseColor material);
    setVec3Value "material.specularColor" (OBJECT_MATERIAL.specularColor material);
    setFloatValue "material.shininess" (OBJECT_MATERIAL.shininess material);
    setIntValue "bUseTexture" 1;
    setSampler2DValue "objectTexture" slot;
    draw_event (DrawCmd.type c) ].

(** Reads a trace as a sequence of blocks, each one transform upload, one
    material upload, one texture upload and one draw call in that order,
    and returns the meshes drawn; [None] when the trace has another shape. *)
Fixpoint upload_draw_blocks (t : list event) : option (list MeshType) :=
  match t with
  | [] => Some []
  | setMat4Value n0 _ :: setVec3Value n1 _ :: setVec3Value n2 _
    :: setFloatValue n3 _ :: setIntValue n4 1 :: setSampler2DValue n5 _
    :: e :: rest =>
      if String.eqb n0 "model" && String.eqb n1 "material.diffuseColor"
         && String.eqb n2 "material.specularColor"
         && String.eqb n3 "material.shininess"
         && String.eqb n4 "bUseTexture" && String.eqb n5 "objectTexture"
      then match drawn_mesh e, upload_draw_blocks rest with
           | Some m, Some ms => Some (m :: ms)
           | _, _ => None
           end
      else None
  | _ => None
  end.

(** The eleven files of [LoadSceneTextures] and their tags. *)
Definition scene_textures : list (string * string) :=
  [ ("textures/Lid.png", "Lid"); ("textures/Stone.png", "Stone");
    ("textures/Pasta.png", "pasta"); ("textures/glass.png", "glass");
    ("textures/jar.png", "jar"); ("textures/beanContainer.png", "beancontainer");
    ("textures/beanContainer1.png", "beancontainer1");
    ("textures/painting.png", "painting"); ("textures/table.png", "table");
    ("textures/wall.png", "wall"); ("textures/plastic.png", "plastic") ].

(** The file decodes to an image [CreateGLTexture] accepts. *)
Definition loadable (w : World) (filename : string) : Prop :=
  exists img, files w filename = Some img /\
              (colorChannels img = 3 \/ colorChannels img = 4).

(** The name the driver hands out [k] calls from now. *)
Definition next_name (w : World) (k : nat) : Z :=
  GLuint_wrap (texture_names w (generated w + k)%nat).

Definition advance (k : nat) (w : World) : World :=
  mkWorld (files w) (texture_names w) (generated w + k)%nat (indeterminate w).

(** The calls of [BindGLTextures] on a catalog. *)
Definition bind_calls (l : list TEXTURE_INFO.t) : list event :=
  concat (imap (fun i e => [glActiveTexture (Z.of_nat i);
                            glBindTexture GL_TEXTURE_2D (TEXTURE_INFO.ID e)]) l).

(** What an operation needs in order to stay inside defined behaviour. *)
Definition ready (o : operation) (s : SceneManager) : Prop :=
  match o with
  | op_CreateGLTexture _ _ =>
      0 <= m_loadedTextures s < Z.of_nat (length (m_textureIDs s))
  | op_BindGLTextures | op_DestroyGLTextures | op_FindTextureID _
  | op_FindTextureSlot _ | op_SetShaderTexture _ => textures_in_bounds s
  | op_FindMaterial _ _ | op_SetTransformations _ _ _ _ _ | op_SetShaderColor _ _ _ _
  | op_SetTextureUVScale _ _ | op_DefineObjectMaterials => True
  | op_SetShaderMaterial _ =>
      m_pShaderManager s <> NULL \/ m_objectMaterials s = []
  | op_LoadSceneTextures =>
      0 <= m_loadedTextures s /\
      m_loadedTextures s + 11 <= Z.of_nat (length (m_textureIDs s))
  | op_SetupSceneLights => m_pShaderManager s <> NULL
  | op_PrepareScene =>
      0 <= m_loadedTextures s /\
      m_loadedTextures s + 11 <= Z.of_nat (length (m_textureIDs s)) /\
      m_pShaderManager s <> NULL /\ m_basicMeshes s <> NULL
  | op_RenderScene =>
      m_basicMeshes s = NULL \/
      (textures_in_bounds s /\ m_pShaderManager s <> NULL)
  end.

(** The six materials of [DefineObjectMaterials]. *)
Definition scene_materials : list OBJECT_MATERIAL.t :=
  [plasticMaterial; woodMaterial; metalMaterial; glassMaterial; tileMaterial;
   stoneMaterial].

(** What an operation may do to the two catalogs. *)
Definition catalog_change (o : operation) (s s' : SceneManager) : Prop :=
  match o with
  | op_CreateGLTexture _ tag =>
      m_objectMaterials s' = m_objectMaterials s /\
      (s' = s \/
       exists name, catalog s' = (catalog s ++ [TEXTURE_INFO.mk name tag])%list /\
                    m_loadedTextures s' = m_loadedTextures s + 1)
  | op_DestroyGLTextures =>
      m_objectMaterials s' = m_objectMaterials s /\
      m_loadedTextures s' = m_loadedTextures s /\
      map TEXTURE_INFO.tag (m_textureIDs s') = map TEXTURE_INFO.tag (m_textureIDs s)
  | op_DefineObjectMaterials =>
      m_textureIDs s' = m_textureIDs s /\
      m_loadedTextures s' = m_loadedTextures s /\
      m_objectMaterials s' = (m_objectMaterials s ++ scene_materials)%list
  | op_LoadSceneTextures =>
      m_objectMaterials s' = m_objectMaterials s /\
      catalog s `prefix_of` catalog s'
  | op_PrepareScene =>
      m_objectMaterials s' = (m_objectMaterials s ++ scene_materials)%list /\
      catalog s `prefix_of` catalog s'
  | _ => s' = s
  end.

(** Example states: a manager as it is before [PrepareScene], with both
    pointers set and an empty array of sixteen elements; the same without a
    shader manager, with the six materials defined and with none; the same
    without a mesh library; a world without image files and one where
    every file is an RGB image. *)
Definition empty_array : list TEXTURE_INFO.t :=
  replicate 16 (TEXTURE_INFO.mk 0 EmptyString).

Definition unprepared : SceneManager :=
  mkSceneManager (Object 1) (Object 2) empty_array 0 [].

Definition no_shader_with_materials : SceneManager :=
  mkSceneManager NULL (Object 2) empty_array 0
                 scene_materials.

Definition no_shader : SceneManager :=
  mkSceneManager NULL (Object 2) empty_array 0 [].

Definition no_meshes : SceneManager :=
  mkSceneManager (Object 1) NULL empty_array 0 [].

Definition empty_disk : World :=
  mkWorld (fun _ => None) (fun n => Z.of_nat n + 1)%Z 0
          (mk_vec3 0 0 0, mk_vec3 0 0 0, 0%R).

Definition rgb_disk : World :=
  mkWorld (fun _ => Some (mkImage 64 64 3)) (fun n => Z.of_nat n + 1)%Z 0
          (mk_vec3 0 0 0, mk_vec3 0 0 0, 0%R).

(** The manager after [CreateGLTexture] has registered [name] under [tag]. *)
Definition registered (name : Z) (tag : string) (s : SceneManager) : SceneManager :=
  set_loadedTextures (m_loadedTextures s + 1)
    (set_textureIDs
       (<[Z.to_nat (m_loadedTextures s) := TEXTURE_INFO.mk name tag]> (m_textureIDs s))
       s).

(** The calls of [CreateGLTexture] up to the test of the channel count. *)
Definition decode_calls (filename : string) (img : Image) (name : Z) : list event :=
  [ stbi_set_flip_vertically_on_load true; stbi_load filename;
    cout (Successfully_loaded_image filename (width img) (height img)
                                    (colorChannels img));
    glGenTextures 1 name; glBindTexture GL_TEXTURE_2D name;
    glTexParameteri GL_TEXTURE_2D GL_TEXTURE_WRAP_S GL_REPEAT;
    glTexParameteri GL_TEXTURE_2D GL_TEXTURE_WRAP_T GL_REPEAT;
    glTexParameteri GL_TEXTURE_2D GL_TEXTURE_MIN_FILTER GL_LINEAR;
    glTexParameteri GL_TEXTURE_2D GL_TEXTURE_MAG_FILTER GL_LINEAR ].

(** The calls that follow for an image of three or four channels. *)
Definition upload_calls (img : Image) : list event :=
  [ if colorChannels img =? 3
    then glTexImage2D GL_TEXTURE_2D 0 GL_RGB8 (width img) (height img) 0
                      GL_RGB GL_UNSIGNED_BYTE
    else glTexImage2D GL_TEXTURE_2D 0 GL_RGBA8 (width img) (height img) 0
                      GL_RGBA GL_UNSIGNED_BYTE;
    glGenerateMipmap GL_TEXTURE_2D; stbi_image_free;
    glBindTexture GL_TEXTURE_2D 0 ].

(** The manager after the tags have been registered one after the other
    under the names the driver hands out from [w] on. *)
Fixpoint register_all (w : World) (tags : list string) (s : SceneManager)
  : SceneManager :=
  match tags with
  | [] => s
  | tag :: tags' => register_all (advance 1 w) tags' (registered (next_name w 0) tag s)
  end.

(** [m_textureIDs] after [DestroyGLTextures] has run over the indices from
    [k] to [k + left - 1]: each of these elements carries the next name of
    the driver and its old tag. *)
Definition regenerated (w : World) (k left : nat) (a : list TEXTURE_INFO.t)
  : list TEXTURE_INFO.t :=
  imap (fun i e =>
          if decide (k <= i < k + left)%nat
          then TEXTURE_INFO.mk (next_name w (i - k)) (TEXTURE_INFO.tag e)
          else e) a.

(** Three registered textures, two of them under the same tag. *)
Definition three_textures : SceneManager :=
  mkSceneManager (Object 1) (Object 2)
    ([TEXTURE_INFO.mk 7 "a"; TEXTURE_INFO.mk 9 "b"; TEXTURE_INFO.mk 11 "b"]
     ++ replicate 13 (TEXTURE_INFO.mk 0 EmptyString))%list
    3 [].


(** A manager with both pointers set and the six materials defined. *)
Definition with_materials : SceneManager :=
  mkSceneManager (Object 1) (Object 2) empty_array 0
                 scene_materials.

(** The block of a draw command in the state [s] of the manager. *)
Definition block_of (w : World) (s : SceneManager) (c : DrawCmd.t) : list event :=
  draw_block c
    (found_material (DrawCmd.material c) (m_objectMaterials s) (stack_material w))
    (first_slot (DrawCmd.texture c) s).

(** Relations between the manager before and after a computation. *)
Definition keeps {A} (R : SceneManager -> SceneManager -> Prop) (c : M A) : Prop :=
  forall w s a w' s' t, c w s = Done a w' s' t -> R s s'.

(** [DestroyGLTextures]: everything but the handles stays. *)
Definition same_tags (s s' : SceneManager) : Prop :=
  m_objectMaterials s' = m_objectMaterials s /\
  m_loadedTextures s' = m_loadedTextures s /\
  map TEXTURE_INFO.tag (m_textureIDs s') = map TEXTURE_INFO.tag (m_textureIDs s).

(** [CreateGLTexture]: the catalog only grows at its end. *)
Definition grows (s s' : SceneManager) : Prop :=
  m_objectMaterials s' = m_objectMaterials s /\
  m_pShaderManager s' = m_pShaderManager s /\
  m_basicMeshes s' = m_basicMeshes s /\
  length (m_textureIDs s') = length (m_textureIDs s) /\
  m_loadedTextures s <= m_loadedTextures s' <= m_loadedTextures s + 1 /\
  catalog s `prefix_of` catalog s'.

(** [LoadSceneTextures]: the materials stay, the catalog is extended. *)
Definition extends (s s' : SceneManager) : Prop :=
  m_objectMaterials s' = m_objectMaterials s /\
  catalog s `prefix_of` catalog s'.

(** ** Further notions of the statements *)

(** The count lies inside the array: the state every member function
    expects. *)
Definition valid (s : SceneManager) : Prop :=
  0 <= m_loadedTextures s <= Z.of_nat (length (m_textureIDs s)).

(** What no operation changes: the two pointers and the capacity of the
    array; the count never decreases and stays inside the array. *)
Definition fixed (s s' : SceneManager) : Prop :=
  m_pShaderManager s' = m_pShaderManager s /\
  m_basicMeshes s' = m_basicMeshes s /\
  length (m_textureIDs s') = length (m_textureIDs s) /\
  m_loadedTextures s <= m_loadedTextures s' /\
  (valid s -> valid s').

(** A sequence of calls of public operations. *)
Definition run_all (ops : list operation) : M unit := for_each ops run.

(** The manager after a [PrepareScene] in which every texture loaded. *)
Definition prepared (w : World) (s : SceneManager) : SceneManager :=
  set_objectMaterials (m_objectMaterials s ++ scene_materials)%list
    (register_all w (map snd scene_textures) s).

(** The squared length of the spatial part of a homogeneous vector. *)
Definition sq_length (p : vec4) : R := (x p * x p + y p * y p + z p * z p)%R.

(** The calls [SetupSceneLights] may make: uploads of [bUseLighting] and of
    the uniforms of the light slots 0 and 1. *)
Definition uniform_name (e : event) : option string :=
  match e with
  | setMat4Value n _ | setVec4Value n _ | setVec3Value n _ | setVec2Value n _
  | setFloatValue n _ | setIntValue n _ | setBoolValue n _
  | setSampler2DValue n _ => Some n
  | _ => None
  end.

Definition light_upload (e : event) : bool :=
  match uniform_name e with
  | Some n => String.eqb n "bUseLighting"
              || String.prefix "pointLights[0]." n
              || String.prefix "pointLights[1]." n
  | None => false
  end.

(** A manager whose sixteen elements are all in use. *)
Definition full_array : SceneManager :=
  mkSceneManager (Object 1) (Object 2) empty_array 16 [].

(** Calls of [glBindTexture]. *)
Definition is_bind (e : event) : bool :=
  match e with glBindTexture _ _ => true | _ => false end.

(** The difference of two homogeneous vectors. *)
Definition vsub (a b : vec4) : vec4 := vadd a (vmul b (-1)).

(** Every external call of a completed run passes the test [P]. *)
Definition emits {A} (P : event -> bool) (c : M A) : Prop :=
  forall w s a w' s' t, c w s = Done a w' s' t -> forallb P t = true.

(** The calls a frame may make: the error line, the upload of the model
    matrix, of the three material uniforms, of the texture flag set to 1
    and of the sampler, and the four draw calls. *)
Definition render_call (e : event) : bool :=
  match e with
  | cerr ERROR_m_basicMeshes_is_null => true
  | setMat4Value n _ => String.eqb n "model"
  | setVec3Value n _ =>
      String.eqb n "material.diffuseColor" || String.eqb n "material.specularColor"
  | setFloatValue n _ => String.eqb n "material.shininess"
  | setIntValue n v => String.eqb n "bUseTexture" && (v =? 1)
  | setSampler2DValue n _ => String.eqb n "objectTexture"
  | DrawPlaneMesh | DrawSphereMesh | DrawCylinderMesh | DrawBoxMesh => true
  | _ => false
  end.

(** [CreateGLTexture] accepts the file: it decodes to 3 or 4 channels. *)
Definition loads (w : World) (filename : string) : bool :=
  match files w filename with
  | Some img => (colorChannels img =? 3) || (colorChannels img =? 4)
  | None => false
  end.

(** The catalog entries that loading the files of [l] in turn appends,
    when [k] names have been generated since [w]: a file that does not
    decode gives none and costs no name, a decoded file of another channel
    count gives none and costs a name, any other gives one entry. *)
Fixpoint loaded_entries (w : World) (k : nat) (l : list (string * string))
  : list TEXTURE_INFO.t :=
  match l with
  | [] => []
  | (filename, tag) :: l' =>
      match files w filename with
      | None => loaded_entries w k l'
      | Some img =>
          if (colorChannels img =? 3) || (colorChannels img =? 4)
          then TEXTURE_INFO.mk (next_name w k) tag :: loaded_entries w (S k) l'
          else loaded_entries w (S k) l'
      end
  end.

(** The file a call of [stbi_load] tries to read. *)
Definition loaded_file (e : event) : option string :=
  match e with stbi_load filename => Some filename | _ => None end.

(** A world where every file is an RGB image, except that the first file
    of the scene is missing. *)
Definition no_lid_disk : World :=
  mkWorld (fun f => if String.eqb f "textures/Lid.png" then None
                    else Some (mkImage 64 64 3))
          (fun n => Z.of_nat n + 1)%Z 0
          (mk_vec3 0 0 0, mk_vec3 0 0 0, 0%R).

(** A catalog of one texture whose handle is the largest [GLuint]. *)
Definition wrapped_handle : SceneManager :=
  mkSceneManager (Object 1) (Object 2)
    (TEXTURE_INFO.mk (2 ^ 32 - 1) "a" :: replicate 15 (TEXTURE_INFO.mk 0 EmptyString))
    1 [].

(** * Properties *)

(** ** The model matrix *)

Section glm_facts.
Local Open Scope R_scope.

Lemma vec4_eq (a b : vec4) :
  x a = x b -> y a = y b -> z a = z b -> w a = w b -> a = b.
Proof. destruct a, b; simpl; intros; subst; reflexivity. Qed.

Lemma mul_vec_mul (a b : mat4) (v : vec4) :
  mul_vec (mul a b) v = mul_vec a (mul_vec b v).
Proof.
  destruct a as [[] [] [] []], b as [[] [] [] []], v.
  apply vec4_eq; simpl; ring.
Qed.

Lemma scale_spec (s : vec3) (p : vec4) :
  mul_vec (glm.scale s) p = scale_point s p.
Proof. destruct s, p. apply vec4_eq; simpl; ring. Qed.

Lemma translate_spec (t : vec3) (p : vec4) :
  mul_vec (glm.translate t) p = translate_point t p.
Proof. destruct t, p. apply vec4_eq; simpl; ring. Qed.

Lemma rotate_spec_X (a : R) (p : vec4) :
  mul_vec (glm.rotate a (mk_vec3 1 0 0)) p = rotateX_point a p.
Proof.
  destruct p. unfold glm.rotate, normalize, dot; simpl.
  replace (1 * 1 + 0 * 0 + 0 * 0) with 1 by ring. rewrite sqrt_1.
  apply vec4_eq; simpl; field.
Qed.

Lemma rotate_spec_Y (a : R) (p : vec4) :
  mul_vec (glm.rotate a (mk_vec3 0 1 0)) p = rotateY_point a p.
Proof.
  destruct p. unfold glm.rotate, normalize, dot; simpl.
  replace (0 * 0 + 1 * 1 + 0 * 0) with 1 by ring. rewrite sqrt_1.
  apply vec4_eq; simpl; field.
Qed.

Lemma rotate_spec_Z (a : R) (p : vec4) :
  mul_vec (glm.rotate a (mk_vec3 0 0 1)) p = rotateZ_point a p.
Proof.
  destruct p. unfold glm.rotate, normalize, dot; simpl.
  replace (0 * 0 + 0 * 0 + 1 * 1) with 1 by ring. rewrite sqrt_1.
  apply vec4_eq; simpl; field.
Qed.

Lemma modelView_point (s : vec3) (rx ry rz : R) (t : vec3) (p : vec4) :
  mul_vec (modelView s rx ry rz t) p =
  translate_point t
    (rotateZ_point (radians rz)
       (rotateY_point (radians ry)
          (rotateX_point (radians rx) (scale_point s p)))).
Proof.
  unfold modelView. rewrite !mul_vec_mul.
  rewrite scale_spec, rotate_spec_X, rotate_spec_Y, rotate_spec_Z, translate_spec.
  reflexivity.
Qed.

Lemma radians_0 : radians 0 = 0.
Proof. unfold radians. field. Qed.

Lemma radians_90 : radians 90 = PI / 2.
Proof. unfold radians. field. Qed.

Lemma modelView_quarter_turn_Z :
  mul_vec (modelView (mk_vec3 1 1 1) 0 0 90 (mk_vec3 0 0 0)) (mk_vec4 1 0 0 1)
  = mk_vec4 0 1 0 1.
Proof.
  rewrite modelView_point, radians_0, radians_90.
  unfold translate_point, rotateZ_point, rotateY_point, rotateX_point, scale_point.
  simpl. rewrite cos_0, sin_0, cos_PI2, sin_PI2.
  apply vec4_eq; simpl; ring.
Qed.
End glm_facts.

(** ** Equations of the monad *)

Lemma bind_Done {A B} (c : M A) (k : A -> M B) w s a w1 s1 t1 :
  c w s = Done a w1 s1 t1 ->
  bind c k w s = prepend t1 (k a w1 s1).
Proof. intros H. unfold bind. rewrite H. reflexivity. Qed.

Lemma prepend_nil {A} (o : outcome A) : prepend [] o = o.
Proof. destruct o; reflexivity. Qed.

Lemma bind_emit {B} e (k : unit -> M B) w s :
  bind (emit e) k w s = prepend [e] (k tt w s).
Proof. reflexivity. Qed.

Lemma bind_this {B} (k : SceneManager -> M B) w s : bind this k w s = k s w s.
Proof. unfold bind, this. apply prepend_nil. Qed.

Lemma bind_ret {A B} (a : A) (k : A -> M B) w s : bind (ret a) k w s = k a w s.
Proof. unfold bind, ret. apply prepend_nil. Qed.

Lemma bind_modify {B} f (k : unit -> M B) w s :
  bind (modify f) k w s = k tt w (f s).
Proof. unfold bind, modify. apply prepend_nil. Qed.

Lemma bind_load_image {B} filename (k : option Image -> M B) w s :
  bind (load_image filename) k w s
  = prepend [stbi_load filename] (k (files w filename) w s).
Proof. reflexivity. Qed.

Lemma bind_gen_texture {B} (k : Z -> M B) w s :
  bind gen_texture k w s
  = prepend [glGenTextures 1 (next_name w 0)] (k (next_name w 0) (advance 1 w) s).
Proof.
  unfold bind, gen_texture, next_name, advance.
  rewrite Nat.add_0_r, Nat.add_1_r. reflexivity.
Qed.

Lemma bind_Undefined {A B} (c : M A) (k : A -> M B) w s f :
  c w s = Undefined f -> bind c k w s = Undefined f.
Proof. intros H. unfold bind. rewrite H. reflexivity. Qed.

Lemma bind_inv {A B} (c : M A) (k : A -> M B) w s b w2 s2 t :
  bind c k w s = Done b w2 s2 t ->
  exists a w1 s1 t1 t2,
    c w s = Done a w1 s1 t1 /\ k a w1 s1 = Done b w2 s2 t2 /\ t = (t1 ++ t2)%list.
Proof.
  unfold bind. destruct (c w s) as [a w1 s1 t1|]; [|discriminate].
  destruct (k a w1 s1) as [b' w2' s2' t2|] eqn:Hk; [|discriminate].
  intros [= -> -> -> <-]. eauto 10.
Qed.

(** Computations that only read the manager and the world. *)
Definition readonly {A} (c : M A) : Prop :=
  forall w s a w' s' t, c w s = Done a w' s' t -> w' = w /\ s' = s.

Lemma readonly_ret {A} (a : A) : readonly (ret a).
Proof. intros w s a' w' s' t [= _ -> ->]; auto. Qed.

Lemma readonly_emit e : readonly (emit e).
Proof. intros w s a' w' s' t [= _ -> ->]; auto. Qed.

Lemma readonly_this : readonly this.
Proof. intros w s a' w' s' t [= _ -> ->]; auto. Qed.

Lemma readonly_undefined {A} f : readonly (@undefined A f).
Proof. intros w s a' w' s' t [=]. Qed.

Lemma readonly_bind {A B} (c : M A) (k : A -> M B) :
  readonly c -> (forall a, readonly (k a)) -> readonly (bind c k).
Proof.
  intros Hc Hk w s b w2 s2 t H.
  apply bind_inv in H as (a & w1 & s1 & t1 & t2 & H1 & H2 & _).
  apply Hc in H1 as [-> ->]. apply Hk in H2. exact H2.
Qed.

Lemma readonly_if {A} (b : bool) (c1 c2 : M A) :
  readonly c1 -> readonly c2 -> readonly (if b then c1 else c2).
Proof. destruct b; auto. Qed.

Lemma readonly_texture_at i : readonly (texture_at i).
Proof.
  intros w s a w' s' t. unfold texture_at.
  destruct (i <? 0); [discriminate|].
  destruct (m_textureIDs s !! Z.to_nat i); [|discriminate].
  intros [= _ -> ->]; auto.
Qed.

Lemma readonly_load_image f : readonly (load_image f).
Proof. intros w s a' w' s' t [= _ -> ->]; auto. Qed.

Lemma readonly_local_material : readonly local_material.
Proof.
  intros w s a w' s' t. unfold local_material.
  destruct (indeterminate w) as [[d sp] sh]. intros [= _ -> ->]; auto.
Qed.

Lemma readonly_for_range left i body :
  (forall j, readonly (body j)) -> readonly (for_range left i body).
Proof.
  intros Hb. revert i. induction left as [|left IH]; intros i; simpl.
  - apply readonly_ret.
  - apply readonly_bind; auto.
Qed.

Lemma readonly_for_each {A} (l : list A) body :
  (forall c, readonly (body c)) -> readonly (for_each l body).
Proof.
  intros Hb. induction l as [|c l IH]; simpl.
  - apply readonly_ret.
  - apply readonly_bind; auto.
Qed.

Create HintDb readonly.
#[local] Hint Resolve readonly_ret readonly_emit readonly_this readonly_undefined
  readonly_texture_at readonly_load_image readonly_local_material : readonly.
#[local] Hint Extern 2 (readonly (bind _ _)) =>
  apply readonly_bind; [|intro] : readonly.
#[local] Hint Extern 2 (readonly (if _ then _ else _)) =>
  apply readonly_if : readonly.
#[local] Hint Extern 2 (readonly (for_range _ _ _)) =>
  apply readonly_for_range; intro : readonly.
#[local] Hint Extern 2 (readonly (for_each _ _)) =>
  apply readonly_for_each; intro : readonly.
#[local] Hint Extern 3 (readonly (match ?x with _ => _ end)) =>
  destruct x : readonly.

Lemma readonly_shader e : readonly (shader e).
Proof. unfold shader. auto with readonly. Qed.

Lemma readonly_meshes e : readonly (meshes e).
Proof. unfold meshes. auto with readonly. Qed.

#[local] Hint Resolve readonly_shader readonly_meshes : readonly.

Lemma readonly_FindTextureID_loop left index tag :
  readonly (FindTextureID_loop left index tag).
Proof.
  revert index. induction left as [|left IH]; intros index; simpl;
    auto with readonly.
Qed.

Lemma readonly_FindTextureSlot_loop left index tag :
  readonly (FindTextureSlot_loop left index tag).
Proof.
  revert index. induction left as [|left IH]; intros index; simpl;
    auto with readonly.
Qed.

#[local] Hint Resolve readonly_FindTextureID_loop readonly_FindTextureSlot_loop
  : readonly.

Lemma readonly_FindTextureID tag : readonly (FindTextureID tag).
Proof. unfold FindTextureID. auto with readonly. Qed.

Lemma readonly_FindTextureSlot tag : readonly (FindTextureSlot tag).
Proof. unfold FindTextureSlot. auto with readonly. Qed.

Lemma readonly_FindMaterial tag material : readonly (FindMaterial tag material).
Proof. unfold FindMaterial. auto with readonly. Qed.

#[local] Hint Resolve readonly_FindTextureID readonly_FindTextureSlot
  readonly_FindMaterial : readonly.

Lemma readonly_BindGLTextures : readonly BindGLTextures.
Proof. unfold BindGLTextures. auto 10 with readonly. Qed.

Lemma readonly_SetTransformations sc rx ry rz pos :
  readonly (SetTransformations sc rx ry rz pos).
Proof. unfold SetTransformations. auto with readonly. Qed.

Lemma readonly_SetShaderColor r g b a : readonly (SetShaderColor r g b a).
Proof. unfold SetShaderColor. auto 10 with readonly. Qed.

Lemma readonly_SetShaderTexture tag : readonly (SetShaderTexture tag).
Proof. unfold SetShaderTexture. auto 10 with readonly. Qed.

Lemma readonly_SetTextureUVScale u v : readonly (SetTextureUVScale u v).
Proof. unfold SetTextureUVScale. auto with readonly. Qed.

Lemma readonly_SetShaderMaterial tag : readonly (SetShaderMaterial tag).
Proof. unfold SetShaderMaterial. auto 12 with readonly. Qed.

Lemma readonly_SetupSceneLights : readonly SetupSceneLights.
Proof. unfold SetupSceneLights. auto 40 with readonly. Qed.

#[local] Hint Resolve readonly_BindGLTextures readonly_SetTransformations
  readonly_SetShaderColor readonly_SetShaderTexture readonly_SetTextureUVScale
  readonly_SetShaderMaterial readonly_SetupSceneLights : readonly.

Lemma readonly_drawOne c : readonly (drawOne c).
Proof. unfold drawOne. auto 10 with readonly. Qed.

#[local] Hint Resolve readonly_drawOne : readonly.

Lemma readonly_RenderScene : readonly RenderScene.
Proof. unfold RenderScene. auto 10 with readonly. Qed.

(** ** Reading and writing [m_textureIDs] *)

Lemma texture_at_Done (k : nat) e w s :
  m_textureIDs s !! k = Some e -> texture_at (Z.of_nat k) w s = Done e w s [].
Proof.
  intros H. unfold texture_at.
  destruct (Z.ltb_spec (Z.of_nat k) 0) as [?|_]; [lia|].
  rewrite Nat2Z.id, H. reflexivity.
Qed.

Lemma texture_update_Done (k : nat) f e w s :
  m_textureIDs s !! k = Some e ->
  texture_update (Z.of_nat k) f w s =
  Done tt w (set_textureIDs (<[k := f e]> (m_textureIDs s)) s) [].
Proof.
  intros H. unfold texture_update.
  rewrite (bind_Done _ _ _ _ _ _ _ _ (texture_at_Done k e w s H)).
  unfold modify. rewrite Nat2Z.id. reflexivity.
Qed.

Lemma int_of_GLuint_small (u : Z) : 0 <= u < 2 ^ 31 -> int_of_GLuint u = u.
Proof.
  intros H. unfold int_of_GLuint.
  rewrite Z.mod_small; lia.
Qed.

Lemma int_of_GLuint_large (u : Z) :
  2 ^ 31 <= u < 2 ^ 32 -> int_of_GLuint u = u - 2 ^ 32.
Proof.
  intros H. unfold int_of_GLuint.
  replace (u + 2 ^ 31) with (u - 2 ^ 31 + 1 * 2 ^ 32) by lia.
  rewrite Z_mod_plus_full, Z.mod_small by lia. lia.
Qed.

Lemma int_of_GLuint_range (u : Z) : - 2 ^ 31 <= int_of_GLuint u < 2 ^ 31.
Proof.
  unfold int_of_GLuint.
  pose proof (Z.mod_pos_bound (u + 2 ^ 31) (2 ^ 32) ltac:(lia)). lia.
Qed.

Lemma GLuint_wrap_range (z : Z) : 0 <= GLuint_wrap z < 2 ^ 32.
Proof. unfold GLuint_wrap. apply Z.mod_pos_bound. lia. Qed.

Lemma tag_eqb_decide (a b : string) :
  String.eqb a b = bool_decide (a = b).
Proof.
  destruct (String.eqb_spec a b) as [->|Hne].
  - rewrite bool_decide_eq_true_2; reflexivity.
  - rewrite bool_decide_eq_false_2; auto.
Qed.

(** ** The lookups *)

(** The loops scan [left] elements from index [k] and stop at the first
    one that carries the tag. *)
Lemma FindTextureSlot_loop_spec left (k : nat) tag w s :
  (k + left <= length (m_textureIDs s))%nat ->
  FindTextureSlot_loop left (Z.of_nat k) tag w s =
  Done (match list_find (has_texture_tag tag) (take left (drop k (m_textureIDs s))) with
        | Some (i, _) => Z.of_nat (k + i)
        | None => -1
        end) w s [].
Proof.
  revert k. induction left as [|left IH]; intros k Hk; simpl.
  - reflexivity.
  - assert (k < length (m_textureIDs s))%nat as Hlt by lia.
    destruct (lookup_lt_is_Some_2 _ _ Hlt) as [e He].
    rewrite (bind_Done _ _ _ _ _ _ _ _ (texture_at_Done k e w s He)).
    rewrite (drop_S _ _ _ He). simpl.
    unfold has_texture_tag at 1. rewrite tag_eqb_decide.
    destruct (decide (TEXTURE_INFO.tag e = tag)) as [Heq|Hne].
    + rewrite bool_decide_eq_true_2 by assumption. simpl.
      rewrite Nat.add_0_r. reflexivity.
    + rewrite bool_decide_eq_false_2 by assumption.
      replace (Z.of_nat k + 1) with (Z.of_nat (S k)) by lia.
      rewrite IH by lia. simpl.
      destruct (list_find _ _) as [[i x]|]; simpl; [|reflexivity].
      repeat f_equal. lia.
Qed.

Lemma FindTextureID_loop_spec left (k : nat) tag w s :
  (k + left <= length (m_textureIDs s))%nat ->
  FindTextureID_loop left (Z.of_nat k) tag w s =
  Done (match list_find (has_texture_tag tag) (take left (drop k (m_textureIDs s))) with
        | Some (_, e) => int_of_GLuint (TEXTURE_INFO.ID e)
        | None => -1
        end) w s [].
Proof.
  revert k. induction left as [|left IH]; intros k Hk; simpl.
  - reflexivity.
  - assert (k < length (m_textureIDs s))%nat as Hlt by lia.
    destruct (lookup_lt_is_Some_2 _ _ Hlt) as [e He].
    rewrite (bind_Done _ _ _ _ _ _ _ _ (texture_at_Done k e w s He)).
    rewrite (drop_S _ _ _ He). simpl.
    unfold has_texture_tag at 1. rewrite tag_eqb_decide.
    destruct (decide (TEXTURE_INFO.tag e = tag)) as [Heq|Hne].
    + rewrite bool_decide_eq_true_2 by assumption. reflexivity.
    + rewrite bool_decide_eq_false_2 by assumption.
      replace (Z.of_nat k + 1) with (Z.of_nat (S k)) by lia.
      rewrite IH by lia. simpl.
      destruct (list_find _ _) as [[i x]|]; reflexivity.
Qed.

Lemma FindTextureSlot_spec tag w s :
  textures_in_bounds s ->
  FindTextureSlot tag w s = Done (first_slot tag s) w s [].
Proof.
  intros Hb. unfold FindTextureSlot, textures_in_bounds in *.
  rewrite (bind_Done _ _ _ _ s w s [] eq_refl).
  change 0 with (Z.of_nat 0).
  rewrite FindTextureSlot_loop_spec by lia. reflexivity.
Qed.

Lemma FindTextureID_spec tag w s :
  textures_in_bounds s ->
  FindTextureID tag w s =
  Done (match list_find (has_texture_tag tag) (catalog s) with
        | Some (_, e) => int_of_GLuint (TEXTURE_INFO.ID e)
        | None => -1
        end) w s [].
Proof.
  intros Hb. unfold FindTextureID, textures_in_bounds in *.
  rewrite (bind_Done _ _ _ _ s w s [] eq_refl).
  change 0 with (Z.of_nat 0).
  rewrite FindTextureID_loop_spec by lia. reflexivity.
Qed.

Lemma FindMaterial_loop_spec left (k : nat) v tag material :
  (k + left = length v)%nat ->
  FindMaterial_loop left k v tag material =
  match list_find (has_material_tag tag) (drop k v) with
  | Some (_, m) =>
      OBJECT_MATERIAL.mk (OBJECT_MATERIAL.diffuseColor m)
                         (OBJECT_MATERIAL.specularColor m)
                         (OBJECT_MATERIAL.shininess m)
                         (OBJECT_MATERIAL.tag material)
  | None => material
  end.
Proof.
  revert k. induction left as [|left IH]; intros k Hk; simpl.
  - rewrite drop_ge by lia. reflexivity.
  - assert (k < length v)%nat as Hlt by lia.
    destruct (lookup_lt_is_Some_2 _ _ Hlt) as [m Hm].
    rewrite Hm, (drop_S _ _ _ Hm). simpl.
    unfold has_material_tag at 1. rewrite tag_eqb_decide.
    destruct (decide (OBJECT_MATERIAL.tag m = tag)) as [Heq|Hne].
    + rewrite bool_decide_eq_true_2 by assumption. reflexivity.
    + rewrite bool_decide_eq_false_2 by assumption.
      rewrite IH by lia.
      destruct (list_find _ _) as [[i x]|]; reflexivity.
Qed.

Lemma FindMaterial_eq tag material w s :
  FindMaterial tag material w s =
  Done (negb (Nat.eqb (length (m_objectMaterials s)) 0),
        found_material tag (m_objectMaterials s) material) w s [].
Proof.
  unfold FindMaterial. rewrite (bind_Done _ _ _ _ s w s [] eq_refl).
  rewrite (FindMaterial_loop_spec _ 0) by reflexivity. rewrite drop_0.
  fold (found_material tag (m_objectMaterials s) material).
  destruct (m_objectMaterials s) as [|m v]; reflexivity.
Qed.

(** ** Uploads with and without a shader manager *)

Lemma shader_attached e w s :
  m_pShaderManager s <> NULL -> shader e w s = Done tt w s [e].
Proof.
  intros H. unfold shader. rewrite (bind_Done _ _ _ _ s w s [] eq_refl).
  destruct (m_pShaderManager s); [contradiction|reflexivity].
Qed.

Lemma shader_null e w s :
  m_pShaderManager s = NULL -> shader e w s = Undefined null_dereference.
Proof.
  intros H. unfold shader. rewrite (bind_Done _ _ _ _ s w s [] eq_refl).
  rewrite H. reflexivity.
Qed.

Lemma meshes_present e w s :
  m_basicMeshes s <> NULL -> meshes e w s = Done tt w s [e].
Proof.
  intros H. unfold meshes. rewrite (bind_Done _ _ _ _ s w s [] eq_refl).
  destruct (m_basicMeshes s); [contradiction|reflexivity].
Qed.

Lemma SetTransformations_attached sc rx ry rz pos w s :
  m_pShaderManager s <> NULL ->
  SetTransformations sc rx ry rz pos w s =
  Done tt w s [setMat4Value "model" (modelView sc rx ry rz pos)].
Proof.
  intros H. unfold SetTransformations.
  rewrite (bind_Done _ _ _ _ s w s [] eq_refl).
  destruct (m_pShaderManager s) eqn:Hp; [contradiction|]. simpl.
  rewrite shader_attached by (rewrite Hp; discriminate). reflexivity.
Qed.

Lemma SetShaderTexture_attached tag w s :
  m_pShaderManager s <> NULL -> textures_in_bounds s ->
  SetShaderTexture tag w s =
  Done tt w s [setIntValue "bUseTexture" 1;
               setSampler2DValue "objectTexture" (first_slot tag s)].
Proof.
  intros H Hb. unfold SetShaderTexture.
  rewrite (bind_Done _ _ _ _ s w s [] eq_refl).
  destruct (is_null (m_pShaderManager s)) eqn:Hn.
  { destruct (m_pShaderManager s); [contradiction|discriminate]. }
  simpl.
  rewrite (bind_Done _ _ _ _ _ _ _ _ (shader_attached _ w s H)).
  rewrite (bind_Done _ _ _ _ _ _ _ _ (FindTextureSlot_spec tag w s Hb)).
  rewrite shader_attached by assumption. reflexivity.
Qed.

Lemma SetShaderMaterial_attached tag w s :
  m_pShaderManager s <> NULL -> m_objectMaterials s <> [] ->
  let material := found_material tag (m_objectMaterials s) (stack_material w) in
  SetShaderMaterial tag w s =
  Done tt w s
    [setVec3Value "material.diffuseColor" (OBJECT_MATERIAL.diffuseColor material);
     setVec3Value "material.specularColor" (OBJECT_MATERIAL.specularColor material);
     setFloatValue "material.shininess" (OBJECT_MATERIAL.shininess material)].
Proof.
  intros H Hm material. unfold SetShaderMaterial.
  rewrite (bind_Done _ _ _ _ s w s [] eq_refl).
  destruct (m_objectMaterials s) as [|m0 v] eqn:Hv; [contradiction|].
  simpl.
  assert (local_material w s = Done (stack_material w) w s []) as Hl.
  { unfold local_material, stack_material.
    destruct (indeterminate w) as [[d sp] sh]. reflexivity. }
  rewrite (bind_Done _ _ _ _ _ _ _ _ Hl).
  rewrite (bind_Done _ _ _ _ _ _ _ _ (FindMaterial_eq tag (stack_material w) w s)).
  rewrite Hv. simpl. fold material.
  rewrite (bind_Done _ _ _ _ _ _ _ _ (shader_attached _ w s H)).
  rewrite (bind_Done _ _ _ _ _ _ _ _ (shader_attached _ w s H)).
  rewrite shader_attached by assumption. reflexivity.
Qed.

Lemma SetShaderMaterial_empty tag w s :
  m_objectMaterials s = [] -> SetShaderMaterial tag w s = Done tt w s [].
Proof.
  intros Hm. unfold SetShaderMaterial.
  rewrite (bind_Done _ _ _ _ s w s [] eq_refl). rewrite Hm. reflexivity.
Qed.

(** Without a shader manager [SetShaderMaterial] reaches
    [m_pShaderManager->setVec3Value] as soon as a material is defined. *)
Lemma SetShaderMaterial_null tag w s :
  m_pShaderManager s = NULL -> m_objectMaterials s <> [] ->
  SetShaderMaterial tag w s = Undefined null_dereference.
Proof.
  intros H Hm. unfold SetShaderMaterial.
  rewrite (bind_Done _ _ _ _ s w s [] eq_refl).
  destruct (m_objectMaterials s) as [|m0 v] eqn:Hv; [contradiction|].
  simpl.
  assert (local_material w s = Done (stack_material w) w s []) as Hl.
  { unfold local_material, stack_material.
    destruct (indeterminate w) as [[d sp] sh]. reflexivity. }
  rewrite (bind_Done _ _ _ _ _ _ _ _ Hl).
  rewrite (bind_Done _ _ _ _ _ _ _ _ (FindMaterial_eq tag (stack_material w) w s)).
  rewrite Hv. simpl.
  rewrite (bind_Undefined _ _ _ _ _ (shader_null _ w s H)). reflexivity.
Qed.

(** The four guarded uploads do nothing without a shader manager. *)
Lemma guarded_uploads_without_shader w s :
  m_pShaderManager s = NULL ->
  (forall sc rx ry rz pos, SetTransformations sc rx ry rz pos w s = Done tt w s []) /\
  (forall r g b a, SetShaderColor r g b a w s = Done tt w s []) /\
  (forall tag, SetShaderTexture tag w s = Done tt w s []) /\
  (forall u v, SetTextureUVScale u v w s = Done tt w s []).
Proof.
  intros H. repeat split; intros;
    unfold SetTransformations, SetShaderColor, SetShaderTexture, SetTextureUVScale;
    rewrite (bind_Done _ _ _ _ s w s [] eq_refl), H; reflexivity.
Qed.

(** ** Loading textures *)

Lemma CreateGLTexture_missing filename tag w s :
  files w filename = None ->
  CreateGLTexture filename tag w s =
  Done false w s [stbi_set_flip_vertically_on_load true; stbi_load filename;
                  cout (Could_not_load_image filename)].
Proof.
  intros H. unfold CreateGLTexture.
  rewrite bind_emit, bind_load_image, H. reflexivity.
Qed.

Lemma CreateGLTexture_unsupported filename tag img w s :
  files w filename = Some img ->
  colorChannels img <> 3 -> colorChannels img <> 4 ->
  CreateGLTexture filename tag w s =
  Done false (advance 1 w) s
       (decode_calls filename img (next_name w 0) ++
        [cout (Not_implemented_channels (colorChannels img))]).
Proof.
  intros H H3 H4. unfold CreateGLTexture.
  rewrite bind_emit, bind_load_image, H, bind_emit, bind_gen_texture.
  rewrite !bind_emit.
  destruct (Z.eqb_spec (colorChannels img) 3) as [?|_]; [contradiction|].
  destruct (Z.eqb_spec (colorChannels img) 4) as [?|_]; [contradiction|].
  reflexivity.
Qed.

Lemma registration name tag (B : Type) (k : unit -> M B) w s :
  0 <= m_loadedTextures s < Z.of_nat (length (m_textureIDs s)) ->
  bind (texture_update (m_loadedTextures s)
          (fun e => TEXTURE_INFO.mk name (TEXTURE_INFO.tag e)))
       (fun _ =>
          bind (texture_update (m_loadedTextures s)
                  (fun e => TEXTURE_INFO.mk (TEXTURE_INFO.ID e) tag))
               (fun _ =>
                  bind (modify (set_loadedTextures (m_loadedTextures s + 1))) k)) w s
  = k tt w (registered name tag s).
Proof.
  intros Hb.
  assert (Z.to_nat (m_loadedTextures s) < length (m_textureIDs s))%nat as Hlt by lia.
  destruct (lookup_lt_is_Some_2 _ _ Hlt) as [e He].
  assert (forall f e' s', m_textureIDs s' !! Z.to_nat (m_loadedTextures s) = Some e' ->
            texture_update (m_loadedTextures s) f w s' =
            Done tt w (set_textureIDs
                         (<[Z.to_nat (m_loadedTextures s) := f e']> (m_textureIDs s')) s') [])
    as Hupd.
  { intros f e' s' He'.
    rewrite <- (Z2Nat.id (m_loadedTextures s)) at 1 by lia.
    apply texture_update_Done. assumption. }
  rewrite (bind_Done _ _ _ _ _ _ _ _ (Hupd _ e s He)), prepend_nil.
  set (s1 := set_textureIDs _ s).
  assert (m_textureIDs s1 !! Z.to_nat (m_loadedTextures s)
          = Some (TEXTURE_INFO.mk name (TEXTURE_INFO.tag e))) as H1.
  { apply list_lookup_insert_eq. assumption. }
  rewrite (bind_Done _ _ _ _ _ _ _ _ (Hupd _ _ s1 H1)), prepend_nil, bind_modify.
  f_equal. unfold registered, s1, set_loadedTextures, set_textureIDs. simpl.
  rewrite list_insert_insert_eq. reflexivity.
Qed.

Lemma CreateGLTexture_registers filename tag img w s :
  files w filename = Some img ->
  colorChannels img = 3 \/ colorChannels img = 4 ->
  0 <= m_loadedTextures s < Z.of_nat (length (m_textureIDs s)) ->
  CreateGLTexture filename tag w s =
  Done true (advance 1 w) (registered (next_name w 0) tag s)
       (decode_calls filename img (next_name w 0) ++ upload_calls img).
Proof.
  intros H Hc Hb. unfold CreateGLTexture.
  rewrite bind_emit, bind_load_image, H, bind_emit, bind_gen_texture.
  rewrite !bind_emit.
  assert ((colorChannels img =? 3) = true \/
          ((colorChannels img =? 3) = false /\ (colorChannels img =? 4) = true)) as Hcase.
  { destruct Hc as [Hc | Hc]; rewrite Hc; [left|right]; auto. }
  unfold upload_calls.
  destruct Hcase as [-> | [-> ->]];
    rewrite !bind_emit, bind_this, registration by assumption;
    reflexivity.
Qed.


Lemma texture_at_outside i w s :
  ~ (0 <= i < Z.of_nat (length (m_textureIDs s))) ->
  texture_at i w s = Undefined out_of_bounds.
Proof.
  intros H. unfold texture_at.
  destruct (Z.ltb_spec i 0) as [?|Hi]; [reflexivity|].
  rewrite lookup_ge_None_2 by lia. reflexivity.
Qed.

Lemma catalog_registered name tag s :
  0 <= m_loadedTextures s < Z.of_nat (length (m_textureIDs s)) ->
  catalog (registered name tag s) = (catalog s ++ [TEXTURE_INFO.mk name tag])%list.
Proof.
  intros Hb. unfold catalog, registered. simpl.
  replace (Z.to_nat (m_loadedTextures s + 1)) with (S (Z.to_nat (m_loadedTextures s)))
    by lia.
  erewrite take_S_r by (apply list_lookup_insert_eq; lia).
  rewrite take_insert_ge by lia. reflexivity.
Qed.

Lemma registered_fields name tag s :
  m_pShaderManager (registered name tag s) = m_pShaderManager s /\
  m_basicMeshes (registered name tag s) = m_basicMeshes s /\
  m_objectMaterials (registered name tag s) = m_objectMaterials s /\
  m_loadedTextures (registered name tag s) = m_loadedTextures s + 1 /\
  length (m_textureIDs (registered name tag s)) = length (m_textureIDs s).
Proof. unfold registered; simpl. rewrite length_insert. auto. Qed.

(** [CreateGLTexture] either fails and leaves the manager as it was, or
    registers one texture. *)
Lemma CreateGLTexture_frame filename tag w s r w' s' t :
  CreateGLTexture filename tag w s = Done r w' s' t ->
  (r = false /\ s' = s) \/
  (r = true /\ 0 <= m_loadedTextures s < Z.of_nat (length (m_textureIDs s)) /\
   s' = registered (next_name w 0) tag s).
Proof.
  intros H.
  destruct (files w filename) as [img|] eqn:Hf.
  - destruct (decide (colorChannels img = 3 \/ colorChannels img = 4)) as [Hc|Hc].
    + destruct (decide (0 <= m_loadedTextures s < Z.of_nat (length (m_textureIDs s))))
        as [Hb|Hb].
      * rewrite (CreateGLTexture_registers _ _ _ _ _ Hf Hc Hb) in H.
        injection H as <- _ <- _. right. auto.
      * exfalso. revert H. unfold CreateGLTexture.
        rewrite bind_emit, bind_load_image, Hf, bind_emit, bind_gen_texture.
        rewrite !bind_emit.
        assert (forall f (k : unit -> M bool) w0,
                  bind (texture_update (m_loadedTextures s) f) k w0 s
                  = Undefined out_of_bounds) as Hu.
        { intros f k w0. apply bind_Undefined. unfold texture_update.
          apply bind_Undefined. apply texture_at_outside. assumption. }
        assert ((colorChannels img =? 3) = true \/
                ((colorChannels img =? 3) = false /\ (colorChannels img =? 4) = true))
          as Hcase.
        { destruct Hc as [Hc | Hc]; rewrite Hc; [left|right]; auto. }
        destruct Hcase as [-> | [-> ->]];
          rewrite !bind_emit, bind_this, Hu; discriminate.
    + rewrite (CreateGLTexture_unsupported _ _ _ _ _ Hf) in H by tauto.
      injection H as <- _ <- _. left. auto.
  - rewrite (CreateGLTexture_missing _ _ _ _ Hf) in H.
    injection H as <- _ <- _. left. auto.
Qed.

(** ** Binding and regenerating *)

Lemma BindGLTextures_loop left (k : nat) w s :
  (k + left <= length (m_textureIDs s))%nat ->
  for_range left (Z.of_nat k)
    (fun i => emit (glActiveTexture i) ;;
              e <- texture_at i ;;
              emit (glBindTexture GL_TEXTURE_2D (TEXTURE_INFO.ID e))) w s
  = Done tt w s
      (concat (imap (fun i e => [glActiveTexture (Z.of_nat (k + i));
                                 glBindTexture GL_TEXTURE_2D (TEXTURE_INFO.ID e)])
                    (take left (drop k (m_textureIDs s))))).
Proof.
  revert k. induction left as [|left IH]; intros k Hk; simpl.
  - reflexivity.
  - assert (k < length (m_textureIDs s))%nat as Hlt by lia.
    destruct (lookup_lt_is_Some_2 _ _ Hlt) as [e He].
    rewrite (drop_S _ _ _ He). simpl.
    unfold bind at 1. rewrite bind_emit.
    rewrite (bind_Done _ _ _ _ _ _ _ _ (texture_at_Done k e w s He)).
    simpl.
    replace (Z.of_nat k + 1) with (Z.of_nat (S k)) by lia.
    rewrite IH by lia. simpl. rewrite Nat.add_0_r.
    do 3 f_equal. apply (f_equal (@concat event)). apply imap_ext. intros i x _. simpl.
    replace (k + S i)%nat with (S (k + i)) by lia. reflexivity.
Qed.

Lemma BindGLTextures_calls w s :
  textures_in_bounds s ->
  BindGLTextures w s = Done tt w s (bind_calls (catalog s)).
Proof.
  intros Hb. unfold BindGLTextures, textures_in_bounds in *.
  rewrite bind_this. change 0 with (Z.of_nat 0).
  rewrite BindGLTextures_loop by lia. reflexivity.
Qed.

Lemma next_name_advance w j k :
  next_name (advance j w) k = next_name w (j + k).
Proof. unfold next_name, advance. simpl. rewrite Nat.add_assoc. reflexivity. Qed.

Lemma advance_advance w j k : advance j (advance k w) = advance (k + j) w.
Proof. unfold advance. simpl. rewrite Nat.add_assoc. reflexivity. Qed.

Lemma regenerated_step w k left a e :
  a !! k = Some e ->
  regenerated (advance 1 w) (S k) left
    (<[k := TEXTURE_INFO.mk (next_name w 0) (TEXTURE_INFO.tag e)]> a)
  = regenerated w k (S left) a.
Proof.
  intros He. apply list_eq. intros i. unfold regenerated.
  rewrite !list_lookup_imap.
  destruct (decide (i = k)) as [->|Hne].
  - rewrite list_lookup_insert_eq by (apply lookup_lt_is_Some; eauto).
    rewrite He. simpl. repeat case_decide; try lia.
    rewrite Nat.sub_diag. reflexivity.
  - rewrite list_lookup_insert_ne by auto.
    destruct (a !! i) as [x|]; [|reflexivity]. simpl.
    repeat case_decide; try lia; [|reflexivity].
    rewrite next_name_advance.
    replace (1 + (i - S k))%nat with (i - k)%nat by lia. reflexivity.
Qed.

Lemma advance_0 w : advance 0 w = w.
Proof. unfold advance. rewrite Nat.add_0_r. destruct w; reflexivity. Qed.

Lemma set_textureIDs_same s : set_textureIDs (m_textureIDs s) s = s.
Proof. destruct s; reflexivity. Qed.

Lemma regenerated_0 w k a : regenerated w k 0 a = a.
Proof.
  apply list_eq. intros i. unfold regenerated. rewrite list_lookup_imap.
  destruct (a !! i); [|reflexivity]. simpl. case_decide; [lia|reflexivity].
Qed.

Lemma DestroyGLTextures_loop left (k : nat) w s :
  (k + left <= length (m_textureIDs s))%nat ->
  for_range left (Z.of_nat k)
    (fun i => name <- gen_texture ;;
              texture_update i (fun e => TEXTURE_INFO.mk name (TEXTURE_INFO.tag e))) w s
  = Done tt (advance left w)
         (set_textureIDs (regenerated w k left (m_textureIDs s)) s)
         (map (fun j => glGenTextures 1 (next_name w j)) (seq 0 left)).
Proof.
  revert k w s. induction left as [|left IH]; intros k w s Hk; simpl.
  - rewrite advance_0, regenerated_0, set_textureIDs_same. reflexivity.
  - assert (k < length (m_textureIDs s))%nat as Hlt by lia.
    destruct (lookup_lt_is_Some_2 _ _ Hlt) as [e He].
    unfold bind at 1. rewrite bind_gen_texture.
    rewrite (texture_update_Done k _ e _ s He). simpl.
    replace (Z.of_nat k + 1) with (Z.of_nat (S k)) by lia.
    rewrite IH by (simpl; rewrite length_insert; lia). simpl.
    rewrite advance_advance. f_equal.
    + unfold set_textureIDs. simpl. f_equal. apply regenerated_step. assumption.
    + f_equal. rewrite <- seq_shift, map_map.
      apply map_ext. intros j. rewrite next_name_advance. reflexivity.
Qed.

Lemma DestroyGLTextures_result w s :
  textures_in_bounds s ->
  let n := Z.to_nat (m_loadedTextures s) in
  DestroyGLTextures w s
  = Done tt (advance n w)
         (set_textureIDs (regenerated w 0 n (m_textureIDs s)) s)
         (map (fun j => glGenTextures 1 (next_name w j)) (seq 0 n)).
Proof.
  intros Hb n. unfold DestroyGLTextures, textures_in_bounds in *.
  rewrite bind_this. change 0 with (Z.of_nat 0).
  apply DestroyGLTextures_loop. lia.
Qed.

(** ** Loading the scene textures *)

Lemma bind_assoc {A B C} (c : M A) (k1 : A -> M B) (k2 : B -> M C) w s :
  bind (bind c k1) k2 w s = bind c (fun a => bind (k1 a) k2) w s.
Proof.
  unfold bind. destruct (c w s) as [a w1 s1 t1|]; [|reflexivity]. simpl.
  destruct (k1 a w1 s1) as [b w2 s2 t2|]; [|reflexivity]. simpl.
  destruct (k2 b w2 s2) as [c' w3 s3 t3|]; [|reflexivity]. simpl.
  rewrite app_assoc. reflexivity.
Qed.

Lemma bind_ext {A B} (c : M A) (k k' : A -> M B) w s :
  (forall a w1 s1, k a w1 s1 = k' a w1 s1) -> bind c k w s = bind c k' w s.
Proof.
  intros H. unfold bind. destruct (c w s); [|reflexivity]. rewrite H. reflexivity.
Qed.

Lemma LoadSceneTextures_as_loop w s :
  LoadSceneTextures w s =
  bind (for_each scene_textures (fun p => discard (CreateGLTexture p.1 p.2)))
       (fun _ => BindGLTextures) w s.
Proof.
  unfold LoadSceneTextures, scene_textures, for_each, discard.
  repeat (rewrite !bind_assoc; apply bind_ext; intros ? ? ?; rewrite ?bind_ret).
  reflexivity.
Qed.

Lemma register_all_fields w tags s :
  m_pShaderManager (register_all w tags s) = m_pShaderManager s /\
  m_basicMeshes (register_all w tags s) = m_basicMeshes s /\
  m_objectMaterials (register_all w tags s) = m_objectMaterials s /\
  m_loadedTextures (register_all w tags s) = m_loadedTextures s + Z.of_nat (length tags) /\
  length (m_textureIDs (register_all w tags s)) = length (m_textureIDs s).
Proof.
  revert w s. induction tags as [|tag tags IH]; intros w s; simpl.
  - repeat split; lia.
  - destruct (IH (advance 1 w) (registered (next_name w 0) tag s))
      as (-> & -> & -> & -> & ->).
    destruct (registered_fields (next_name w 0) tag s) as (-> & -> & -> & -> & ->).
    repeat split; lia.
Qed.

Lemma catalog_register_all w tags s :
  0 <= m_loadedTextures s ->
  m_loadedTextures s + Z.of_nat (length tags) <= Z.of_nat (length (m_textureIDs s)) ->
  catalog (register_all w tags s)
  = (catalog s ++ imap (fun i tag => TEXTURE_INFO.mk (next_name w i) tag) tags)%list.
Proof.
  revert w s. induction tags as [|tag tags IH]; intros w s H0 Hb; simpl.
  - rewrite app_nil_r. reflexivity.
  - simpl in Hb.
    destruct (registered_fields (next_name w 0) tag s) as (_ & _ & _ & Hn & Hl).
    rewrite IH by (rewrite ?Hn, ?Hl; lia).
    rewrite catalog_registered by lia. rewrite <- app_assoc. simpl.
    do 2 f_equal. apply imap_ext. intros i x _. simpl.
    rewrite next_name_advance. reflexivity.
Qed.

Lemma load_loop_all_loaded (l : list (string * string)) w s :
  Forall (fun p => loadable w p.1) l ->
  0 <= m_loadedTextures s ->
  m_loadedTextures s + Z.of_nat (length l) <= Z.of_nat (length (m_textureIDs s)) ->
  exists t,
    for_each l (fun p => discard (CreateGLTexture p.1 p.2)) w s
    = Done tt (advance (length l) w) (register_all w (map snd l) s) t.
Proof.
  revert w s. induction l as [|[filename tag] l IH]; intros w s Hl H0 Hb; simpl.
  - exists []. rewrite advance_0. reflexivity.
  - simpl in Hb. inversion Hl as [|? ? (img & Hf & Hc) Hl']; subst. simpl in Hf.
    destruct (registered_fields (next_name w 0) tag s) as (_ & _ & _ & Hn & Hlen).
    destruct (IH (advance 1 w) (registered (next_name w 0) tag s))
      as [t Ht]; [assumption|lia|rewrite Hn, Hlen; lia|].
    unfold discard at 1. rewrite bind_assoc.
    rewrite (bind_Done _ _ _ _ _ _ _ _
               (CreateGLTexture_registers filename tag img w s Hf Hc ltac:(lia))).
    rewrite bind_ret, Ht. simpl. rewrite advance_advance.
    eexists. reflexivity.
Qed.

Lemma bind_calls_lookup_from (l : list TEXTURE_INFO.t) (k i : nat) e :
  l !! i = Some e ->
  let calls :=
    concat (imap (fun i e => [glActiveTexture (Z.of_nat (k + i));
                              glBindTexture GL_TEXTURE_2D (TEXTURE_INFO.ID e)]) l) in
  calls !! (2 * i)%nat = Some (glActiveTexture (Z.of_nat (k + i))) /\
  calls !! (2 * i + 1)%nat = Some (glBindTexture GL_TEXTURE_2D (TEXTURE_INFO.ID e)).
Proof.
  revert k i. induction l as [|x l IH]; intros k i Hi; [discriminate|].
  destruct i as [|i]; simpl in *.
  - injection Hi as ->. rewrite Nat.add_0_r. auto.
  - replace (i + S (i + 0))%nat with (S (2 * i)) by lia. simpl.
    erewrite imap_ext; [|intros j y _; simpl;
                          replace (k + S j)%nat with (S k + j)%nat by lia; reflexivity].
    destruct (IH (S k) i Hi) as [H1 H2].
    replace (k + S i)%nat with (S k + i)%nat by lia. auto.
Qed.

Lemma bind_calls_lookup (l : list TEXTURE_INFO.t) (i : nat) e :
  l !! i = Some e ->
  bind_calls l !! (2 * i)%nat = Some (glActiveTexture (Z.of_nat i)) /\
  bind_calls l !! (2 * i + 1)%nat = Some (glBindTexture GL_TEXTURE_2D (TEXTURE_INFO.ID e)).
Proof. intros Hi. exact (bind_calls_lookup_from l 0 i e Hi). Qed.

Lemma Z_le_dec_true (a b : Z) : (a <=? b) = true -> a <= b.
Proof. apply Z.leb_le. Qed.


(** ** Drawing *)

Lemma drawn_mesh_draw_event m : drawn_mesh (draw_event m) = Some m.
Proof. destruct m; reflexivity. Qed.

Lemma drawOne_calls c w s :
  m_basicMeshes s <> NULL -> m_pShaderManager s <> NULL ->
  m_objectMaterials s <> [] -> textures_in_bounds s ->
  drawOne c w s = Done tt w s (block_of w s c).
Proof.
  intros Hm Hs Hv Hb. unfold drawOne.
  rewrite (bind_Done _ _ _ _ _ _ _ _ (SetTransformations_attached _ _ _ _ _ w s Hs)).
  rewrite (bind_Done _ _ _ _ _ _ _ _ (SetShaderMaterial_attached _ w s Hs Hv)).
  rewrite (bind_Done _ _ _ _ _ _ _ _ (SetShaderTexture_attached _ w s Hs Hb)).
  destruct (DrawCmd.type c) eqn:Hty; rewrite meshes_present by assumption;
    unfold block_of, draw_block; rewrite Hty; reflexivity.
Qed.

Lemma drawOne_without_materials c w s :
  m_basicMeshes s <> NULL -> m_pShaderManager s <> NULL ->
  m_objectMaterials s = [] -> textures_in_bounds s ->
  drawOne c w s =
  Done tt w s
    [ setMat4Value "model"
        (modelView (DrawCmd.scale c) (x3 (DrawCmd.rotationDeg c))
                   (y3 (DrawCmd.rotationDeg c)) (z3 (DrawCmd.rotationDeg c))
                   (DrawCmd.translation c));
      setIntValue "bUseTexture" 1;
      setSampler2DValue "objectTexture" (first_slot (DrawCmd.texture c) s);
      draw_event (DrawCmd.type c) ].
Proof.
  intros Hm Hs Hv Hb. unfold drawOne.
  rewrite (bind_Done _ _ _ _ _ _ _ _ (SetTransformations_attached _ _ _ _ _ w s Hs)).
  rewrite (bind_Done _ _ _ _ _ _ _ _ (SetShaderMaterial_empty _ w s Hv)).
  rewrite (bind_Done _ _ _ _ _ _ _ _ (SetShaderTexture_attached _ w s Hs Hb)).
  destruct (DrawCmd.type c) eqn:Hty; rewrite meshes_present by assumption;
    reflexivity.
Qed.

Lemma for_each_calls {A} (l : list A) (body : A -> M unit) (calls : A -> list event) w s :
  (forall c, body c w s = Done tt w s (calls c)) ->
  for_each l body w s = Done tt w s (concat (map calls l)).
Proof.
  intros Hbody. induction l as [|c l IH]; simpl.
  - reflexivity.
  - rewrite (bind_Done _ _ _ _ _ _ _ _ (Hbody c)), IH. reflexivity.
Qed.

Lemma blocks_parse w s (l : list DrawCmd.t) :
  upload_draw_blocks (concat (map (block_of w s) l)) = Some (map DrawCmd.type l).
Proof.
  induction l as [|c l IH]; [reflexivity|].
  cbn [map concat]. unfold block_of at 1, draw_block.
  cbn [app upload_draw_blocks String.eqb Ascii.eqb Bool.eqb andb].
  rewrite drawn_mesh_draw_event, IH. reflexivity.
Qed.

Lemma block_draws c material slot :
  List.filter is_draw (draw_block c material slot) = [draw_event (DrawCmd.type c)].
Proof. unfold draw_block. destruct (DrawCmd.type c); reflexivity. Qed.

Lemma blocks_draws w s (l : list DrawCmd.t) :
  List.filter is_draw (concat (map (block_of w s) l))
  = map (fun c => draw_event (DrawCmd.type c)) l.
Proof.
  induction l as [|c l IH]; [reflexivity|].
  cbn [map concat]. rewrite List.filter_app, IH.
  unfold block_of. rewrite block_draws. reflexivity.
Qed.

(** ** What a computation keeps *)

Lemma keeps_readonly {A} R (c : M A) :
  (forall s, R s s) -> readonly c -> keeps R c.
Proof. intros Hrefl Hc w s a w' s' t H. apply Hc in H as [_ ->]. apply Hrefl. Qed.

Lemma keeps_bind {A B} R (c : M A) (k : A -> M B) :
  (forall s1 s2 s3, R s1 s2 -> R s2 s3 -> R s1 s3) ->
  keeps R c -> (forall a, keeps R (k a)) -> keeps R (bind c k).
Proof.
  intros Htrans Hc Hk w s b w2 s2 t H.
  apply bind_inv in H as (a & w1 & s1 & t1 & t2 & H1 & H2 & _).
  eapply Htrans; [eapply Hc|eapply Hk]; eassumption.
Qed.

Lemma keeps_for_range R left i body :
  (forall s, R s s) -> (forall s1 s2 s3, R s1 s2 -> R s2 s3 -> R s1 s3) ->
  (forall j, keeps R (body j)) -> keeps R (for_range left i body).
Proof.
  intros Hrefl Htrans Hb. revert i. induction left as [|left IH]; intros i; simpl.
  - apply keeps_readonly; auto with readonly.
  - apply keeps_bind; auto.
Qed.

Lemma same_tags_refl s : same_tags s s.
Proof. unfold same_tags. auto. Qed.

Lemma same_tags_trans s1 s2 s3 : same_tags s1 s2 -> same_tags s2 s3 -> same_tags s1 s3.
Proof. unfold same_tags. intros (-> & -> & ->) (-> & -> & ->). auto. Qed.

Lemma grows_refl s : grows s s.
Proof. unfold grows. repeat split; auto; lia. Qed.

Lemma readonly_gen_texture_state : keeps eq gen_texture.
Proof. intros w s a w' s' t [= _ _ -> _]. reflexivity. Qed.

Lemma keeps_texture_update_tags i a0 :
  keeps same_tags
    (texture_update i (fun e => TEXTURE_INFO.mk a0 (TEXTURE_INFO.tag e))).
Proof.
  intros w s a w' s' t H. unfold texture_update in H.
  apply bind_inv in H as (e & w1 & s1 & t1 & t2 & H1 & H2 & _).
  pose proof H1 as H1'. apply readonly_texture_at in H1' as [-> ->].
  unfold texture_at in H1. destruct (i <? 0); [discriminate|].
  destruct (m_textureIDs s !! Z.to_nat i) as [e'|] eqn:He; [|discriminate].
  injection H1 as ->. unfold modify in H2. inversion H2; subst; clear H2.
  unfold same_tags, set_textureIDs.
  cbn [m_objectMaterials m_loadedTextures m_textureIDs]. repeat split.
  match goal with
  | |- map ?f ?l = map ?f ?l' => change (f <$> l = f <$> l')
  end.
  apply list_eq. intros j. rewrite !list_lookup_fmap.
  destruct (decide (j = Z.to_nat i)) as [->|Hne].
  - rewrite list_lookup_insert_eq by (apply lookup_lt_is_Some; eauto).
    rewrite He. reflexivity.
  - rewrite list_lookup_insert_ne by auto. reflexivity.
Qed.

Lemma keeps_DestroyGLTextures : keeps same_tags DestroyGLTextures.
Proof.
  unfold DestroyGLTextures.
  apply keeps_bind; [apply same_tags_trans| |intros s0].
  - apply keeps_readonly; [apply same_tags_refl|auto with readonly].
  - apply keeps_for_range; [apply same_tags_refl|apply same_tags_trans|intros j].
    apply keeps_bind; [apply same_tags_trans| |intros name].
    + intros w s a w' s' t H. apply readonly_gen_texture_state in H as ->.
      apply same_tags_refl.
    + apply keeps_texture_update_tags.
Qed.

Lemma keeps_CreateGLTexture filename tag : keeps grows (CreateGLTexture filename tag).
Proof.
  intros w s r w' s' t H.
  apply CreateGLTexture_frame in H as [[_ ->] | (_ & Hb & ->)].
  - apply grows_refl.
  - destruct (registered_fields (next_name w 0) tag s) as (Hp & Hm & Hv & Hn & Hl).
    unfold grows. rewrite catalog_registered by assumption.
    repeat split; try assumption; try lia.
    apply prefix_app_r. reflexivity.
Qed.

Lemma DefineObjectMaterials_result w s :
  DefineObjectMaterials w s
  = Done tt w (set_objectMaterials (m_objectMaterials s ++ scene_materials) s) [].
Proof.
  unfold DefineObjectMaterials, push_back.
  rewrite !bind_modify. unfold modify, set_objectMaterials; simpl.
  rewrite <- !app_assoc. reflexivity.
Qed.


(** ** Frames of the operations *)

Lemma extends_refl s : extends s s.
Proof. unfold extends. split; reflexivity. Qed.

Lemma extends_trans s1 s2 s3 : extends s1 s2 -> extends s2 s3 -> extends s1 s3.
Proof.
  unfold extends. intros [H1 P1] [H2 P2]. split; [congruence|].
  etransitivity; eassumption.
Qed.

Lemma keeps_extends_CreateGLTexture filename tag :
  keeps extends (CreateGLTexture filename tag).
Proof.
  intros w s r w' s' t H. apply keeps_CreateGLTexture in H.
  unfold grows, extends in *. tauto.
Qed.

Lemma keeps_LoadSceneTextures : keeps extends LoadSceneTextures.
Proof.
  unfold LoadSceneTextures.
  repeat (apply keeps_bind;
          [apply extends_trans|apply keeps_extends_CreateGLTexture|intros _]).
  apply keeps_readonly; [apply extends_refl|apply readonly_BindGLTextures].
Qed.

Lemma discard_inv {A} (c : M A) w s w' s' t :
  discard c w s = Done tt w' s' t -> exists a, c w s = Done a w' s' t.
Proof.
  unfold discard. intros H.
  apply bind_inv in H as (a & w1 & s1 & t1 & t2 & H1 & H2 & ->).
  injection H2 as <- <- <-. rewrite app_nil_r. eauto.
Qed.

Lemma discard_Done {A} (c : M A) w s a w' s' t :
  c w s = Done a w' s' t -> discard c w s = Done tt w' s' t.
Proof.
  intros H. unfold discard. rewrite (bind_Done _ _ _ _ _ _ _ _ H). simpl.
  rewrite app_nil_r. reflexivity.
Qed.

Lemma catalog_set_objectMaterials v s : catalog (set_objectMaterials v s) = catalog s.
Proof. reflexivity. Qed.

Lemma PrepareScene_frame w s w' s' t :
  PrepareScene w s = Done tt w' s' t ->
  m_objectMaterials s' = (m_objectMaterials s ++ scene_materials)%list /\
  catalog s `prefix_of` catalog s'.
Proof.
  unfold PrepareScene. intros H.
  apply bind_inv in H as ([] & w1 & s1 & t1 & ? & H1 & H & _).
  apply bind_inv in H as ([] & w2 & s2 & t2 & ? & H2 & H & _).
  apply keeps_LoadSceneTextures in H1 as [Hm Hc].
  rewrite DefineObjectMaterials_result in H2. injection H2 as _ <- _.
  assert (readonly (SetupSceneLights ;; meshes LoadPlaneMesh ;; meshes LoadCylinderMesh ;;
                    meshes LoadBoxMesh ;; meshes LoadSphereMesh)) as Hr
    by auto 10 with readonly.
  apply Hr in H as [_ ->].
  rewrite catalog_set_objectMaterials. simpl. rewrite Hm. auto.
Qed.

(** Every operation does to the catalogs what [catalog_change] allows. *)
Lemma run_frame o w s w' s' t :
  run o w s = Done tt w' s' t -> catalog_change o s s'.
Proof.
  destruct o; cbn [run catalog_change]; intros H;
    try (apply discard_inv in H as [a H]);
    try (match type of H with
         | ?c _ _ = _ =>
             let Hr := fresh in
             assert (readonly c) as Hr by auto with readonly;
             apply Hr in H as [_ ->]; reflexivity
         end).
  - pose proof H as Hg. apply keeps_CreateGLTexture in Hg as (Hm & _).
    split; [exact Hm|].
    apply CreateGLTexture_frame in H as [[_ ->] | (_ & Hb & ->)]; [auto|].
    right. exists (next_name w 0).
    rewrite catalog_registered by assumption.
    destruct (registered_fields (next_name w 0) tag s) as (_ & _ & _ & Hn & _). auto.
  - apply keeps_DestroyGLTextures in H. exact H.
  - apply keeps_LoadSceneTextures in H. exact H.
  - rewrite DefineObjectMaterials_result in H. injection H as _ <- _. auto.
  - apply PrepareScene_frame in H. exact H.
  - apply readonly_RenderScene in H as [_ ->]. reflexivity.
Qed.

(** ** The operations complete *)

Lemma CreateGLTexture_completes filename tag w s :
  0 <= m_loadedTextures s < Z.of_nat (length (m_textureIDs s)) ->
  exists r w' s' t, CreateGLTexture filename tag w s = Done r w' s' t.
Proof.
  intros Hb. destruct (files w filename) as [img|] eqn:Hf.
  - destruct (decide (colorChannels img = 3 \/ colorChannels img = 4)) as [Hc|Hc].
    + eexists _, _, _, _. apply (CreateGLTexture_registers _ _ _ _ _ Hf Hc Hb).
    + eexists _, _, _, _. apply (CreateGLTexture_unsupported _ _ _ _ _ Hf); tauto.
  - eexists _, _, _, _. apply CreateGLTexture_missing. assumption.
Qed.

Lemma load_loop_completes (l : list (string * string)) w s :
  0 <= m_loadedTextures s ->
  m_loadedTextures s + Z.of_nat (length l) <= Z.of_nat (length (m_textureIDs s)) ->
  exists w' s' t,
    for_each l (fun p => discard (CreateGLTexture p.1 p.2)) w s = Done tt w' s' t /\
    m_pShaderManager s' = m_pShaderManager s /\
    m_basicMeshes s' = m_basicMeshes s /\
    length (m_textureIDs s') = length (m_textureIDs s) /\
    m_loadedTextures s' <= m_loadedTextures s + Z.of_nat (length l).
Proof.
  revert w s. induction l as [|[filename tag] l IH]; intros w s H0 Hb.
  - exists w, s, []. simpl. repeat split; lia.
  - simpl length in Hb.
    destruct (CreateGLTexture_completes filename tag w s) as (r & w1 & s1 & t1 & H1);
      [lia|].
    pose proof (keeps_CreateGLTexture _ _ _ _ _ _ _ _ H1)
      as (_ & Hp & Hm & Hl & Hn & _).
    destruct (IH w1 s1) as (w2 & s2 & t2 & H2 & Hp2 & Hm2 & Hl2 & Hn2); [lia|lia|].
    exists w2, s2, (t1 ++ t2)%list. cbn [for_each].
    rewrite (bind_Done _ _ _ _ _ _ _ _ (discard_Done _ _ _ _ _ _ _ H1)), H2.
    simpl. repeat split; try congruence; lia.
Qed.

Lemma LoadSceneTextures_completes w s :
  0 <= m_loadedTextures s ->
  m_loadedTextures s + 11 <= Z.of_nat (length (m_textureIDs s)) ->
  exists w' s' t,
    LoadSceneTextures w s = Done tt w' s' t /\
    m_pShaderManager s' = m_pShaderManager s /\
    m_basicMeshes s' = m_basicMeshes s.
Proof.
  intros H0 Hb.
  destruct (load_loop_completes scene_textures w s H0 Hb)
    as (w1 & s1 & t1 & H1 & Hp & Hm & Hl & Hn).
  simpl length in Hn.
  exists w1, s1, (t1 ++ bind_calls (catalog s1))%list.
  rewrite LoadSceneTextures_as_loop, (bind_Done _ _ _ _ _ _ _ _ H1).
  rewrite BindGLTextures_calls by (unfold textures_in_bounds; lia). auto.
Qed.

Lemma bind_shader {B} e (k : unit -> M B) w s :
  m_pShaderManager s <> NULL -> bind (shader e) k w s = prepend [e] (k tt w s).
Proof. intros H. apply bind_Done. apply shader_attached. assumption. Qed.

Lemma bind_meshes {B} e (k : unit -> M B) w s :
  m_basicMeshes s <> NULL -> bind (meshes e) k w s = prepend [e] (k tt w s).
Proof. intros H. apply bind_Done. apply meshes_present. assumption. Qed.

Lemma SetupSceneLights_completes w s :
  m_pShaderManager s <> NULL -> exists t, SetupSceneLights w s = Done tt w s t.
Proof.
  intros H. unfold SetupSceneLights.
  rewrite !bind_shader by assumption. rewrite shader_attached by assumption.
  eexists. reflexivity.
Qed.

Lemma PrepareScene_completes w s :
  0 <= m_loadedTextures s ->
  m_loadedTextures s + 11 <= Z.of_nat (length (m_textureIDs s)) ->
  m_pShaderManager s <> NULL -> m_basicMeshes s <> NULL ->
  exists w' s' t, PrepareScene w s = Done tt w' s' t.
Proof.
  intros H0 Hb Hp Hm.
  destruct (LoadSceneTextures_completes w s H0 Hb) as (w1 & s1 & t1 & H1 & Hp1 & Hm1).
  set (s2 := set_objectMaterials (m_objectMaterials s1 ++ scene_materials) s1).
  assert (m_pShaderManager s2 <> NULL) as Hp2 by (simpl; congruence).
  assert (m_basicMeshes s2 <> NULL) as Hm2 by (simpl; congruence).
  destruct (SetupSceneLights_completes w1 s2 Hp2) as [t3 H3].
  unfold PrepareScene.
  rewrite (bind_Done _ _ _ _ _ _ _ _ H1).
  rewrite (bind_Done _ _ _ _ _ _ _ _ (DefineObjectMaterials_result w1 s1)).
  fold s2. rewrite (bind_Done _ _ _ _ _ _ _ _ H3).
  rewrite !bind_meshes by assumption. rewrite meshes_present by assumption.
  eexists _, _, _. reflexivity.
Qed.

Lemma RenderScene_without_materials w s :
  m_basicMeshes s <> NULL -> m_pShaderManager s <> NULL ->
  m_objectMaterials s = [] -> textures_in_bounds s ->
  RenderScene w s =
  Done tt w s
    (concat (map (fun c =>
       [ setMat4Value "model"
           (modelView (DrawCmd.scale c) (x3 (DrawCmd.rotationDeg c))
                      (y3 (DrawCmd.rotationDeg c)) (z3 (DrawCmd.rotationDeg c))
                      (DrawCmd.translation c));
         setIntValue "bUseTexture" 1;
         setSampler2DValue "objectTexture" (first_slot (DrawCmd.texture c) s);
         draw_event (DrawCmd.type c) ]) cmds)).
Proof.
  intros Hm Hp Hv Hb. unfold RenderScene. rewrite bind_this.
  destruct (m_basicMeshes s) eqn:Hmesh; [contradiction|]. cbn [is_null].
  apply for_each_calls. intros c.
  apply drawOne_without_materials; try assumption. rewrite Hmesh. discriminate.
Qed.

Lemma RenderScene_without_shader w s :
  m_basicMeshes s <> NULL -> m_pShaderManager s = NULL -> m_objectMaterials s = [] ->
  RenderScene w s
  = Done tt w s (concat (map (fun c => [draw_event (DrawCmd.type c)]) cmds)).
Proof.
  intros Hm Hp Hv. unfold RenderScene. rewrite bind_this.
  destruct (m_basicMeshes s) eqn:Hmesh; [contradiction|]. cbn [is_null].
  apply for_each_calls. intros c. unfold drawOne.
  destruct (guarded_uploads_without_shader w s Hp) as (HT & _ & HX & _).
  rewrite (bind_Done _ _ _ _ _ _ _ _ (HT _ _ _ _ _)).
  rewrite (bind_Done _ _ _ _ _ _ _ _ (SetShaderMaterial_empty _ w s Hv)).
  rewrite (bind_Done _ _ _ _ _ _ _ _ (HX _)).
  destruct (DrawCmd.type c); rewrite meshes_present by (rewrite Hmesh; discriminate);
    reflexivity.
Qed.

Lemma RenderScene_completes w s :
  m_basicMeshes s <> NULL -> m_pShaderManager s <> NULL -> textures_in_bounds s ->
  exists t, RenderScene w s = Done tt w s t.
Proof.
  intros Hm Hp Hb. unfold RenderScene. rewrite bind_this.
  destruct (m_basicMeshes s) eqn:Hmesh; [contradiction|]. cbn [is_null].
  destruct (m_objectMaterials s) as [|m0 v] eqn:Hv.
  - eexists. apply for_each_calls. intros c.
    apply drawOne_without_materials; try assumption; rewrite Hmesh; discriminate.
  - eexists. apply for_each_calls. intros c.
    apply drawOne_calls; try assumption; [rewrite Hmesh|rewrite Hv]; discriminate.
Qed.

Lemma pointer_null_or_not (p : pointer) : p = NULL \/ p <> NULL.
Proof. destruct p; [left; reflexivity|right; discriminate]. Qed.

Lemma guarded_upload_completes w s :
  (forall sc rx ry rz pos, exists t, SetTransformations sc rx ry rz pos w s = Done tt w s t) /\
  (forall r g b a, exists t, SetShaderColor r g b a w s = Done tt w s t) /\
  (forall u v, exists t, SetTextureUVScale u v w s = Done tt w s t) /\
  (forall tag, textures_in_bounds s -> exists t, SetShaderTexture tag w s = Done tt w s t).
Proof.
  destruct (pointer_null_or_not (m_pShaderManager s)) as [Hn|Hp].
  - destruct (guarded_uploads_without_shader w s Hn) as (H1 & H2 & H3 & H4).
    repeat split; intros; eexists; eauto.
  - repeat split; intros.
    + eexists. apply SetTransformations_attached. assumption.
    + unfold SetShaderColor. rewrite bind_this.
      destruct (m_pShaderManager s) eqn:Hs; [contradiction|]. simpl.
      rewrite bind_shader, shader_attached by (rewrite Hs; discriminate).
      eexists. reflexivity.
    + unfold SetTextureUVScale. rewrite bind_this.
      destruct (m_pShaderManager s) eqn:Hs; [contradiction|]. simpl.
      rewrite shader_attached by (rewrite Hs; discriminate).
      eexists. reflexivity.
    + eexists. apply SetShaderTexture_attached; assumption.
Qed.

(** Inside its precondition every operation runs to completion. *)
Lemma run_completes o w s :
  ready o s -> exists w' s' t, run o w s = Done tt w' s' t.
Proof.
  destruct (guarded_upload_completes w s) as (HT & HC & HU & HX).
  destruct o; simpl; intros Hr.
  - destruct (CreateGLTexture_completes filename tag w s Hr) as (r & w' & s' & t & H).
    eexists _, _, _. apply (discard_Done _ _ _ _ _ _ _ H).
  - eexists _, _, _. apply BindGLTextures_calls. assumption.
  - eexists _, _, _. apply DestroyGLTextures_result. assumption.
  - eexists _, _, _. apply (discard_Done _ _ _ _ _ _ _ (FindTextureID_spec tag w s Hr)).
  - eexists _, _, _. apply (discard_Done _ _ _ _ _ _ _ (FindTextureSlot_spec tag w s Hr)).
  - eexists _, _, _. apply (discard_Done _ _ _ _ _ _ _ (FindMaterial_eq tag material w s)).
  - destruct (HT scaleXYZ rx ry rz positionXYZ) as [t H]. eauto.
  - destruct (HC r g b a) as [t H]. eauto.
  - destruct (HX textureTag Hr) as [t H]. eauto.
  - destruct (HU u v) as [t H]. eauto.
  - destruct (m_objectMaterials s) as [|m0 v] eqn:Hv.
    + eexists _, _, _. apply SetShaderMaterial_empty. assumption.
    + destruct Hr as [Hp|Hv']; [|discriminate].
      eexists _, _, _. apply SetShaderMaterial_attached; [assumption|].
      rewrite Hv. discriminate.
  - destruct Hr as [H0 Hb].
    destruct (LoadSceneTextures_completes w s H0 Hb) as (w' & s' & t & H & _). eauto.
  - eexists _, _, _. apply DefineObjectMaterials_result.
  - destruct (SetupSceneLights_completes w s Hr) as [t H]. eauto.
  - destruct Hr as (H0 & Hb & Hp & Hm). apply PrepareScene_completes; assumption.
  - destruct (pointer_null_or_not (m_basicMeshes s)) as [Hn|Hm].
    + eexists _, _, _. unfold RenderScene. rewrite bind_this, Hn. reflexivity.
    + destruct Hr as [?|[Hb Hp]]; [contradiction|].
      destruct (RenderScene_completes w s Hm Hp Hb) as [t H]. eauto.
Qed.

(** ** Loading when some files fail *)

Lemma loaded_entries_advance w j k l :
  loaded_entries (advance j w) k l = loaded_entries w (j + k) l.
Proof.
  revert k. induction l as [|[filename tag] l IH]; intros k; [reflexivity|].
  cbn [loaded_entries]. change (files (advance j w)) with (files w).
  destruct (files w filename) as [img|]; [|apply IH].
  rewrite next_name_advance, IH, Nat.add_succ_r. reflexivity.
Qed.

Lemma loaded_entries_length w k l :
  (length (loaded_entries w k l) <= length l)%nat.
Proof.
  revert k. induction l as [|[filename tag] l IH]; intros k; [reflexivity|].
  cbn [loaded_entries length].
  destruct (files w filename) as [img|].
  - destruct ((colorChannels img =? 3) || (colorChannels img =? 4));
      [cbn [length]; specialize (IH (S k)); lia | specialize (IH (S k)); lia].
  - specialize (IH k). lia.
Qed.

Lemma loaded_entries_tags w k l :
  map TEXTURE_INFO.tag (loaded_entries w k l)
  = map snd (List.filter (fun p => loads w p.1) l).
Proof.
  revert k. induction l as [|[filename tag] l IH]; intros k; [reflexivity|].
  cbn [loaded_entries List.filter]. unfold loads at 1. cbn [fst].
  destruct (files w filename) as [img|]; [|apply IH].
  destruct ((colorChannels img =? 3) || (colorChannels img =? 4)); [|apply IH].
  cbn [map snd TEXTURE_INFO.tag]. rewrite IH. reflexivity.
Qed.

Lemma loaded_file_decode_calls filename img name :
  omap loaded_file (decode_calls filename img name) = [filename].
Proof. reflexivity. Qed.

Lemma loaded_file_upload_calls img : omap loaded_file (upload_calls img) = [].
Proof. unfold upload_calls. destruct (colorChannels img =? 3); reflexivity. Qed.

(** The loop of the eleven loads, whatever the files are: every file is
    tried, and the entries of those that load are appended in order. *)
Lemma load_loop_result (l : list (string * string)) w s :
  0 <= m_loadedTextures s ->
  m_loadedTextures s + Z.of_nat (length l) <= Z.of_nat (length (m_textureIDs s)) ->
  exists w' s' t,
    for_each l (fun p => discard (CreateGLTexture p.1 p.2)) w s = Done tt w' s' t /\
    omap loaded_file t = map fst l /\
    catalog s' = (catalog s ++ loaded_entries w 0 l)%list /\
    m_loadedTextures s'
    = m_loadedTextures s + Z.of_nat (length (loaded_entries w 0 l)) /\
    length (m_textureIDs s') = length (m_textureIDs s) /\
    m_objectMaterials s' = m_objectMaterials s.
Proof.
  revert w s. induction l as [|[filename tag] l IH]; intros w s H0 Hb.
  - exists w, s, []. cbn [for_each loaded_entries length map].
    rewrite app_nil_r. repeat split; try reflexivity. lia.
  - cbn [length] in Hb. cbn [for_each loaded_entries fst snd].
    destruct (files w filename) as [img|] eqn:Hf.
    + destruct (Z.eqb_spec (colorChannels img) 3) as [H3|H3];
        [|destruct (Z.eqb_spec (colorChannels img) 4) as [H4|H4]]; cbn [orb].
      1, 2: destruct (registered_fields (next_name w 0) tag s)
              as (_ & _ & Hv & Hn & Hlen);
            destruct (IH (advance 1 w) (registered (next_name w 0) tag s))
              as (w' & s' & t & Hrun & Ht & Hcat & Hcount & Hl' & Hm');
              [lia | rewrite Hn, Hlen; lia |];
            eexists w', s', _; split;
              [rewrite (bind_Done _ _ _ _ _ _ _ _
                          (discard_Done _ _ _ _ _ _ _
                             (CreateGLTexture_registers filename tag img w s Hf
                                ltac:(auto) ltac:(lia)))), Hrun; reflexivity|];
            rewrite omap_app, omap_app, loaded_file_decode_calls,
                    loaded_file_upload_calls, Ht, Hcat, Hcount, Hl', Hm',
                    loaded_entries_advance, catalog_registered, Hn, Hlen, Hv by lia;
            cbn [length map app fst Nat.add]; rewrite <- app_assoc;
            repeat split; try reflexivity; lia.
      destruct (IH (advance 1 w) s)
        as (w' & s' & t & Hrun & Ht & Hcat & Hcount & Hl' & Hm'); [lia|lia|].
      eexists w', s', _. split.
      { rewrite (bind_Done _ _ _ _ _ _ _ _
                   (discard_Done _ _ _ _ _ _ _
                      (CreateGLTexture_unsupported filename tag img w s Hf H3 H4))), Hrun.
        reflexivity. }
      rewrite omap_app, omap_app, loaded_file_decode_calls, Ht, Hcat, Hcount,
              loaded_entries_advance.
      cbn [length map app fst Nat.add omap list_omap loaded_file].
      repeat split; try reflexivity; assumption.
    + destruct (IH w s)
        as (w' & s' & t & Hrun & Ht & Hcat & Hcount & Hl' & Hm'); [lia|lia|].
      eexists w', s', _. split.
      { rewrite (bind_Done _ _ _ _ _ _ _ _
                   (discard_Done _ _ _ _ _ _ _
                      (CreateGLTexture_missing filename tag w s Hf))), Hrun.
        reflexivity. }
      rewrite omap_app, Ht.
      cbn [length map app fst omap list_omap loaded_file].
      repeat split; try reflexivity; assumption.
Qed.

(** * The claims *)

(** C2. [FindMaterial] returns false exactly when the material catalog is
    empty, and changes nothing in the manager.  On a catalog without an
    entry of the tag it leaves the out-parameter as it was (and, the
    catalog being non-empty, still returns true); otherwise it copies the
    diffuse colour, the specular colour and the shininess of the first
    entry of the tag.  After [DefineObjectMaterials] on an empty catalog,
    the search for "stone" returns true with diffuse (0.5,0.5,0.5),
    specular (0.73,0.3,0.3) and shininess 6.0, and the search for "wood"
    yields diffuse (0.6,0.5,0.2). *)
Theorem FindMaterial_first_match (tag : string) (material : OBJECT_MATERIAL.t)
    (w : World) (s : SceneManager) :
  (exists found material',
     FindMaterial tag material w s = Done (found, material') w s [] /\
     (found = false <-> m_objectMaterials s = []) /\
     (Forall (fun m => OBJECT_MATERIAL.tag m <> tag) (m_objectMaterials s) ->
      material' = material) /\
     (forall i m,
        m_objectMaterials s !! i = Some m -> OBJECT_MATERIAL.tag m = tag ->
        (forall j m', m_objectMaterials s !! j = Some m' -> (j < i)%nat ->
                      OBJECT_MATERIAL.tag m' <> tag) ->
        material' = OBJECT_MATERIAL.mk (OBJECT_MATERIAL.diffuseColor m)
                                       (OBJECT_MATERIAL.specularColor m)
                                       (OBJECT_MATERIAL.shininess m)
                                       (OBJECT_MATERIAL.tag material))) /\
  (exists s',
     DefineObjectMaterials w (set_objectMaterials [] s) = Done tt w s' [] /\
     FindMaterial "stone" material w s' =
       Done (true, OBJECT_MATERIAL.mk (mk_vec3 0.5 0.5 0.5) (mk_vec3 0.73 0.3 0.3) 6.0
                                      (OBJECT_MATERIAL.tag material)) w s' [] /\
     FindMaterial "wood" material w s' =
       Done (true, OBJECT_MATERIAL.mk (mk_vec3 0.6 0.5 0.2) (mk_vec3 0.1 0.2 0.2) 1.0
                                      (OBJECT_MATERIAL.tag material)) w s' []).
Proof.
  split.
  - eexists _, _. split; [apply FindMaterial_eq|]. split; [|split].
    + destruct (m_objectMaterials s); simpl; split; congruence.
    + intros Hnone. unfold found_material.
      apply (list_find_None (has_material_tag tag)) in Hnone.
      rewrite Hnone. reflexivity.
    + intros i m Hi Htag Hfirst. unfold found_material.
      assert (list_find (has_material_tag tag) (m_objectMaterials s) = Some (i, m)) as ->.
      { apply list_find_Some. auto. }
      reflexivity.
  - eexists. split; [reflexivity|]. split; rewrite FindMaterial_eq; reflexivity.
Qed.

(** C3, at the failing input: no shader manager, the six materials
    defined.  The four uploads that test the shader pointer do nothing
    there; [SetShaderMaterial], which does not test it, dereferences the
    null pointer instead of doing nothing. *)
Theorem SetShaderMaterial_dereferences_null_shader :
  m_pShaderManager no_shader_with_materials = NULL /\
  (forall sc rx ry rz pos,
     SetTransformations sc rx ry rz pos empty_disk no_shader_with_materials
     = Done tt empty_disk no_shader_with_materials []) /\
  (forall r g b a,
     SetShaderColor r g b a empty_disk no_shader_with_materials
     = Done tt empty_disk no_shader_with_materials []) /\
  (forall tag,
     SetShaderTexture tag empty_disk no_shader_with_materials
     = Done tt empty_disk no_shader_with_materials []) /\
  (forall u v,
     SetTextureUVScale u v empty_disk no_shader_with_materials
     = Done tt empty_disk no_shader_with_materials []) /\
  SetShaderMaterial "stone" empty_disk no_shader_with_materials
  = Undefined null_dereference.
Proof.
  split; [reflexivity|].
  destruct (guarded_uploads_without_shader empty_disk no_shader_with_materials eq_refl)
    as (HT & HC & HX & HU).
  do 4 (split; [assumption|]).
  apply SetShaderMaterial_null; [reflexivity|discriminate].
Qed.

(** C4. With a shader manager attached, [SetTransformations] uploads under
    "model" the product Translate x RotateZ x RotateY x RotateX x Scale of
    the library's matrices, the angles being converted from degrees to
    radians; applied to a point, this matrix scales, rotates about X, then
    Y, then Z, and translates last.  For scale (1,1,1), rotation (0,0,90)
    and translation (0,0,0) the point (1,0,0) is mapped to (0,1,0). *)
Theorem SetTransformations_model_matrix (scaleXYZ : vec3) (rx ry rz : R)
    (positionXYZ : vec3) (w : World) (s : SceneManager) :
  m_pShaderManager s <> NULL ->
  let model :=
    glm.mul (glm.mul (glm.mul (glm.mul (glm.translate positionXYZ)
                                       (glm.rotate (glm.radians rz) (mk_vec3 0 0 1)))
                              (glm.rotate (glm.radians ry) (mk_vec3 0 1 0)))
                     (glm.rotate (glm.radians rx) (mk_vec3 1 0 0)))
            (glm.scale scaleXYZ) in
  SetTransformations scaleXYZ rx ry rz positionXYZ w s
    = Done tt w s [setMat4Value "model" model] /\
  (forall p : vec4,
     mul_vec model p =
     translate_point positionXYZ
       (rotateZ_point (glm.radians rz)
          (rotateY_point (glm.radians ry)
             (rotateX_point (glm.radians rx) (scale_point scaleXYZ p))))) /\
  mul_vec (modelView (mk_vec3 1 1 1) 0 0 90 (mk_vec3 0 0 0)) (mk_vec4 1 0 0 1)
    = mk_vec4 0 1 0 1.
Proof.
  intros H model. split; [|split].
  - apply SetTransformations_attached. assumption.
  - intros p. apply modelView_point.
  - apply modelView_quarter_turn_Z.
Qed.

Lemma SetTransformations_model_matrix_witness :
  m_pShaderManager unprepared <> NULL /\
  SetTransformations (mk_vec3 1 1 1) 0 0 90 (mk_vec3 0 0 0) empty_disk unprepared
    = Done tt empty_disk unprepared
        [setMat4Value "model" (modelView (mk_vec3 1 1 1) 0 0 90 (mk_vec3 0 0 0))].
Proof.
  assert (m_pShaderManager unprepared <> NULL) as H by discriminate.
  split; [exact H|].
  exact (proj1 (SetTransformations_model_matrix (mk_vec3 1 1 1) 0 0 90 (mk_vec3 0 0 0)
                  empty_disk unprepared H)).
Defined.

(** C7. Without a mesh library [RenderScene] writes the error line and
    returns: no draw call, no upload, the manager unchanged; and so on
    every call. *)
Theorem RenderScene_without_meshes (w : World) (s : SceneManager) :
  m_basicMeshes s = NULL ->
  RenderScene w s = Done tt w s [cerr ERROR_m_basicMeshes_is_null] /\
  List.filter is_draw [cerr ERROR_m_basicMeshes_is_null] = [] /\
  List.filter is_upload [cerr ERROR_m_basicMeshes_is_null] = [] /\
  forall n : nat,
    for_range n 0 (fun _ => RenderScene) w s
    = Done tt w s (replicate n (cerr ERROR_m_basicMeshes_is_null)).
Proof.
  intros H.
  assert (RenderScene w s = Done tt w s [cerr ERROR_m_basicMeshes_is_null]) as Hr.
  { unfold RenderScene. rewrite (bind_Done _ _ _ _ s w s [] eq_refl), H. reflexivity. }
  repeat split; [exact Hr|].
  intros n. generalize 0. induction n as [|n IH]; intros i; simpl.
  - reflexivity.
  - rewrite (bind_Done _ _ _ _ _ _ _ _ Hr), IH. reflexivity.
Qed.

Lemma RenderScene_without_meshes_witness :
  m_basicMeshes no_meshes = NULL /\
  RenderScene empty_disk no_meshes
  = Done tt empty_disk no_meshes [cerr ERROR_m_basicMeshes_is_null].
Proof.
  split; [reflexivity|].
  exact (proj1 (RenderScene_without_meshes empty_disk no_meshes eq_refl)).
Defined.


(** C5. [CreateGLTexture] changes the catalog only when it succeeds.  When
    the file does not decode, and when it decodes to an image whose channel
    count is neither 3 nor 4, the call returns false and the manager (the
    array, the count, the materials) is as before.  When the image has 3
    or 4 channels and the array has a free element, the call returns true,
    one entry made of the new handle and the tag is appended to the
    catalog, and the count grows by one.  A call that returns false has
    never changed the manager; a call that returns true has appended
    exactly that entry. *)
Theorem CreateGLTexture_atomic (filename tag : string) (w : World) (s : SceneManager) :
  (files w filename = None ->
   exists t, CreateGLTexture filename tag w s = Done false w s t) /\
  (forall img, files w filename = Some img ->
     colorChannels img <> 3 -> colorChannels img <> 4 ->
     exists w' t, CreateGLTexture filename tag w s = Done false w' s t) /\
  (forall img, files w filename = Some img ->
     colorChannels img = 3 \/ colorChannels img = 4 ->
     0 <= m_loadedTextures s < Z.of_nat (length (m_textureIDs s)) ->
     exists w' s' t,
       CreateGLTexture filename tag w s = Done true w' s' t /\
       catalog s' = (catalog s ++ [TEXTURE_INFO.mk (next_name w 0) tag])%list /\
       m_loadedTextures s' = m_loadedTextures s + 1 /\
       length (m_textureIDs s') = length (m_textureIDs s) /\
       m_objectMaterials s' = m_objectMaterials s) /\
  (forall r w' s' t,
     CreateGLTexture filename tag w s = Done r w' s' t ->
     if r
     then catalog s' = (catalog s ++ [TEXTURE_INFO.mk (next_name w 0) tag])%list /\
          m_loadedTextures s' = m_loadedTextures s + 1
     else s' = s).
Proof.
  split; [|split; [|split]].
  - intros Hf. eexists. apply CreateGLTexture_missing. assumption.
  - intros img Hf H3 H4. eexists _, _.
    apply (CreateGLTexture_unsupported _ _ _ _ _ Hf H3 H4).
  - intros img Hf Hc Hb. eexists _, _, _. split.
    + apply (CreateGLTexture_registers _ _ _ _ _ Hf Hc Hb).
    + destruct (registered_fields (next_name w 0) tag s) as (_ & _ & Hm & Hn & Hl).
      rewrite catalog_registered by assumption. auto.
  - intros r w' s' t H.
    apply CreateGLTexture_frame in H as [[-> ->] | (-> & Hb & ->)]; [reflexivity|].
    rewrite catalog_registered by assumption.
    destruct (registered_fields (next_name w 0) tag s) as (_ & _ & _ & Hn & _). auto.
Qed.

Lemma CreateGLTexture_atomic_witness :
  exists w' s' t,
    CreateGLTexture "textures/jar.png" "jar" rgb_disk unprepared = Done true w' s' t /\
    catalog s' = [TEXTURE_INFO.mk 1 "jar"] /\ m_loadedTextures s' = 1.
Proof.
  destruct (CreateGLTexture_atomic "textures/jar.png" "jar" rgb_disk unprepared)
    as (_ & _ & H & _).
  destruct (H (mkImage 64 64 3)) as (w' & s' & t & H1 & H2 & H3 & _).
  - reflexivity.
  - left. reflexivity.
  - simpl. lia.
  - exists w', s', t. auto.
Defined.

(** C6, as the claim states it, fails when the files are not there:
    [LoadSceneTextures] goes on after every failed load and registers
    nothing. *)
Lemma LoadSceneTextures_without_files :
  exists t,
    LoadSceneTextures empty_disk unprepared = Done tt empty_disk unprepared t /\
    catalog unprepared = [] /\
    map TEXTURE_INFO.tag (catalog unprepared) <> map snd scene_textures.
Proof. eexists. split; [vm_compute; reflexivity|]. split; [reflexivity|discriminate]. Qed.

(** C6, amended.  When the array has eleven free elements,
    [LoadSceneTextures] tries the eleven files in order, whatever becomes of
    each, and appends one entry to the catalog for each file that decodes
    to an image of 3 or 4 channels, in that order and under its tag, with
    the handle the driver generated for it: a file that fails to load
    registers no entry and the files after it are still loaded.  When all
    eleven files load, these are eleven entries tagged Lid, Stone, pasta,
    glass, jar, beancontainer, beancontainer1, painting, table, wall,
    plastic in this order.  The last calls are those of [BindGLTextures],
    which for every index [i] below the count select texture unit [i] and
    bind the handle of entry [i]. *)
Theorem LoadSceneTextures_registers_eleven (w : World) (s : SceneManager) :
  0 <= m_loadedTextures s ->
  m_loadedTextures s + 11 <= Z.of_nat (length (m_textureIDs s)) ->
  exists w' s' t,
    LoadSceneTextures w s = Done tt w' s' (t ++ bind_calls (catalog s'))%list /\
    omap loaded_file t = map fst scene_textures /\
    catalog s' = (catalog s ++ loaded_entries w 0 scene_textures)%list /\
    map TEXTURE_INFO.tag (loaded_entries w 0 scene_textures)
    = map snd (List.filter (fun p => loads w p.1) scene_textures) /\
    m_loadedTextures s'
    = m_loadedTextures s + Z.of_nat (length (loaded_entries w 0 scene_textures)) /\
    m_objectMaterials s' = m_objectMaterials s /\
    (forall (i : nat) e,
       catalog s' !! i = Some e ->
       bind_calls (catalog s') !! (2 * i)%nat = Some (glActiveTexture (Z.of_nat i)) /\
       bind_calls (catalog s') !! (2 * i + 1)%nat
         = Some (glBindTexture GL_TEXTURE_2D (TEXTURE_INFO.ID e))) /\
    (Forall (fun p => loadable w p.1) scene_textures ->
     w' = advance 11 w /\
     m_loadedTextures s' = m_loadedTextures s + 11 /\
     catalog s' =
       (catalog s ++
        [ TEXTURE_INFO.mk (next_name w 0) "Lid";
          TEXTURE_INFO.mk (next_name w 1) "Stone";
          TEXTURE_INFO.mk (next_name w 2) "pasta";
          TEXTURE_INFO.mk (next_name w 3) "glass";
          TEXTURE_INFO.mk (next_name w 4) "jar";
          TEXTURE_INFO.mk (next_name w 5) "beancontainer";
          TEXTURE_INFO.mk (next_name w 6) "beancontainer1";
          TEXTURE_INFO.mk (next_name w 7) "painting";
          TEXTURE_INFO.mk (next_name w 8) "table";
          TEXTURE_INFO.mk (next_name w 9) "wall";
          TEXTURE_INFO.mk (next_name w 10) "plastic" ])%list).
Proof.
  intros H0 Hb.
  destruct (load_loop_result scene_textures w s H0 Hb)
    as (w' & s' & t & Hrun & Ht & Hcat & Hcount & Hlen & Hmat).
  pose proof (loaded_entries_length w 0 scene_textures) as Hle.
  change (length scene_textures) with 11%nat in Hle.
  exists w', s', t. split; [|split; [|split; [|split; [|split; [|split; [|split]]]]]].
  - rewrite LoadSceneTextures_as_loop.
    rewrite (bind_Done _ _ _ _ _ _ _ _ Hrun).
    rewrite BindGLTextures_calls by (unfold textures_in_bounds; lia).
    reflexivity.
  - exact Ht.
  - exact Hcat.
  - apply loaded_entries_tags.
  - exact Hcount.
  - exact Hmat.
  - intros i e. apply bind_calls_lookup.
  - intros Hl.
    destruct (load_loop_all_loaded scene_textures w s Hl H0 Hb) as [t' Ht'].
    destruct (register_all_fields w (map snd scene_textures) s)
      as (_ & _ & _ & Hn & _).
    pose proof (catalog_register_all w (map snd scene_textures) s H0 Hb) as Hcat'.
    change (Z.of_nat (length (map snd scene_textures))) with 11 in Hn.
    remember (register_all w (map snd scene_textures) s) as r eqn:Hr.
    rewrite Hrun in Ht'. injection Ht' as Hw Hs _.
    rewrite <- Hs in Hn, Hcat'.
    split; [exact Hw|]. split; [exact Hn|exact Hcat'].
Qed.

Lemma LoadSceneTextures_registers_eleven_witness :
  (exists w' s' t,
     LoadSceneTextures no_lid_disk unprepared
       = Done tt w' s' (t ++ bind_calls (catalog s'))%list /\
     omap loaded_file t = map fst scene_textures /\
     map TEXTURE_INFO.tag (catalog s')
     = ["Stone"; "pasta"; "glass"; "jar"; "beancontainer"; "beancontainer1";
        "painting"; "table"; "wall"; "plastic"]) /\
  (exists s' t,
     LoadSceneTextures rgb_disk unprepared
       = Done tt (advance 11 rgb_disk) s' (t ++ bind_calls (catalog s'))%list /\
     map TEXTURE_INFO.tag (catalog s') = map snd scene_textures).
Proof.
  split.
  - destruct (LoadSceneTextures_registers_eleven no_lid_disk unprepared)
      as (w' & s' & t & H1 & H2 & H3 & H4 & _).
    + simpl. lia.
    + simpl. lia.
    + exists w', s', t. split; [exact H1|]. split; [exact H2|].
      rewrite H3, map_app, H4. reflexivity.
  - destruct (LoadSceneTextures_registers_eleven rgb_disk unprepared)
      as (w' & s' & t & H1 & _ & _ & _ & _ & _ & _ & H2).
    + simpl. lia.
    + simpl. lia.
    + destruct H2 as (Hw & _ & H3).
      * repeat constructor; exists (mkImage 64 64 3); split; auto.
      * exists s', t. rewrite <- Hw. split; [exact H1|]. rewrite H3. reflexivity.
Defined.

(** C8. For a catalog inside the array, [DestroyGLTextures] makes one
    [glGenTextures] call per catalog entry and no other call; the handle
    of entry [i] becomes the name generated by the i-th of these calls;
    the count, the tags, the elements beyond the count and the materials
    stay as they are. *)
Theorem DestroyGLTextures_generates (w : World) (s : SceneManager) :
  textures_in_bounds s ->
  exists s',
    DestroyGLTextures w s
      = Done tt (advance (Z.to_nat (m_loadedTextures s)) w) s'
             (map (fun j => glGenTextures 1 (next_name w j))
                  (seq 0 (Z.to_nat (m_loadedTextures s)))) /\
    m_loadedTextures s' = m_loadedTextures s /\
    map TEXTURE_INFO.tag (m_textureIDs s') = map TEXTURE_INFO.tag (m_textureIDs s) /\
    (forall (i : nat) e,
       catalog s !! i = Some e ->
       catalog s' !! i = Some (TEXTURE_INFO.mk (next_name w i) (TEXTURE_INFO.tag e))) /\
    (forall i : nat,
       (Z.to_nat (m_loadedTextures s) <= i)%nat ->
       m_textureIDs s' !! i = m_textureIDs s !! i) /\
    m_objectMaterials s' = m_objectMaterials s /\
    m_pShaderManager s' = m_pShaderManager s /\
    m_basicMeshes s' = m_basicMeshes s.
Proof.
  intros Hb. eexists. split; [apply DestroyGLTextures_result; assumption|].
  simpl. set (n := Z.to_nat (m_loadedTextures s)).
  repeat split.
  - apply list_eq. intros i. unfold regenerated.
    rewrite !list_lookup_fmap, list_lookup_imap.
    destruct (m_textureIDs s !! i); [|reflexivity]. simpl.
    case_decide; reflexivity.
  - intros i e. unfold catalog. simpl. fold n.
    rewrite !lookup_take_Some. intros [He Hi]. split; [|assumption].
    unfold regenerated. rewrite list_lookup_imap, He. simpl.
    case_decide; [|lia]. rewrite Nat.sub_0_r. reflexivity.
  - intros i Hi. unfold regenerated. rewrite list_lookup_imap.
    destruct (m_textureIDs s !! i); [|reflexivity]. simpl.
    case_decide; [lia|reflexivity].
Qed.

Lemma DestroyGLTextures_generates_witness :
  textures_in_bounds three_textures /\
  exists s',
    DestroyGLTextures empty_disk three_textures
      = Done tt (advance 3 empty_disk) s'
             [glGenTextures 1 1; glGenTextures 1 2; glGenTextures 1 3] /\
    map TEXTURE_INFO.tag (m_textureIDs s')
      = map TEXTURE_INFO.tag (m_textureIDs three_textures).
Proof.
  assert (textures_in_bounds three_textures) as Hb.
  { apply Z_le_dec_true. reflexivity. }
  split; [exact Hb|].
  destruct (DestroyGLTextures_generates empty_disk three_textures Hb)
    as (s' & H1 & _ & H2 & _).
  exists s'. split; [exact H1|exact H2].
Defined.

(** C9, as the claim states it, fails for a handle from 2^31 on: the
    return type of [FindTextureID] is [int], and for the handle 2^32 - 1 of
    a registered tag it returns -1, the value it returns for a tag that is
    not registered. *)
Lemma FindTextureID_of_wrapped_handle :
  textures_in_bounds wrapped_handle /\
  catalog wrapped_handle = [TEXTURE_INFO.mk (2 ^ 32 - 1) "a"] /\
  FindTextureSlot "a" empty_disk wrapped_handle = Done 0 empty_disk wrapped_handle [] /\
  FindTextureID "a" empty_disk wrapped_handle = Done (-1) empty_disk wrapped_handle [] /\
  FindTextureID "a" empty_disk wrapped_handle
  <> Done (2 ^ 32 - 1) empty_disk wrapped_handle [].
Proof.
  assert (FindTextureID "a" empty_disk wrapped_handle
          = Done (-1) empty_disk wrapped_handle []) as H by reflexivity.
  split; [apply Z_le_dec_true; reflexivity|].
  split; [reflexivity|]. split; [reflexivity|]. split; [exact H|].
  rewrite H. discriminate.
Qed.

(** C9, amended.  For a catalog inside the array, the two lookups change
    nothing and make no call.  When no catalog entry carries the tag both
    return -1.  When some entry carries it, [FindTextureSlot] returns the
    least index of such an entry and [FindTextureID] returns the handle
    stored at that index, converted to [int]: the handle itself when it is
    below 2^31, the handle minus 2^32 from 2^31 on. *)
Theorem FindTexture_first_match (tag : string) (w : World) (s : SceneManager) :
  textures_in_bounds s ->
  (Forall (fun e => TEXTURE_INFO.tag e <> tag) (catalog s) ->
   FindTextureID tag w s = Done (-1) w s [] /\
   FindTextureSlot tag w s = Done (-1) w s []) /\
  (Exists (fun e => TEXTURE_INFO.tag e = tag) (catalog s) ->
   exists (i : nat) (e : TEXTURE_INFO.t),
     catalog s !! i = Some e /\ m_textureIDs s !! i = Some e /\
     TEXTURE_INFO.tag e = tag /\
     (forall (j : nat) e', catalog s !! j = Some e' -> (j < i)%nat ->
                           TEXTURE_INFO.tag e' <> tag) /\
     FindTextureSlot tag w s = Done (Z.of_nat i) w s [] /\
     FindTextureID tag w s = Done (int_of_GLuint (TEXTURE_INFO.ID e)) w s [] /\
     (0 <= TEXTURE_INFO.ID e < 2 ^ 31 ->
      FindTextureID tag w s = Done (TEXTURE_INFO.ID e) w s []) /\
     (2 ^ 31 <= TEXTURE_INFO.ID e < 2 ^ 32 ->
      FindTextureID tag w s = Done (TEXTURE_INFO.ID e - 2 ^ 32) w s [])).
Proof.
  intros Hb. split.
  - intros Hnone.
    apply (list_find_None (has_texture_tag tag)) in Hnone.
    rewrite FindTextureID_spec, FindTextureSlot_spec by assumption.
    unfold first_slot. rewrite Hnone. auto.
  - intros Hsome.
    destruct (list_find (has_texture_tag tag) (catalog s)) as [[i e]|] eqn:Hfind.
    + pose proof Hfind as Hfind'.
      apply list_find_Some in Hfind' as (Hi & Htag & Hfirst).
      exists i, e. repeat split; try assumption.
      * unfold catalog in Hi. apply lookup_take_Some in Hi. tauto.
      * rewrite FindTextureSlot_spec by assumption.
        unfold first_slot. rewrite Hfind. reflexivity.
      * rewrite FindTextureID_spec by assumption. rewrite Hfind. reflexivity.
      * intros Hsmall. rewrite FindTextureID_spec by assumption.
        rewrite Hfind, int_of_GLuint_small by assumption. reflexivity.
      * intros Hlarge. rewrite FindTextureID_spec by assumption.
        rewrite Hfind, int_of_GLuint_large by assumption. reflexivity.
    + exfalso. apply list_find_None in Hfind.
      apply Forall_Exists_neg in Hfind. contradiction.
Qed.

Lemma FindTexture_first_match_witness :
  textures_in_bounds three_textures /\
  (exists (i : nat) e,
     catalog three_textures !! i = Some e /\ TEXTURE_INFO.tag e = "b" /\
     FindTextureSlot "b" empty_disk three_textures
       = Done (Z.of_nat i) empty_disk three_textures [] /\
     FindTextureID "b" empty_disk three_textures
       = Done (int_of_GLuint (TEXTURE_INFO.ID e)) empty_disk three_textures []) /\
  FindTextureSlot "c" empty_disk three_textures = Done (-1) empty_disk three_textures [] /\
  FindTextureID "c" empty_disk three_textures = Done (-1) empty_disk three_textures [].
Proof.
  assert (textures_in_bounds three_textures) as Hb.
  { apply Z_le_dec_true. reflexivity. }
  split; [exact Hb|].
  destruct (FindTexture_first_match "b" empty_disk three_textures Hb) as [_ Hsome].
  destruct (FindTexture_first_match "c" empty_disk three_textures Hb) as [Hnone _].
  destruct Hsome as (i & e & Hi & _ & Htag & _ & Hslot & Hid & _).
  { right. left. reflexivity. }
  destruct Hnone as [Hid' Hslot'].
  { repeat constructor; discriminate. }
  split; [exists i, e; auto|]. split; assumption.
Defined.


(** C1, as the claim states it, fails in two states in which the mesh
    library is present.  Before the materials are defined the thirteen
    draw calls are made, but [SetShaderMaterial] uploads nothing on an
    empty catalog, so no draw call is preceded by a material upload.
    Without a shader manager (and without materials) the thirteen draw
    calls are made and nothing at all is uploaded. *)
Lemma RenderScene_before_materials_defined :
  (m_basicMeshes unprepared <> NULL /\
   exists t,
     RenderScene empty_disk unprepared = Done tt empty_disk unprepared t /\
     length (List.filter is_draw t) = 13%nat /\
     List.filter is_material_upload t = [] /\
     upload_draw_blocks t = None) /\
  (m_basicMeshes no_shader <> NULL /\
   exists t,
     RenderScene empty_disk no_shader = Done tt empty_disk no_shader t /\
     length (List.filter is_draw t) = 13%nat /\
     List.filter is_upload t = [] /\
     upload_draw_blocks t = None).
Proof.
  split; (split; [discriminate|]); eexists; split.
  - apply RenderScene_without_materials;
      [discriminate|discriminate|reflexivity|apply Z_le_dec_true; reflexivity].
  - split; [|split]; lazy; reflexivity.
  - apply RenderScene_without_shader; [discriminate|reflexivity|reflexivity].
  - split; [|split]; lazy; reflexivity.
Qed.

(** C1, amended.  With the mesh library and the shader manager present, a
    non-empty material catalog and the texture catalog inside its array,
    [RenderScene] leaves the manager unchanged and makes, for each of the
    thirteen draw commands in their order of declaration (two planes, the
    sphere, six cylinders, four boxes), one block of calls: the upload of
    the model matrix, the upload of the material (diffuse colour, specular
    colour, shininess), the upload of the texture (the sampling flag and
    the slot of the texture tag), then the draw call of the mesh. *)
Theorem RenderScene_draw_blocks (w : World) (s : SceneManager) :
  m_basicMeshes s <> NULL -> m_pShaderManager s <> NULL ->
  m_objectMaterials s <> [] -> textures_in_bounds s ->
  RenderScene w s = Done tt w s (concat (map (block_of w s) cmds)) /\
  upload_draw_blocks (concat (map (block_of w s) cmds))
    = Some [Plane; Plane; Sphere; Cylinder; Cylinder; Cylinder; Cylinder;
            Cylinder; Cylinder; Box; Box; Box; Box] /\
  List.filter is_draw (concat (map (block_of w s) cmds))
    = [DrawPlaneMesh; DrawPlaneMesh; DrawSphereMesh; DrawCylinderMesh;
       DrawCylinderMesh; DrawCylinderMesh; DrawCylinderMesh; DrawCylinderMesh;
       DrawCylinderMesh; DrawBoxMesh; DrawBoxMesh; DrawBoxMesh; DrawBoxMesh].
Proof.
  intros Hm Hp Hv Hb. split; [|split].
  - unfold RenderScene. rewrite bind_this.
    destruct (m_basicMeshes s) eqn:Hmesh; [contradiction|]. cbn [is_null].
    apply for_each_calls. intros c.
    apply drawOne_calls; try assumption. rewrite Hmesh. discriminate.
  - rewrite blocks_parse. reflexivity.
  - rewrite blocks_draws. reflexivity.
Qed.

Lemma RenderScene_draw_blocks_witness :
  (m_basicMeshes with_materials <> NULL /\ m_pShaderManager with_materials <> NULL /\
   m_objectMaterials with_materials <> [] /\ textures_in_bounds with_materials) /\
  RenderScene empty_disk with_materials
  = Done tt empty_disk with_materials (concat (map (block_of empty_disk with_materials) cmds)).
Proof.
  assert (m_basicMeshes with_materials <> NULL) as Hm by discriminate.
  assert (m_pShaderManager with_materials <> NULL) as Hp by discriminate.
  assert (m_objectMaterials with_materials <> []) as Hv by discriminate.
  assert (textures_in_bounds with_materials) as Hb.
  { apply Z_le_dec_true. reflexivity. }
  split; [auto|].
  exact (proj1 (RenderScene_draw_blocks empty_disk with_materials Hm Hp Hv Hb)).
Defined.

(** C10. Whatever an operation returns, the catalogs differ from what they
    were only as [catalog_change] allows: [CreateGLTexture] leaves the
    materials and either leaves the manager or appends one entry to the
    texture catalog; [DestroyGLTextures] leaves the materials, the count
    and every tag; [DefineObjectMaterials] leaves the array and the count
    and appends its six materials; [LoadSceneTextures] and [PrepareScene],
    which call them, extend the texture catalog at its end (and
    [PrepareScene] appends the six materials); every other operation
    ([BindGLTextures], the three lookups, the five uploads,
    [SetupSceneLights], [RenderScene]) leaves the manager as it was.  And
    inside its precondition [ready] every operation does return. *)
Theorem catalogs_append_only (o : operation) (w : World) (s : SceneManager) :
  (forall w' s' t, run o w s = Done tt w' s' t -> catalog_change o s s') /\
  (ready o s -> exists w' s' t, run o w s = Done tt w' s' t).
Proof.
  split.
  - intros w' s' t. apply run_frame.
  - apply run_completes.
Qed.

Lemma catalogs_append_only_witness :
  exists w' s' t,
    run op_PrepareScene rgb_disk unprepared = Done tt w' s' t /\
    m_objectMaterials s' = scene_materials /\
    catalog unprepared `prefix_of` catalog s'.
Proof.
  destruct (catalogs_append_only op_PrepareScene rgb_disk unprepared) as [Hframe Hdone].
  destruct Hdone as (w' & s' & t & H).
  - simpl. repeat split; try discriminate; lia.
  - exists w', s', t. split; [exact H|]. exact (Hframe w' s' t H).
Defined.

(** * Further properties *)

(** ** Registering and looking up *)

Lemma catalog_length s :
  textures_in_bounds s ->
  length (catalog s) = Z.to_nat (m_loadedTextures s).
Proof.
  unfold textures_in_bounds, catalog. intros Hb. rewrite length_take. lia.
Qed.

Lemma lookups_of_find tag w s i e :
  textures_in_bounds s ->
  list_find (has_texture_tag tag) (catalog s) = Some (i, e) ->
  FindTextureSlot tag w s = Done (Z.of_nat i) w s [] /\
  FindTextureID tag w s = Done (int_of_GLuint (TEXTURE_INFO.ID e)) w s [].
Proof.
  intros Hb Hf. rewrite FindTextureSlot_spec, FindTextureID_spec by assumption.
  unfold first_slot. rewrite Hf. auto.
Qed.

Lemma lookups_of_none tag w s :
  textures_in_bounds s ->
  list_find (has_texture_tag tag) (catalog s) = None ->
  FindTextureSlot tag w s = Done (-1) w s [] /\
  FindTextureID tag w s = Done (-1) w s [].
Proof.
  intros Hb Hf. rewrite FindTextureSlot_spec, FindTextureID_spec by assumption.
  unfold first_slot. rewrite Hf. auto.
Qed.

Lemma find_present tag (l : list TEXTURE_INFO.t) :
  Exists (fun e => TEXTURE_INFO.tag e = tag) l ->
  exists i e, list_find (has_texture_tag tag) l = Some (i, e).
Proof.
  intros Hex. destruct (list_find (has_texture_tag tag) l) as [[i e]|] eqn:Hf; [eauto|].
  apply list_find_None in Hf. apply Forall_Exists_neg in Hf. contradiction.
Qed.

Lemma registered_in_bounds name tag s :
  0 <= m_loadedTextures s < Z.of_nat (length (m_textureIDs s)) ->
  textures_in_bounds (registered name tag s).
Proof.
  intros Hb. unfold textures_in_bounds.
  destruct (registered_fields name tag s) as (_ & _ & _ & -> & ->). lia.
Qed.

Lemma CreateGLTexture_no_room filename tag img w s :
  files w filename = Some img ->
  colorChannels img = 3 \/ colorChannels img = 4 ->
  ~ (0 <= m_loadedTextures s < Z.of_nat (length (m_textureIDs s))) ->
  CreateGLTexture filename tag w s = Undefined out_of_bounds.
Proof.
  intros Hf Hc Hb. unfold CreateGLTexture.
  rewrite bind_emit, bind_load_image, Hf, bind_emit, bind_gen_texture.
  rewrite !bind_emit.
  assert (forall f (k : unit -> M bool) w0,
            bind (texture_update (m_loadedTextures s) f) k w0 s
            = Undefined out_of_bounds) as Hu.
  { intros f k w0. apply bind_Undefined. unfold texture_update.
    apply bind_Undefined. apply texture_at_outside. assumption. }
  assert ((colorChannels img =? 3) = true \/
          ((colorChannels img =? 3) = false /\ (colorChannels img =? 4) = true))
    as Hcase.
  { destruct Hc as [Hc | Hc]; rewrite Hc; [left|right]; auto. }
  destruct Hcase as [-> | [-> ->]];
    rewrite !bind_emit, bind_this, Hu; reflexivity.
Qed.

(** X1. Register, then look up.  After a successful [CreateGLTexture] under
    a tag that no catalog entry carried, [FindTextureSlot] of that tag
    returns the index the texture was stored at (the former count) and
    [FindTextureID] returns the handle the driver generated for it,
    converted to [int] (the handle itself when it is below 2^31). *)
Theorem CreateGLTexture_then_find (filename tag : string) (img : Image)
    (w : World) (s : SceneManager) :
  files w filename = Some img ->
  colorChannels img = 3 \/ colorChannels img = 4 ->
  0 <= m_loadedTextures s < Z.of_nat (length (m_textureIDs s)) ->
  Forall (fun e => TEXTURE_INFO.tag e <> tag) (catalog s) ->
  exists w' s' t,
    CreateGLTexture filename tag w s = Done true w' s' t /\
    FindTextureSlot tag w' s' = Done (m_loadedTextures s) w' s' [] /\
    FindTextureID tag w' s' = Done (int_of_GLuint (next_name w 0)) w' s' [] /\
    (next_name w 0 < 2 ^ 31 ->
     FindTextureID tag w' s' = Done (next_name w 0) w' s' []).
Proof.
  intros Hf Hc Hb Hnew.
  exists (advance 1 w), (registered (next_name w 0) tag s). eexists.
  split; [apply (CreateGLTexture_registers _ _ _ _ _ Hf Hc Hb)|].
  assert (textures_in_bounds (registered (next_name w 0) tag s)) as Hb'
    by (apply registered_in_bounds; assumption).
  assert (list_find (has_texture_tag tag) (catalog (registered (next_name w 0) tag s))
          = Some (Z.to_nat (m_loadedTextures s), TEXTURE_INFO.mk (next_name w 0) tag))
    as Hfind.
  { rewrite catalog_registered by assumption. apply list_find_Some.
    assert (length (catalog s) = Z.to_nat (m_loadedTextures s)) as Hlen
      by (apply catalog_length; unfold textures_in_bounds; lia).
    split; [|split].
    - rewrite lookup_app_r by lia. rewrite Hlen, Nat.sub_diag. reflexivity.
    - reflexivity.
    - intros j y Hj Hlt. rewrite lookup_app_l in Hj by lia.
      rewrite Forall_forall in Hnew. apply Hnew.
      eapply list_elem_of_lookup_2. eassumption. }
  destruct (lookups_of_find tag (advance 1 w) _ _ _ Hb' Hfind) as [Hslot Hid].
  rewrite Z2Nat.id in Hslot by lia. simpl in Hid.
  split; [exact Hslot|]. split; [exact Hid|].
  intros Hsmall. rewrite Hid. rewrite int_of_GLuint_small; [reflexivity|].
  pose proof (GLuint_wrap_range (texture_names w (generated w + 0)%nat)).
  unfold next_name in *. lia.
Qed.

Lemma CreateGLTexture_then_find_witness :
  exists w' s' t,
    CreateGLTexture "textures/jar.png" "jar" rgb_disk three_textures
      = Done true w' s' t /\
    FindTextureSlot "jar" w' s' = Done 3 w' s' [] /\
    FindTextureID "jar" w' s' = Done 1 w' s' [].
Proof.
  destruct (CreateGLTexture_then_find "textures/jar.png" "jar" (mkImage 64 64 3)
              rgb_disk three_textures)
    as (w' & s' & t & H1 & H2 & H3 & _).
  - reflexivity.
  - left. reflexivity.
  - simpl. lia.
  - repeat constructor; discriminate.
  - exists w', s', t. auto.
Defined.

(** X2. The first entry of a tag wins.  Whatever [CreateGLTexture] does and
    under whatever tag, a tag that some catalog entry carried before the
    call is looked up to the same slot and the same handle after it; in
    particular a texture registered under a tag already in use is never
    found by the lookups. *)
Theorem CreateGLTexture_keeps_lookups (filename tag tag' : string)
    (w w' : World) (s s' : SceneManager) (r : bool) (t : list event) :
  textures_in_bounds s ->
  CreateGLTexture filename tag w s = Done r w' s' t ->
  Exists (fun e => TEXTURE_INFO.tag e = tag') (catalog s) ->
  exists slot id,
    0 <= slot < m_loadedTextures s /\
    FindTextureSlot tag' w s = Done slot w s [] /\
    FindTextureSlot tag' w' s' = Done slot w' s' [] /\
    FindTextureID tag' w s = Done id w s [] /\
    FindTextureID tag' w' s' = Done id w' s' [].
Proof.
  intros Hb H Hex.
  destruct (find_present tag' _ Hex) as (i & e & Hfind).
  destruct (lookups_of_find tag' w s i e Hb Hfind) as [Hslot Hid].
  exists (Z.of_nat i), (int_of_GLuint (TEXTURE_INFO.ID e)).
  assert (0 <= Z.of_nat i < m_loadedTextures s) as Hrange.
  { pose proof Hfind as Hf. apply list_find_Some in Hf as (Hi & _ & _).
    unfold catalog in Hi. apply lookup_take_Some in Hi as [_ Hi]. lia. }
  split; [exact Hrange|]. split; [exact Hslot|].
  apply CreateGLTexture_frame in H as [[_ ->] | (_ & Hroom & ->)].
  - destruct (lookups_of_find tag' w' s i e Hb Hfind) as [Hslot' Hid']. auto.
  - assert (list_find (has_texture_tag tag')
              (catalog (registered (next_name w 0) tag s)) = Some (i, e)) as Hfind'.
    { rewrite catalog_registered by assumption. apply list_find_app_l. exact Hfind. }
    destruct (lookups_of_find tag' w' _ i e
                (registered_in_bounds _ _ _ Hroom) Hfind') as [Hslot' Hid'].
    auto.
Qed.

Lemma CreateGLTexture_keeps_lookups_witness :
  exists w' s' t slot id,
    CreateGLTexture "textures/jar.png" "b" rgb_disk three_textures
      = Done true w' s' t /\
    m_loadedTextures s' = 4 /\
    FindTextureSlot "b" rgb_disk three_textures = Done slot rgb_disk three_textures [] /\
    FindTextureSlot "b" w' s' = Done slot w' s' [] /\
    FindTextureID "b" w' s' = Done id w' s' [].
Proof.
  assert (textures_in_bounds three_textures) as Hb.
  { apply Z_le_dec_true. reflexivity. }
  assert (0 <= m_loadedTextures three_textures
          < Z.of_nat (length (m_textureIDs three_textures))) as Hroom.
  { simpl. lia. }
  pose proof (CreateGLTexture_registers "textures/jar.png" "b" (mkImage 64 64 3)
                rgb_disk three_textures eq_refl (or_introl eq_refl) Hroom) as H.
  destruct (CreateGLTexture_keeps_lookups _ _ "b" _ _ _ _ _ _ Hb H)
    as (slot & id & _ & H1 & H2 & _ & H3).
  { right. left. reflexivity. }
  eexists _, _, _, slot, id. split; [exact H|]. split; [reflexivity|]. auto.
Defined.

(** X3. What the results of the lookups mean.  For a catalog inside the
    array, [FindTextureSlot] returns -1 exactly when no catalog entry
    carries the tag, and otherwise an index below the count at which an
    element with the tag is stored.  [FindTextureID] gives no such
    guarantee: when the handle of the first entry of the tag is 2^32 - 1
    it returns -1 although the tag is registered. *)
Theorem FindTextureSlot_range (tag : string) (w : World) (s : SceneManager) :
  textures_in_bounds s ->
  exists slot,
    FindTextureSlot tag w s = Done slot w s [] /\
    (slot = -1 <-> Forall (fun e => TEXTURE_INFO.tag e <> tag) (catalog s)) /\
    (slot <> -1 ->
     0 <= slot < m_loadedTextures s /\
     exists e, m_textureIDs s !! Z.to_nat slot = Some e /\ TEXTURE_INFO.tag e = tag) /\
    (forall e, m_textureIDs s !! Z.to_nat slot = Some e -> slot <> -1 ->
               TEXTURE_INFO.ID e = 2 ^ 32 - 1 ->
               FindTextureID tag w s = Done (-1) w s []).
Proof.
  intros Hb.
  destruct (list_find (has_texture_tag tag) (catalog s)) as [[i e]|] eqn:Hfind.
  - destruct (lookups_of_find tag w s i e Hb Hfind) as [Hslot Hid].
    pose proof Hfind as Hf. apply list_find_Some in Hf as (Hi & Htag & _).
    unfold catalog in Hi. apply lookup_take_Some in Hi as [Hi Hlt].
    exists (Z.of_nat i). rewrite Nat2Z.id.
    split; [exact Hslot|]. split; [|split].
    + split; [lia|]. intros Hnone.
      apply (list_find_None (has_texture_tag tag)) in Hnone. congruence.
    + intros _. split; [lia|]. exists e. auto.
    + intros e' He' _ Hones. rewrite Hid.
      assert (e' = e) as -> by congruence. rewrite Hones. reflexivity.
  - destruct (lookups_of_none tag w s Hb Hfind) as [Hslot Hid].
    exists (-1). split; [exact Hslot|]. split; [|split].
    + split; [|reflexivity]. intros _. apply list_find_None in Hfind. exact Hfind.
    + intros Hne. contradiction.
    + intros e _ Hne. contradiction.
Qed.

Lemma FindTextureSlot_range_witness :
  textures_in_bounds three_textures /\
  exists slot,
    FindTextureSlot "b" empty_disk three_textures
      = Done slot empty_disk three_textures [] /\
    (slot <> -1 -> 0 <= slot < 3).
Proof.
  assert (textures_in_bounds three_textures) as Hb.
  { apply Z_le_dec_true. reflexivity. }
  split; [exact Hb|].
  destruct (FindTextureSlot_range "b" empty_disk three_textures Hb)
    as (slot & H1 & _ & H2 & _).
  exists slot. split; [exact H1|]. intros Hne. exact (proj1 (H2 Hne)).
Defined.

(** X4. The array is not guarded.  When every element is in use (or the
    count is negative) and the file decodes to an image of 3 or 4
    channels, [CreateGLTexture] writes outside [m_textureIDs]: undefined
    behaviour.  A file that fails to load is still rejected safely in
    that state. *)
Theorem CreateGLTexture_overflow (filename tag : string) (w : World) (s : SceneManager) :
  ~ (0 <= m_loadedTextures s < Z.of_nat (length (m_textureIDs s))) ->
  (forall img, files w filename = Some img ->
     colorChannels img = 3 \/ colorChannels img = 4 ->
     CreateGLTexture filename tag w s = Undefined out_of_bounds) /\
  (files w filename = None ->
   exists t, CreateGLTexture filename tag w s = Done false w s t) /\
  (forall img, files w filename = Some img ->
     colorChannels img <> 3 -> colorChannels img <> 4 ->
     exists w' t, CreateGLTexture filename tag w s = Done false w' s t).
Proof.
  intros Hfull. split; [|split].
  - intros img Hf Hc. apply (CreateGLTexture_no_room _ _ _ _ _ Hf Hc Hfull).
  - intros Hf. eexists. apply CreateGLTexture_missing. assumption.
  - intros img Hf H3 H4. eexists _, _.
    apply (CreateGLTexture_unsupported _ _ _ _ _ Hf H3 H4).
Qed.

Lemma CreateGLTexture_overflow_witness :
  ~ (0 <= m_loadedTextures full_array < Z.of_nat (length (m_textureIDs full_array))) /\
  CreateGLTexture "textures/jar.png" "jar" rgb_disk full_array
  = Undefined out_of_bounds.
Proof.
  assert (~ (0 <= m_loadedTextures full_array
             < Z.of_nat (length (m_textureIDs full_array)))) as Hfull.
  { simpl. lia. }
  split; [exact Hfull|].
  apply (proj1 (CreateGLTexture_overflow "textures/jar.png" "jar" rgb_disk full_array Hfull)
           (mkImage 64 64 3)); [reflexivity|left; reflexivity].
Defined.

(** ** Overflow, regeneration, leaks *)

Lemma load_loop_overflow (l : list (string * string)) w s :
  Forall (fun p => loadable w p.1) l ->
  0 <= m_loadedTextures s <= Z.of_nat (length (m_textureIDs s)) ->
  Z.of_nat (length (m_textureIDs s)) < m_loadedTextures s + Z.of_nat (length l) ->
  for_each l (fun p => discard (CreateGLTexture p.1 p.2)) w s
  = Undefined out_of_bounds.
Proof.
  revert w s. induction l as [|[filename tag] l IH]; intros w s Hl Hb Hover.
  - simpl in Hover. lia.
  - simpl length in Hover. inversion Hl as [|? ? (img & Hf & Hc) Hl']; subst.
    simpl in Hf. cbn [for_each].
    destruct (Z.lt_ge_cases (m_loadedTextures s) (Z.of_nat (length (m_textureIDs s))))
      as [Hroom|Hfull].
    + destruct (registered_fields (next_name w 0) tag s) as (_ & _ & _ & Hn & Hlen).
      unfold discard at 1. rewrite bind_assoc.
      rewrite (bind_Done _ _ _ _ _ _ _ _
                 (CreateGLTexture_registers filename tag img w s Hf Hc ltac:(lia))).
      rewrite bind_ret, IH; [reflexivity|assumption|lia|lia].
    + apply bind_Undefined. unfold discard. apply bind_Undefined.
      apply (CreateGLTexture_no_room _ _ _ _ _ Hf Hc). lia.
Qed.

(** X5. Loading the scene twice overflows the array.  When all eleven
    files load and fewer than eleven elements of [m_textureIDs] are free
    (as on a second [PrepareScene] with the sixteen elements of the
    program), [LoadSceneTextures], and with it [PrepareScene], writes
    outside the array: undefined behaviour. *)
Theorem LoadSceneTextures_overflow (w : World) (s : SceneManager) :
  Forall (fun p => loadable w p.1) scene_textures ->
  0 <= m_loadedTextures s <= Z.of_nat (length (m_textureIDs s)) ->
  Z.of_nat (length (m_textureIDs s)) < m_loadedTextures s + 11 ->
  LoadSceneTextures w s = Undefined out_of_bounds /\
  PrepareScene w s = Undefined out_of_bounds.
Proof.
  intros Hl Hb Hover.
  assert (LoadSceneTextures w s = Undefined out_of_bounds) as H.
  { rewrite LoadSceneTextures_as_loop. apply bind_Undefined.
    apply load_loop_overflow; assumption. }
  split; [exact H|]. unfold PrepareScene. apply bind_Undefined. exact H.
Qed.

Lemma LoadSceneTextures_overflow_witness :
  m_loadedTextures (prepared rgb_disk unprepared) = 11 /\
  length (m_textureIDs (prepared rgb_disk unprepared)) = 16%nat /\
  PrepareScene (advance 11 rgb_disk) (prepared rgb_disk unprepared)
  = Undefined out_of_bounds.
Proof.
  split; [reflexivity|]. split; [reflexivity|].
  apply (LoadSceneTextures_overflow (advance 11 rgb_disk) (prepared rgb_disk unprepared)).
  - repeat constructor; exists (mkImage 64 64 3); split; auto.
  - split; [apply Z.leb_le|apply Z.leb_le]; reflexivity.
  - apply Z.ltb_lt. reflexivity.
Defined.

Lemma catalog_regenerated_lookup w s (i : nat) :
  catalog (set_textureIDs
             (regenerated w 0 (Z.to_nat (m_loadedTextures s)) (m_textureIDs s)) s) !! i
  = (fun e => TEXTURE_INFO.mk (next_name w i) (TEXTURE_INFO.tag e)) <$> catalog s !! i.
Proof.
  unfold catalog. cbn [m_loadedTextures m_textureIDs set_textureIDs].
  rewrite !lookup_take. case_decide; [|reflexivity].
  unfold regenerated. rewrite list_lookup_imap.
  destruct (m_textureIDs s !! i); [|reflexivity]. simpl.
  case_decide; [|lia]. rewrite Nat.sub_0_r. reflexivity.
Qed.

Lemma find_regenerated tag w s :
  list_find (has_texture_tag tag)
    (catalog (set_textureIDs
                (regenerated w 0 (Z.to_nat (m_loadedTextures s)) (m_textureIDs s)) s))
  = match list_find (has_texture_tag tag) (catalog s) with
    | Some (i, e) => Some (i, TEXTURE_INFO.mk (next_name w i) (TEXTURE_INFO.tag e))
    | None => None
    end.
Proof.
  destruct (list_find (has_texture_tag tag) (catalog s)) as [[i e]|] eqn:Hfind.
  - apply list_find_Some in Hfind as (Hi & Htag & Hfirst).
    apply list_find_Some. split; [|split].
    + rewrite catalog_regenerated_lookup, Hi. reflexivity.
    + exact Htag.
    + intros j y Hj Hlt. rewrite catalog_regenerated_lookup in Hj.
      destruct (catalog s !! j) as [y0|] eqn:Hj0; [|discriminate].
      injection Hj as <-. apply (Hfirst j y0 Hj0 Hlt).
  - apply list_find_None. apply list_find_None in Hfind.
    apply Forall_lookup. intros j y Hj. rewrite catalog_regenerated_lookup in Hj.
    destruct (catalog s !! j) as [y0|] eqn:Hj0; [|discriminate].
    injection Hj as <-. rewrite Forall_lookup in Hfind. apply (Hfind j y0 Hj0).
Qed.

(** X9. Lookups after [DestroyGLTextures].  For a catalog inside the
    array, [DestroyGLTextures] completes and the catalog stays searchable:
    every tag is looked up to the slot it had, and [FindTextureID] of a
    registered tag now returns the name generated for that slot (converted
    to [int]), not the handle that was stored before. *)
Theorem DestroyGLTextures_then_lookups (tag : string) (w : World) (s : SceneManager) :
  textures_in_bounds s ->
  exists w' s' t slot,
    DestroyGLTextures w s = Done tt w' s' t /\
    FindTextureSlot tag w s = Done slot w s [] /\
    FindTextureSlot tag w' s' = Done slot w' s' [] /\
    (slot <> -1 ->
     FindTextureID tag w' s'
     = Done (int_of_GLuint (next_name w (Z.to_nat slot))) w' s' []) /\
    (slot = -1 -> FindTextureID tag w' s' = Done (-1) w' s' []).
Proof.
  intros Hb. eexists _, _, _.
  pose proof (DestroyGLTextures_result w s Hb) as Hd. cbv zeta in Hd.
  set (s' := set_textureIDs _ s) in Hd.
  assert (textures_in_bounds s') as Hb'.
  { unfold textures_in_bounds, s'. cbn [m_loadedTextures m_textureIDs set_textureIDs].
    unfold regenerated. rewrite length_imap. exact Hb. }
  pose proof (find_regenerated tag w s) as Hfind. fold s' in Hfind.
  destruct (list_find (has_texture_tag tag) (catalog s)) as [[i e]|] eqn:Hf.
  - destruct (lookups_of_find tag w s i e Hb Hf) as [H1 _].
    destruct (lookups_of_find tag (advance (Z.to_nat (m_loadedTextures s)) w) s' _ _
                Hb' Hfind) as [H2 H3].
    exists (Z.of_nat i). rewrite Nat2Z.id.
    split; [exact Hd|]. split; [exact H1|]. split; [exact H2|].
    split; [intros _; exact H3|lia].
  - destruct (lookups_of_none tag w s Hb Hf) as [H1 _].
    destruct (lookups_of_none tag (advance (Z.to_nat (m_loadedTextures s)) w) s'
                Hb' Hfind) as [H2 H3].
    exists (-1). split; [exact Hd|]. split; [exact H1|]. split; [exact H2|].
    split; [intros Hne; contradiction|intros _; exact H3].
Qed.

Lemma DestroyGLTextures_then_lookups_witness :
  textures_in_bounds three_textures /\
  exists w' s' t slot,
    DestroyGLTextures empty_disk three_textures = Done tt w' s' t /\
    FindTextureSlot "b" empty_disk three_textures
      = Done slot empty_disk three_textures [] /\
    FindTextureSlot "b" w' s' = Done slot w' s' [].
Proof.
  assert (textures_in_bounds three_textures) as Hb.
  { apply Z_le_dec_true. reflexivity. }
  split; [exact Hb|].
  destruct (DestroyGLTextures_then_lookups "b" empty_disk three_textures Hb)
    as (w' & s' & t & slot & H1 & H2 & H3 & _).
  exists w', s', t, slot. auto.
Defined.

(** X10. What each path of [CreateGLTexture] leaves behind.  A file that
    does not decode causes no OpenGL call and consumes no texture name.
    An image of another channel count than 3 or 4 has by then cost one
    generated name, which is registered nowhere: the early return skips
    [stbi_image_free] and the unbinding, so the last [glBindTexture] of the
    call is the one of the new name.  On success the image is freed and the
    call ends by unbinding the texture. *)
Theorem CreateGLTexture_paths (filename tag : string) (w : World) (s : SceneManager) :
  (files w filename = None ->
   exists t, CreateGLTexture filename tag w s = Done false w s t /\
             t = [stbi_set_flip_vertically_on_load true; stbi_load filename;
                  cout (Could_not_load_image filename)]) /\
  (forall img, files w filename = Some img ->
     colorChannels img <> 3 -> colorChannels img <> 4 ->
     exists t t1 t2,
       CreateGLTexture filename tag w s = Done false (advance 1 w) s t /\
       In (glGenTextures 1 (next_name w 0)) t /\
       ~ In stbi_image_free t /\
       t = (t1 ++ glBindTexture GL_TEXTURE_2D (next_name w 0) :: t2)%list /\
       List.forallb (fun e => negb (is_bind e)) t2 = true) /\
  (forall img, files w filename = Some img ->
     colorChannels img = 3 \/ colorChannels img = 4 ->
     0 <= m_loadedTextures s < Z.of_nat (length (m_textureIDs s)) ->
     exists s' t,
       CreateGLTexture filename tag w s = Done true (advance 1 w) s' t /\
       In stbi_image_free t /\
       last t = Some (glBindTexture GL_TEXTURE_2D 0)).
Proof.
  split; [|split].
  - intros Hf. eexists. split; [apply CreateGLTexture_missing; assumption|reflexivity].
  - intros img Hf H3 H4.
    eexists _, [_; _; _; _], _.
    split; [apply (CreateGLTexture_unsupported _ _ _ _ _ Hf H3 H4)|].
    split; [|split; [|split]].
    + simpl. auto 10.
    + simpl. intros H. repeat (destruct H as [H|H]; [discriminate|]). exact H.
    + reflexivity.
    + reflexivity.
  - intros img Hf Hc Hb. eexists _, _.
    split; [apply (CreateGLTexture_registers _ _ _ _ _ Hf Hc Hb)|].
    split.
    + unfold upload_calls. apply in_or_app. right. simpl. auto.
    + unfold decode_calls, upload_calls. reflexivity.
Qed.

Lemma CreateGLTexture_paths_witness :
  exists t t1 t2,
    CreateGLTexture "textures/grey.png" "grey"
      (mkWorld (fun _ => Some (mkImage 8 8 1)) (fun n => Z.of_nat n + 1) 0
               (mk_vec3 0 0 0, mk_vec3 0 0 0, 0%R)) unprepared
    = Done false
        (advance 1 (mkWorld (fun _ => Some (mkImage 8 8 1)) (fun n => Z.of_nat n + 1) 0
                            (mk_vec3 0 0 0, mk_vec3 0 0 0, 0%R))) unprepared t /\
    ~ In stbi_image_free t /\
    t = (t1 ++ glBindTexture GL_TEXTURE_2D 1 :: t2)%list.
Proof.
  destruct (CreateGLTexture_paths "textures/grey.png" "grey"
              (mkWorld (fun _ => Some (mkImage 8 8 1)) (fun n => Z.of_nat n + 1) 0
                       (mk_vec3 0 0 0, mk_vec3 0 0 0, 0%R)) unprepared)
    as (_ & H & _).
  destruct (H (mkImage 8 8 1)) as (t & t1 & t2 & H1 & _ & H2 & H3 & _).
  - reflexivity.
  - discriminate.
  - discriminate.
  - exists t, t1, t2. auto.
Defined.

(** X12. The slot of a tag is the unit its texture is bound to.  For a
    catalog inside the array and a registered tag, the index returned by
    [FindTextureSlot] (the one [SetShaderTexture] uploads for the sampler)
    is the texture unit that [BindGLTextures] selects immediately before
    binding the handle of the first entry of that tag.  [FindTextureID]
    returns this handle converted to [int]: the handle itself when it is
    below 2^31, the handle minus 2^32 from 2^31 on, so that the value it
    returns and the handle that is bound differ for these handles. *)
Theorem slot_is_bound_unit (tag : string) (w : World) (s : SceneManager) :
  textures_in_bounds s ->
  Exists (fun e => TEXTURE_INFO.tag e = tag) (catalog s) ->
  exists (i : nat) e calls,
    FindTextureSlot tag w s = Done (Z.of_nat i) w s [] /\
    FindTextureID tag w s = Done (int_of_GLuint (TEXTURE_INFO.ID e)) w s [] /\
    TEXTURE_INFO.tag e = tag /\
    BindGLTextures w s = Done tt w s calls /\
    calls !! (2 * i)%nat = Some (glActiveTexture (Z.of_nat i)) /\
    calls !! (2 * i + 1)%nat = Some (glBindTexture GL_TEXTURE_2D (TEXTURE_INFO.ID e)) /\
    (0 <= TEXTURE_INFO.ID e < 2 ^ 31 ->
     FindTextureID tag w s = Done (TEXTURE_INFO.ID e) w s []) /\
    (2 ^ 31 <= TEXTURE_INFO.ID e < 2 ^ 32 ->
     FindTextureID tag w s = Done (TEXTURE_INFO.ID e - 2 ^ 32) w s [] /\
     TEXTURE_INFO.ID e - 2 ^ 32 <> TEXTURE_INFO.ID e).
Proof.
  intros Hb Hex.
  destruct (find_present tag _ Hex) as (i & e & Hfind).
  destruct (lookups_of_find tag w s i e Hb Hfind) as [Hslot Hid].
  apply list_find_Some in Hfind as (Hi & Htag & _).
  destruct (bind_calls_lookup _ _ _ Hi) as [H1 H2].
  exists i, e, (bind_calls (catalog s)).
  split; [exact Hslot|]. split; [exact Hid|]. split; [exact Htag|].
  split; [apply BindGLTextures_calls; assumption|].
  split; [exact H1|]. split; [exact H2|]. split.
  - intros Hsmall. rewrite Hid, int_of_GLuint_small by assumption. reflexivity.
  - intros Hlarge. rewrite Hid, int_of_GLuint_large by assumption.
    split; [reflexivity|lia].
Qed.

Lemma slot_is_bound_unit_witness :
  textures_in_bounds three_textures /\
  exists (i : nat) e calls,
    FindTextureSlot "b" empty_disk three_textures
      = Done (Z.of_nat i) empty_disk three_textures [] /\
    BindGLTextures empty_disk three_textures = Done tt empty_disk three_textures calls /\
    calls !! (2 * i + 1)%nat = Some (glBindTexture GL_TEXTURE_2D (TEXTURE_INFO.ID e)).
Proof.
  assert (textures_in_bounds three_textures) as Hb.
  { apply Z_le_dec_true. reflexivity. }
  split; [exact Hb|].
  destruct (slot_is_bound_unit "b" empty_disk three_textures Hb)
    as (i & e & calls & H1 & _ & _ & H2 & _ & H3 & _).
  { right. left. reflexivity. }
  exists i, e, calls. auto.
Defined.

(** ** What every operation keeps *)

Lemma keeps_for_each {A} R (l : list A) body :
  (forall s, R s s) -> (forall s1 s2 s3, R s1 s2 -> R s2 s3 -> R s1 s3) ->
  (forall c, keeps R (body c)) -> keeps R (for_each l body).
Proof.
  intros Hrefl Htrans Hb. induction l as [|c l IH]; simpl.
  - apply keeps_readonly; auto with readonly.
  - apply keeps_bind; auto.
Qed.

Lemma fixed_refl s : fixed s s.
Proof. unfold fixed. split; [|split; [|split; [|split]]]; auto; lia. Qed.

Lemma fixed_trans s1 s2 s3 : fixed s1 s2 -> fixed s2 s3 -> fixed s1 s3.
Proof.
  unfold fixed. intros (Hp & Hm & Hl & Hn & Hv) (Hp' & Hm' & Hl' & Hn' & Hv').
  split; [|split; [|split; [|split]]]; try congruence; try lia; auto.
Qed.

Lemma keeps_fixed_readonly {A} (c : M A) : readonly c -> keeps fixed c.
Proof. apply keeps_readonly. apply fixed_refl. Qed.

Lemma keeps_fixed_texture_update i f : keeps fixed (texture_update i f).
Proof.
  intros w s a w' s' t H. unfold texture_update in H.
  apply bind_inv in H as (e & w1 & s1 & t1 & t2 & H1 & H2 & _).
  apply readonly_texture_at in H1 as [-> ->].
  unfold modify in H2. inversion H2; subst; clear H2.
  unfold fixed, valid, set_textureIDs.
  cbn [m_pShaderManager m_basicMeshes m_textureIDs m_loadedTextures].
  rewrite length_insert. repeat split; auto; lia.
Qed.

Lemma keeps_fixed_CreateGLTexture filename tag : keeps fixed (CreateGLTexture filename tag).
Proof.
  intros w s r w' s' t H.
  apply CreateGLTexture_frame in H as [[_ ->] | (_ & Hb & ->)]; [apply fixed_refl|].
  destruct (registered_fields (next_name w 0) tag s) as (Hp & Hm & _ & Hn & Hl).
  unfold fixed, valid. rewrite Hp, Hm, Hn, Hl. repeat split; lia.
Qed.

Lemma keeps_fixed_DestroyGLTextures : keeps fixed DestroyGLTextures.
Proof.
  unfold DestroyGLTextures.
  apply keeps_bind; [apply fixed_trans| |intros s0].
  - apply keeps_fixed_readonly. auto with readonly.
  - apply keeps_for_range; [apply fixed_refl|apply fixed_trans|intros j].
    apply keeps_bind; [apply fixed_trans| |intros name].
    + intros w s a w' s' t H. apply readonly_gen_texture_state in H as ->.
      apply fixed_refl.
    + apply keeps_fixed_texture_update.
Qed.

Lemma keeps_fixed_LoadSceneTextures : keeps fixed LoadSceneTextures.
Proof.
  unfold LoadSceneTextures.
  repeat (apply keeps_bind;
          [apply fixed_trans|apply keeps_fixed_CreateGLTexture|intros _]).
  apply keeps_fixed_readonly. apply readonly_BindGLTextures.
Qed.

Lemma keeps_fixed_DefineObjectMaterials : keeps fixed DefineObjectMaterials.
Proof.
  intros w s a w' s' t H. rewrite DefineObjectMaterials_result in H.
  inversion H; subst. unfold fixed, valid, set_objectMaterials.
  cbn [m_pShaderManager m_basicMeshes m_textureIDs m_loadedTextures].
  repeat split; auto; lia.
Qed.

Lemma keeps_fixed_PrepareScene : keeps fixed PrepareScene.
Proof.
  unfold PrepareScene.
  apply keeps_bind; [apply fixed_trans|apply keeps_fixed_LoadSceneTextures|intros _].
  apply keeps_bind; [apply fixed_trans|apply keeps_fixed_DefineObjectMaterials|intros _].
  apply keeps_fixed_readonly. auto 10 with readonly.
Qed.

Lemma keeps_fixed_discard {A} (c : M A) : keeps fixed c -> keeps fixed (discard c).
Proof.
  intros Hc. unfold discard.
  apply keeps_bind; [apply fixed_trans|exact Hc|intros a].
  apply keeps_fixed_readonly. auto with readonly.
Qed.

Lemma keeps_fixed_run o : keeps fixed (run o).
Proof.
  destruct o; cbn [run];
    try (apply keeps_fixed_discard);
    try (apply keeps_fixed_readonly; auto with readonly; fail).
  - apply keeps_fixed_CreateGLTexture.
  - apply keeps_fixed_DestroyGLTextures.
  - apply keeps_fixed_LoadSceneTextures.
  - apply keeps_fixed_DefineObjectMaterials.
  - apply keeps_fixed_PrepareScene.
  - apply keeps_fixed_readonly. apply readonly_RenderScene.
Qed.

(** X11. The invariant of the manager.  Whatever sequence of public
    operations is called, if it runs to its end then the shader pointer,
    the mesh pointer and the capacity of [m_textureIDs] are what they were,
    the count of loaded textures has not decreased, and a count that was
    inside the array is still inside it. *)
Theorem operations_keep_the_manager_valid (ops : list operation)
    (w w' : World) (s s' : SceneManager) (t : list event) :
  run_all ops w s = Done tt w' s' t ->
  m_pShaderManager s' = m_pShaderManager s /\
  m_basicMeshes s' = m_basicMeshes s /\
  length (m_textureIDs s') = length (m_textureIDs s) /\
  m_loadedTextures s <= m_loadedTextures s' /\
  (0 <= m_loadedTextures s <= Z.of_nat (length (m_textureIDs s)) ->
   0 <= m_loadedTextures s' <= Z.of_nat (length (m_textureIDs s'))).
Proof.
  intros H.
  assert (keeps fixed (run_all ops)) as Hk.
  { unfold run_all. apply keeps_for_each;
      [apply fixed_refl|apply fixed_trans|apply keeps_fixed_run]. }
  apply Hk in H. exact H.
Qed.

Lemma operations_keep_the_manager_valid_witness :
  match run_all [op_LoadSceneTextures; op_DestroyGLTextures; op_DefineObjectMaterials;
                 op_CreateGLTexture "textures/more.png" "more"]
                rgb_disk unprepared with
  | Done _ _ s' _ =>
      length (m_textureIDs s') = 16%nat /\ 0 <= m_loadedTextures unprepared <= m_loadedTextures s'
  | Undefined _ => False
  end.
Proof.
  destruct (run_all [op_LoadSceneTextures; op_DestroyGLTextures; op_DefineObjectMaterials;
                     op_CreateGLTexture "textures/more.png" "more"]
                    rgb_disk unprepared) as [[] w' s' t|f] eqn:H.
  - destruct (operations_keep_the_manager_valid _ _ _ _ _ _ H)
      as (_ & _ & Hl & Hn & _).
    split; [exact Hl|]. split; [reflexivity|exact Hn].
  - vm_compute in H. discriminate.
Defined.

(** ** Preparing without a shader manager or a mesh library *)

Lemma meshes_null e w s :
  m_basicMeshes s = NULL -> meshes e w s = Undefined null_dereference.
Proof.
  intros H. unfold meshes. rewrite bind_this, H. reflexivity.
Qed.

(** X6. [SetupSceneLights] and [PrepareScene] do not test their pointers.
    Without a shader manager [SetupSceneLights] dereferences the null
    pointer at its first call; and [PrepareScene] never runs to its end
    when the shader manager or the mesh library is missing, whatever the
    texture files are. *)
Theorem PrepareScene_needs_both_pointers (w : World) (s : SceneManager) :
  (m_pShaderManager s = NULL -> SetupSceneLights w s = Undefined null_dereference) /\
  (m_pShaderManager s = NULL \/ m_basicMeshes s = NULL ->
   exists f, PrepareScene w s = Undefined f).
Proof.
  split.
  - intros Hp. unfold SetupSceneLights. apply bind_Undefined.
    apply shader_null. assumption.
  - intros Hnull.
    destruct (PrepareScene w s) as [[] w' s' t|f] eqn:H; [|eauto].
    exfalso. unfold PrepareScene in H.
    apply bind_inv in H as ([] & w1 & s1 & t1 & ? & H1 & H & _).
    apply bind_inv in H as ([] & w2 & s2 & t2 & ? & H2 & H & _).
    apply bind_inv in H as ([] & w3 & s3 & t3 & ? & H3 & H & _).
    apply keeps_fixed_LoadSceneTextures in H1 as (Hp1 & Hm1 & _).
    apply keeps_fixed_DefineObjectMaterials in H2 as (Hp2 & Hm2 & _).
    destruct Hnull as [Hp|Hm].
    + assert (m_pShaderManager s2 = NULL) as Hnull2 by congruence.
      unfold SetupSceneLights in H3.
      rewrite (bind_Undefined _ _ _ _ _ (shader_null _ w2 s2 Hnull2)) in H3.
      discriminate.
    + pose proof (readonly_SetupSceneLights _ _ _ _ _ _ H3) as [_ ->].
      assert (m_basicMeshes s2 = NULL) as Hnull2 by congruence.
      rewrite (bind_Undefined _ _ _ _ _ (meshes_null _ w3 s2 Hnull2)) in H.
      discriminate.
Qed.

Lemma PrepareScene_needs_both_pointers_witness :
  SetupSceneLights empty_disk no_shader = Undefined null_dereference /\
  exists f, PrepareScene rgb_disk no_meshes = Undefined f.
Proof.
  destruct (PrepareScene_needs_both_pointers empty_disk no_shader) as [H1 _].
  destruct (PrepareScene_needs_both_pointers rgb_disk no_meshes) as [_ H2].
  split; [apply H1; reflexivity|apply H2; right; reflexivity].
Defined.

(** ** Materials defined twice, tags that are not there *)

Lemma found_material_app_present tag (v v' : list OBJECT_MATERIAL.t) material :
  Exists (fun m => OBJECT_MATERIAL.tag m = tag) v ->
  found_material tag (v ++ v') material = found_material tag v material.
Proof.
  intros Hex. unfold found_material.
  destruct (list_find (has_material_tag tag) v) as [[i m]|] eqn:Hf.
  - rewrite (list_find_app_l _ _ _ _ _ Hf). reflexivity.
  - apply list_find_None in Hf. apply Forall_Exists_neg in Hf. contradiction.
Qed.

Lemma found_material_app_absent tag (v v' : list OBJECT_MATERIAL.t) material :
  Forall (fun m => OBJECT_MATERIAL.tag m <> tag) v ->
  found_material tag (v ++ v') material = found_material tag v' material.
Proof.
  intros Hnone. unfold found_material.
  apply (list_find_None (has_material_tag tag)) in Hnone.
  rewrite (list_find_app_r _ _ _ Hnone).
  destruct (list_find (has_material_tag tag) v') as [[i m]|]; reflexivity.
Qed.

Lemma FindMaterial_nonempty tag material w s :
  m_objectMaterials s <> [] ->
  FindMaterial tag material w s
  = Done (true, found_material tag (m_objectMaterials s) material) w s [].
Proof.
  intros Hv. rewrite FindMaterial_eq.
  destruct (m_objectMaterials s); [contradiction|reflexivity].
Qed.

(** X8. Materials defined earlier take precedence.  After
    [DefineObjectMaterials], [FindMaterial] always returns true; a tag that
    the catalog already held is still looked up to its old entry, the six
    scene materials being found only under tags that were free.  Hence
    defining the materials a second time changes no lookup. *)
Theorem DefineObjectMaterials_precedence (tag : string) (material : OBJECT_MATERIAL.t)
    (w : World) (s : SceneManager) :
  exists s' s'',
    DefineObjectMaterials w s = Done tt w s' [] /\
    DefineObjectMaterials w s' = Done tt w s'' [] /\
    (Exists (fun m => OBJECT_MATERIAL.tag m = tag) (m_objectMaterials s) ->
     exists m, FindMaterial tag material w s = Done (true, m) w s [] /\
               FindMaterial tag material w s' = Done (true, m) w s' []) /\
    (Forall (fun m => OBJECT_MATERIAL.tag m <> tag) (m_objectMaterials s) ->
     FindMaterial tag material w s'
     = Done (true, found_material tag scene_materials material) w s' []) /\
    (exists m, FindMaterial tag material w s' = Done (true, m) w s' [] /\
               FindMaterial tag material w s'' = Done (true, m) w s'' []).
Proof.
  eexists _, _. split; [apply DefineObjectMaterials_result|].
  split; [apply DefineObjectMaterials_result|].
  set (s' := set_objectMaterials (m_objectMaterials s ++ scene_materials) s).
  set (s'' := set_objectMaterials (m_objectMaterials s' ++ scene_materials) s').
  assert (m_objectMaterials s' <> []) as Hne'.
  { simpl. destruct (m_objectMaterials s); discriminate. }
  assert (m_objectMaterials s'' <> []) as Hne''.
  { unfold s''. cbn [m_objectMaterials set_objectMaterials].
    destruct (m_objectMaterials s'); [contradiction|discriminate]. }
  split; [|split].
  - intros Hex. eexists. split.
    + apply FindMaterial_nonempty. intros Hnil. rewrite Hnil in Hex. inversion Hex.
    + rewrite FindMaterial_nonempty by assumption.
      cbn [m_objectMaterials set_objectMaterials s'].
      rewrite found_material_app_present by assumption. reflexivity.
  - intros Hnone. rewrite FindMaterial_nonempty by assumption.
    cbn [m_objectMaterials set_objectMaterials s'].
    rewrite found_material_app_absent by assumption. reflexivity.
  - eexists. split; [apply FindMaterial_nonempty; assumption|].
    rewrite FindMaterial_nonempty by assumption.
    unfold s''. cbn [m_objectMaterials set_objectMaterials].
    destruct (decide (Exists (fun m => OBJECT_MATERIAL.tag m = tag)
                             (m_objectMaterials s'))) as [Hex|Hnex].
    + rewrite found_material_app_present by assumption. reflexivity.
    + apply Forall_Exists_neg in Hnex.
      rewrite found_material_app_absent by assumption.
      unfold s' in Hnex |- *. cbn [m_objectMaterials set_objectMaterials] in Hnex |- *.
      apply Forall_app in Hnex as [Hn1 Hn2].
      rewrite found_material_app_absent by assumption.
      unfold found_material.
      apply (list_find_None (has_material_tag tag)) in Hn2. rewrite Hn2. reflexivity.
Qed.

(** X15. A texture tag that is not registered.  With a shader manager
    attached and the catalog inside the array, [SetShaderTexture] of a tag
    that no catalog entry carries still switches texturing on and uploads
    -1 as the sampler slot; nothing is reported and the manager is
    unchanged. *)
Theorem SetShaderTexture_unknown_tag (tag : string) (w : World) (s : SceneManager) :
  m_pShaderManager s <> NULL -> textures_in_bounds s ->
  Forall (fun e => TEXTURE_INFO.tag e <> tag) (catalog s) ->
  SetShaderTexture tag w s
  = Done tt w s [setIntValue "bUseTexture" 1; setSampler2DValue "objectTexture" (-1)].
Proof.
  intros Hp Hb Hnone. rewrite SetShaderTexture_attached by assumption.
  unfold first_slot.
  apply (list_find_None (has_texture_tag tag)) in Hnone. rewrite Hnone. reflexivity.
Qed.

Lemma SetShaderTexture_unknown_tag_witness :
  (m_pShaderManager three_textures <> NULL /\ textures_in_bounds three_textures) /\
  SetShaderTexture "wall" empty_disk three_textures
  = Done tt empty_disk three_textures
      [setIntValue "bUseTexture" 1; setSampler2DValue "objectTexture" (-1)].
Proof.
  assert (m_pShaderManager three_textures <> NULL) as Hp by discriminate.
  assert (textures_in_bounds three_textures) as Hb.
  { apply Z_le_dec_true. reflexivity. }
  split; [auto|].
  apply (SetShaderTexture_unknown_tag "wall" empty_disk three_textures Hp Hb).
  repeat constructor; discriminate.
Defined.

(** X16. A material tag that is not defined.  With a shader manager
    attached and a non-empty catalog that holds no entry of the tag,
    [FindMaterial] still returns true, so [SetShaderMaterial] makes its
    three uploads all the same: their values are those of its local
    variable, which nothing has initialised, and not those of any catalog
    entry. *)
Theorem SetShaderMaterial_unknown_tag (tag : string) (w : World) (s : SceneManager) :
  m_pShaderManager s <> NULL -> m_objectMaterials s <> [] ->
  Forall (fun m => OBJECT_MATERIAL.tag m <> tag) (m_objectMaterials s) ->
  SetShaderMaterial tag w s
  = Done tt w s
      [setVec3Value "material.diffuseColor" (indeterminate w).1.1;
       setVec3Value "material.specularColor" (indeterminate w).1.2;
       setFloatValue "material.shininess" (indeterminate w).2].
Proof.
  intros Hp Hv Hnone.
  pose proof (SetShaderMaterial_attached tag w s Hp Hv) as H. cbv zeta in H.
  rewrite H. unfold found_material.
  apply (list_find_None (has_material_tag tag)) in Hnone. rewrite Hnone.
  unfold stack_material. destruct (indeterminate w) as [[d sp] sh]. reflexivity.
Qed.

Lemma SetShaderMaterial_unknown_tag_witness :
  (m_pShaderManager with_materials <> NULL /\ m_objectMaterials with_materials <> []) /\
  SetShaderMaterial "marble" empty_disk with_materials
  = Done tt empty_disk with_materials
      [setVec3Value "material.diffuseColor" (indeterminate empty_disk).1.1;
       setVec3Value "material.specularColor" (indeterminate empty_disk).1.2;
       setFloatValue "material.shininess" (indeterminate empty_disk).2].
Proof.
  assert (m_pShaderManager with_materials <> NULL) as Hp by discriminate.
  assert (m_objectMaterials with_materials <> []) as Hv by discriminate.
  split; [auto|].
  apply (SetShaderMaterial_unknown_tag "marble" empty_disk with_materials Hp Hv).
  repeat constructor; discriminate.
Defined.

(** ** From [PrepareScene] to [RenderScene] *)

Lemma LoadSceneTextures_result w s :
  Forall (fun p => loadable w p.1) scene_textures ->
  0 <= m_loadedTextures s ->
  m_loadedTextures s + 11 <= Z.of_nat (length (m_textureIDs s)) ->
  exists t,
    LoadSceneTextures w s
    = Done tt (advance 11 w) (register_all w (map snd scene_textures) s) t.
Proof.
  intros Hl H0 Hb.
  destruct (load_loop_all_loaded scene_textures w s Hl H0 Hb) as [t Ht].
  destruct (register_all_fields w (map snd scene_textures) s) as (_ & _ & _ & Hn & Hlen).
  change (Z.of_nat (length (map snd scene_textures))) with 11 in Hn.
  rewrite LoadSceneTextures_as_loop, (bind_Done _ _ _ _ _ _ _ _ Ht).
  rewrite BindGLTextures_calls by (unfold textures_in_bounds; lia).
  eexists. reflexivity.
Qed.

Lemma prepared_fields w s :
  m_pShaderManager (prepared w s) = m_pShaderManager s /\
  m_basicMeshes (prepared w s) = m_basicMeshes s /\
  m_loadedTextures (prepared w s) = m_loadedTextures s + 11 /\
  length (m_textureIDs (prepared w s)) = length (m_textureIDs s) /\
  m_objectMaterials (prepared w s) = (m_objectMaterials s ++ scene_materials)%list.
Proof.
  unfold prepared.
  destruct (register_all_fields w (map snd scene_textures) s)
    as (Hp & Hm & _ & Hn & Hl).
  change (Z.of_nat (length (map snd scene_textures))) with 11 in Hn.
  revert Hp Hm Hn Hl. generalize (register_all w (map snd scene_textures) s).
  intros r Hp Hm Hn Hl. simpl. auto.
Qed.

Lemma PrepareScene_result w s :
  Forall (fun p => loadable w p.1) scene_textures ->
  0 <= m_loadedTextures s ->
  m_loadedTextures s + 11 <= Z.of_nat (length (m_textureIDs s)) ->
  m_pShaderManager s <> NULL -> m_basicMeshes s <> NULL ->
  exists t, PrepareScene w s = Done tt (advance 11 w) (prepared w s) t.
Proof.
  intros Hl H0 Hb Hp Hm.
  destruct (LoadSceneTextures_result w s Hl H0 Hb) as [t1 H1].
  destruct (register_all_fields w (map snd scene_textures) s) as (_ & _ & Hv1 & _).
  destruct (prepared_fields w s) as (Hp1 & Hm1 & _).
  assert (m_pShaderManager (prepared w s) <> NULL) as Hp2
    by (rewrite Hp1; exact Hp).
  assert (m_basicMeshes (prepared w s) <> NULL) as Hm2
    by (rewrite Hm1; exact Hm).
  destruct (SetupSceneLights_completes (advance 11 w) (prepared w s) Hp2) as [t3 H3].
  unfold PrepareScene.
  rewrite (bind_Done _ _ _ _ _ _ _ _ H1).
  rewrite (bind_Done _ _ _ _ _ _ _ _ (DefineObjectMaterials_result _ _)).
  rewrite Hv1. fold (prepared w s). rewrite (bind_Done _ _ _ _ _ _ _ _ H3).
  rewrite !bind_meshes by exact Hm2. rewrite meshes_present by exact Hm2.
  eexists. reflexivity.
Qed.

Lemma RenderScene_blocks w s :
  m_basicMeshes s <> NULL -> m_pShaderManager s <> NULL ->
  m_objectMaterials s <> [] -> textures_in_bounds s ->
  RenderScene w s = Done tt w s (concat (map (block_of w s) cmds)).
Proof.
  intros Hm Hp Hv Hb. unfold RenderScene. rewrite bind_this.
  destruct (m_basicMeshes s) eqn:Hmesh; [contradiction|]. cbn [is_null].
  apply for_each_calls. intros c.
  apply drawOne_calls; try assumption. rewrite Hmesh. discriminate.
Qed.

Lemma first_slot_range tag s :
  textures_in_bounds s ->
  Exists (fun e => TEXTURE_INFO.tag e = tag) (catalog s) ->
  0 <= first_slot tag s < m_loadedTextures s.
Proof.
  intros Hb Hex. destruct (find_present tag _ Hex) as (i & e & Hfind).
  unfold first_slot. rewrite Hfind.
  apply list_find_Some in Hfind as (Hi & _ & _).
  unfold catalog in Hi. apply lookup_take_Some in Hi as [_ Hi]. lia.
Qed.

Lemma catalog_prepared w s :
  0 <= m_loadedTextures s ->
  m_loadedTextures s + 11 <= Z.of_nat (length (m_textureIDs s)) ->
  catalog (prepared w s)
  = (catalog s ++ imap (fun i tag => TEXTURE_INFO.mk (next_name w i) tag)
                       (map snd scene_textures))%list.
Proof.
  intros H0 Hb. unfold prepared. rewrite catalog_set_objectMaterials.
  apply catalog_register_all; [assumption|exact Hb].
Qed.

Ltac each_cmd tac :=
  unfold cmds; repeat (apply List.Forall_cons; [tac|]); apply List.Forall_nil.

Lemma cmds_textures_are_loaded :
  Forall (fun c => In (DrawCmd.texture c) (map snd scene_textures)) cmds.
Proof. each_cmd ltac:(simpl; auto 20). Qed.

Lemma cmds_materials_are_defined :
  Forall (fun c => Exists (fun m => OBJECT_MATERIAL.tag m = DrawCmd.material c)
                          scene_materials) cmds.
Proof.
  each_cmd ltac:(unfold scene_materials;
                 repeat first [apply Exists_cons_hd; reflexivity | apply Exists_cons_tl]).
Qed.

Lemma fresh_slots (names : nat -> Z) (s : SceneManager) :
  catalog s = imap (fun i tag => TEXTURE_INFO.mk (names i) tag) (map snd scene_textures) ->
  map (fun c => first_slot (DrawCmd.texture c) s) cmds
  = [9; 8; 1; 3; 6; 5; 10; 4; 0; 7; 2; 2; 2].
Proof.
  intros Hcat. unfold first_slot. rewrite Hcat.
  unfold cmds. cbn [map DrawCmd.texture]. vm_compute. reflexivity.
Qed.

(** X7. The draw list and the preparation agree.  When the eleven files
    load, the array has room for them and both pointers are set,
    [PrepareScene] runs to its end, and in the manager it leaves every draw
    command of [RenderScene] resolves: its texture tag is looked up to a
    slot below the count and its material tag to a defined material, so
    that [RenderScene] uploads no -1 and no uninitialised material.  When
    the catalog was empty before, the slots uploaded for the thirteen
    commands are 9, 8, 1, 3, 6, 5, 10, 4, 0, 7, 2, 2, 2. *)
Theorem PrepareScene_then_RenderScene (w : World) (s : SceneManager) :
  Forall (fun p => loadable w p.1) scene_textures ->
  0 <= m_loadedTextures s ->
  m_loadedTextures s + 11 <= Z.of_nat (length (m_textureIDs s)) ->
  m_pShaderManager s <> NULL -> m_basicMeshes s <> NULL ->
  exists w' s' t,
    PrepareScene w s = Done tt w' s' t /\
    RenderScene w' s' = Done tt w' s' (concat (map (block_of w' s') cmds)) /\
    Forall (fun c =>
              0 <= first_slot (DrawCmd.texture c) s' < m_loadedTextures s' /\
              Exists (fun m => OBJECT_MATERIAL.tag m = DrawCmd.material c)
                     (m_objectMaterials s')) cmds /\
    (m_loadedTextures s = 0 ->
     map (fun c => first_slot (DrawCmd.texture c) s') cmds
     = [9; 8; 1; 3; 6; 5; 10; 4; 0; 7; 2; 2; 2]).
Proof.
  intros Hl H0 Hb Hp Hm.
  destruct (PrepareScene_result w s Hl H0 Hb Hp Hm) as [t Ht].
  destruct (prepared_fields w s) as (Hp1 & Hm1 & Hn1 & Hl1 & Hv1).
  assert (m_pShaderManager (prepared w s) <> NULL) as Hp2
    by (rewrite Hp1; exact Hp).
  assert (m_basicMeshes (prepared w s) <> NULL) as Hm2
    by (rewrite Hm1; exact Hm).
  assert (textures_in_bounds (prepared w s)) as Hb2.
  { unfold textures_in_bounds. rewrite Hn1, Hl1. lia. }
  assert (m_objectMaterials (prepared w s) <> []) as Hv2.
  { rewrite Hv1. intros Hnil. apply app_eq_nil in Hnil as [_ Hnil].
    discriminate Hnil. }
  pose proof (catalog_prepared w s H0 Hb) as Hcat.
  exists (advance 11 w), (prepared w s), t.
  split; [exact Ht|]. split; [|split].
  - exact (RenderScene_blocks (advance 11 w) (prepared w s) Hm2 Hp2 Hv2 Hb2).
  - pose proof cmds_textures_are_loaded as Htex.
    pose proof cmds_materials_are_defined as Hmat.
    rewrite List.Forall_forall in Htex, Hmat |- *.
    intros c Hc. split.
    + apply first_slot_range; [exact Hb2|]. rewrite Hcat.
      apply Exists_app. right.
      specialize (Htex c Hc). apply list_elem_of_In in Htex.
      apply list_elem_of_lookup in Htex as [i Hi].
      apply Exists_exists.
      exists (TEXTURE_INFO.mk (next_name w i) (DrawCmd.texture c)).
      split; [|reflexivity].
      apply list_elem_of_lookup. exists i.
      rewrite list_lookup_imap, Hi. reflexivity.
    + rewrite Hv1. apply Exists_app. right. apply (Hmat c Hc).
  - intros Hzero. apply (fresh_slots (next_name w)).
    rewrite Hcat. unfold catalog. rewrite Hzero. reflexivity.
Qed.

Lemma PrepareScene_then_RenderScene_witness :
  exists w' s' t,
    PrepareScene rgb_disk unprepared = Done tt w' s' t /\
    RenderScene w' s' = Done tt w' s' (concat (map (block_of w' s') cmds)) /\
    map (fun c => first_slot (DrawCmd.texture c) s') cmds
    = [9; 8; 1; 3; 6; 5; 10; 4; 0; 7; 2; 2; 2].
Proof.
  destruct (PrepareScene_then_RenderScene rgb_disk unprepared)
    as (w' & s' & t & H1 & H2 & _ & H3).
  - repeat constructor; exists (mkImage 64 64 3); split; auto.
  - simpl. lia.
  - simpl. lia.
  - discriminate.
  - discriminate.
  - exists w', s', t. split; [exact H1|]. split; [exact H2|]. apply H3. reflexivity.
Defined.

(** ** The geometry of the model matrix *)

Section model_matrix_geometry.
Local Open Scope R_scope.

Lemma vsub_translate t p q :
  w p = w q -> vsub (translate_point t p) (translate_point t q) = vsub p q.
Proof.
  intros H. destruct t, p, q; simpl in H; subst.
  apply vec4_eq; simpl; ring.
Qed.

Lemma vsub_rotateX a p q :
  vsub (rotateX_point a p) (rotateX_point a q) = rotateX_point a (vsub p q).
Proof. destruct p, q. apply vec4_eq; simpl; ring. Qed.

Lemma vsub_rotateY a p q :
  vsub (rotateY_point a p) (rotateY_point a q) = rotateY_point a (vsub p q).
Proof. destruct p, q. apply vec4_eq; simpl; ring. Qed.

Lemma vsub_rotateZ a p q :
  vsub (rotateZ_point a p) (rotateZ_point a q) = rotateZ_point a (vsub p q).
Proof. destruct p, q. apply vec4_eq; simpl; ring. Qed.

Lemma vsub_scale s p q :
  vsub (scale_point s p) (scale_point s q) = scale_point s (vsub p q).
Proof. destruct s, p, q. apply vec4_eq; simpl; ring. Qed.

Lemma sin_cos_square a : sin a * sin a + cos a * cos a = 1.
Proof. pose proof (sin2_cos2 a) as H. unfold Rsqr in H. exact H. Qed.

Lemma sq_length_rotateX a d : sq_length (rotateX_point a d) = sq_length d.
Proof.
  destruct d as [dx dy dz dw]. unfold sq_length, rotateX_point; simpl.
  replace (dx * dx + (cos a * dy - sin a * dz) * (cos a * dy - sin a * dz)
           + (sin a * dy + cos a * dz) * (sin a * dy + cos a * dz))
    with (dx * dx + (sin a * sin a + cos a * cos a) * (dy * dy + dz * dz)) by ring.
  rewrite sin_cos_square. ring.
Qed.

Lemma sq_length_rotateY a d : sq_length (rotateY_point a d) = sq_length d.
Proof.
  destruct d as [dx dy dz dw]. unfold sq_length, rotateY_point; simpl.
  replace ((cos a * dx + sin a * dz) * (cos a * dx + sin a * dz) + dy * dy
           + (cos a * dz - sin a * dx) * (cos a * dz - sin a * dx))
    with (dy * dy + (sin a * sin a + cos a * cos a) * (dx * dx + dz * dz)) by ring.
  rewrite sin_cos_square. ring.
Qed.

Lemma sq_length_rotateZ a d : sq_length (rotateZ_point a d) = sq_length d.
Proof.
  destruct d as [dx dy dz dw]. unfold sq_length, rotateZ_point; simpl.
  replace ((cos a * dx - sin a * dy) * (cos a * dx - sin a * dy)
           + (sin a * dx + cos a * dy) * (sin a * dx + cos a * dy) + dz * dz)
    with (dz * dz + (sin a * sin a + cos a * cos a) * (dx * dx + dy * dy)) by ring.
  rewrite sin_cos_square. ring.
Qed.

Lemma sq_length_scale k d :
  sq_length (scale_point (mk_vec3 k k k) d) = k * k * sq_length d.
Proof. destruct d. unfold sq_length, scale_point; simpl. ring. Qed.

(** X13. Where the model matrix puts a mesh.  For every scale, rotation
    and position, the matrix of [SetTransformations] maps the origin of the
    mesh to [positionXYZ], keeps the fourth coordinate of every vector, and
    moves directions (fourth coordinate 0) as the same matrix without
    translation does: the position is applied last and is not scaled or
    rotated. *)
Theorem modelView_places_the_origin (scaleXYZ : vec3) (rx ry rz : R)
    (positionXYZ : vec3) (p : vec4) :
  mul_vec (modelView scaleXYZ rx ry rz positionXYZ) (mk_vec4 0 0 0 1)
    = mk_vec4 (x3 positionXYZ) (y3 positionXYZ) (z3 positionXYZ) 1 /\
  w (mul_vec (modelView scaleXYZ rx ry rz positionXYZ) p) = w p /\
  (w p = 0 ->
   mul_vec (modelView scaleXYZ rx ry rz positionXYZ) p
   = mul_vec (modelView scaleXYZ rx ry rz (mk_vec3 0 0 0)) p).
Proof.
  rewrite !modelView_point. split; [|split].
  - destruct scaleXYZ, positionXYZ. apply vec4_eq; simpl; ring.
  - reflexivity.
  - intros H. destruct p as [px py pz pw]. simpl in H. subst pw.
    destruct scaleXYZ, positionXYZ. apply vec4_eq; simpl; ring.
Qed.

Lemma modelView_places_the_origin_witness :
  mul_vec (modelView (mk_vec3 20 1 10) 90 0 0 (mk_vec3 0 9 (-10))) (mk_vec4 0 0 0 1)
  = mk_vec4 0 9 (-10) 1.
Proof.
  exact (proj1 (modelView_places_the_origin (mk_vec3 20 1 10) 90 0 0
                  (mk_vec3 0 9 (-10)) (mk_vec4 0 0 0 1))).
Defined.

(** X14. A uniform scale gives a similarity.  With the same scale factor
    [k] on the three axes, the matrix of [SetTransformations] multiplies the
    distance between any two points of the mesh by [k] (the squared
    distance by [k * k]), whatever the rotation angles and the position:
    the three rotations and the translation change no distance. *)
Theorem modelView_uniform_scale (k rx ry rz : R) (positionXYZ : vec3) (p q : vec4) :
  w p = w q ->
  sq_length (vsub (mul_vec (modelView (mk_vec3 k k k) rx ry rz positionXYZ) p)
                  (mul_vec (modelView (mk_vec3 k k k) rx ry rz positionXYZ) q))
  = k * k * sq_length (vsub p q).
Proof.
  intros H. rewrite !modelView_point.
  rewrite vsub_translate by exact H.
  rewrite vsub_rotateZ, sq_length_rotateZ.
  rewrite vsub_rotateY, sq_length_rotateY.
  rewrite vsub_rotateX, sq_length_rotateX.
  rewrite vsub_scale. apply sq_length_scale.
Qed.

Lemma modelView_uniform_scale_witness :
  w (mk_vec4 1 2 3 1) = w (mk_vec4 0 0 0 1) /\
  sq_length (vsub (mul_vec (modelView (mk_vec3 3 3 3) 0 2 0 (mk_vec3 1 1.2 0.98))
                           (mk_vec4 1 2 3 1))
                  (mul_vec (modelView (mk_vec3 3 3 3) 0 2 0 (mk_vec3 1 1.2 0.98))
                           (mk_vec4 0 0 0 1)))
  = 3 * 3 * sq_length (vsub (mk_vec4 1 2 3 1) (mk_vec4 0 0 0 1)).
Proof.
  split; [reflexivity|].
  apply (modelView_uniform_scale 3 0 2 0 (mk_vec3 1 1.2 0.98)
           (mk_vec4 1 2 3 1) (mk_vec4 0 0 0 1)).
  reflexivity.
Defined.

End model_matrix_geometry.

(** ** The lights *)

(** X17. What [SetupSceneLights] sends.  With a shader manager attached it
    makes eighteen calls, all of them uniform uploads, and leaves the
    manager as it was.  The first one switches [bUseLighting] on; every
    other one writes a uniform of light slot 0 or of light slot 1, so the
    slots 2 and 3 are never touched.  Slot 0 is directional and slot 1 is
    not, both are active; the products of the source give slot 0 the
    ambient colour (0.51, 0.50694, 0.3825) and slot 1 a specular colour of
    zero. *)
Theorem SetupSceneLights_two_lights (w : World) (s : SceneManager) :
  m_pShaderManager s <> NULL ->
  exists t,
    SetupSceneLights w s = Done tt w s t /\
    length t = 18%nat /\
    List.forallb is_upload t = true /\
    List.forallb light_upload t = true /\
    t !! 0%nat = Some (setBoolValue "bUseLighting" true) /\
    In (setBoolValue "pointLights[0].bUseDirection" true) t /\
    In (setBoolValue "pointLights[1].bUseDirection" false) t /\
    In (setBoolValue "pointLights[0].bActive" true) t /\
    In (setBoolValue "pointLights[1].bActive" true) t /\
    In (setVec3Value "pointLights[0].ambient" (mk_vec3 0.51 0.50694 0.3825)) t /\
    In (setVec3Value "pointLights[1].specular" (mk_vec3 0 0 0)) t.
Proof.
  intros Hp. eexists. split.
  { unfold SetupSceneLights.
    rewrite !bind_shader by assumption. rewrite shader_attached by assumption.
    reflexivity. }
  cbn [prepend app].
  split; [reflexivity|]. split; [reflexivity|]. split; [lazy; reflexivity|].
  split; [reflexivity|].
  split; [cbn [In]; auto 20|]. split; [cbn [In]; auto 20|].
  split; [cbn [In]; auto 20|]. split; [cbn [In]; auto 30|].
  split.
  - cbn [In]. do 4 right. left. f_equal. f_equal; lra.
  - cbn [In]. do 14 right. left. f_equal. f_equal; lra.
Qed.

Lemma SetupSceneLights_two_lights_witness :
  m_pShaderManager unprepared <> NULL /\
  exists t,
    SetupSceneLights empty_disk unprepared = Done tt empty_disk unprepared t /\
    length t = 18%nat /\
    List.forallb light_upload t = true.
Proof.
  assert (m_pShaderManager unprepared <> NULL) as Hp by discriminate.
  split; [exact Hp|].
  destruct (SetupSceneLights_two_lights empty_disk unprepared Hp)
    as (t & H1 & H2 & _ & H3 & _).
  exists t. auto.
Defined.

(** ** The calls of a frame *)

Lemma emits_ret {A} P (a : A) : emits P (ret a).
Proof. intros w s a' w' s' t [= _ _ _ <-]. reflexivity. Qed.

Lemma emits_this P : emits P this.
Proof. intros w s a' w' s' t [= _ _ _ <-]. reflexivity. Qed.

Lemma emits_undefined {A} P f : emits P (@undefined A f).
Proof. intros w s a' w' s' t [=]. Qed.

Lemma emits_emit (P : event -> bool) e : P e = true -> emits P (emit e).
Proof. intros He w s a' w' s' t [= _ _ _ <-]. simpl. rewrite He. reflexivity. Qed.

Lemma emits_bind {A B} P (c : M A) (k : A -> M B) :
  emits P c -> (forall a, emits P (k a)) -> emits P (bind c k).
Proof.
  intros Hc Hk w s b w2 s2 t H.
  apply bind_inv in H as (a & w1 & s1 & t1 & t2 & H1 & H2 & ->).
  rewrite forallb_app, (Hc _ _ _ _ _ _ H1), (Hk _ _ _ _ _ _ _ H2). reflexivity.
Qed.

Lemma emits_if {A} P (b : bool) (c1 c2 : M A) :
  emits P c1 -> emits P c2 -> emits P (if b then c1 else c2).
Proof. destruct b; auto. Qed.

Lemma emits_for_each {A} P (l : list A) body :
  (forall c, emits P (body c)) -> emits P (for_each l body).
Proof.
  intros Hb. induction l as [|c l IH]; simpl.
  - apply emits_ret.
  - apply emits_bind; auto.
Qed.

Lemma emits_shader (P : event -> bool) e : P e = true -> emits P (shader e).
Proof.
  intros He. unfold shader. apply emits_bind; [apply emits_this|].
  intros s. apply emits_if; [apply emits_undefined|apply emits_emit; exact He].
Qed.

Lemma emits_meshes (P : event -> bool) e : P e = true -> emits P (meshes e).
Proof.
  intros He. unfold meshes. apply emits_bind; [apply emits_this|].
  intros s. apply emits_if; [apply emits_undefined|apply emits_emit; exact He].
Qed.

Lemma emits_texture_at P i : emits P (texture_at i).
Proof.
  intros w s a w' s' t. unfold texture_at.
  destruct (i <? 0); [discriminate|].
  destruct (m_textureIDs s !! Z.to_nat i); [|discriminate].
  intros [= _ _ _ <-]. reflexivity.
Qed.

Lemma emits_FindTextureSlot P tag : emits P (FindTextureSlot tag).
Proof.
  unfold FindTextureSlot. apply emits_bind; [apply emits_this|]. intros s.
  generalize 0. induction (Z.to_nat (m_loadedTextures s)) as [|left IH]; intros index.
  - apply emits_ret.
  - cbn [FindTextureSlot_loop]. apply emits_bind; [apply emits_texture_at|].
    intros e. apply emits_if; [apply emits_ret|apply IH].
Qed.

Lemma emits_local_material P : emits P local_material.
Proof.
  intros w s a w' s' t. unfold local_material.
  destruct (indeterminate w) as [[d sp] sh]. intros [= _ _ _ <-]. reflexivity.
Qed.

Lemma emits_FindMaterial P tag material : emits P (FindMaterial tag material).
Proof.
  unfold FindMaterial. apply emits_bind; [apply emits_this|]. intros s.
  apply emits_if; apply emits_ret.
Qed.

Lemma emits_drawOne c : emits render_call (drawOne c).
Proof.
  unfold drawOne. apply emits_bind; [|intros _; apply emits_bind; [|intros _; apply emits_bind]].
  - unfold SetTransformations. apply emits_bind; [apply emits_this|]. intros s.
    apply emits_if; [apply emits_shader; reflexivity|apply emits_ret].
  - unfold SetShaderMaterial. apply emits_bind; [apply emits_this|]. intros s.
    apply emits_if; [|apply emits_ret].
    apply emits_bind; [apply emits_local_material|]. intros material.
    apply emits_bind; [apply emits_FindMaterial|]. intros [bReturn m].
    apply emits_if; [|apply emits_ret].
    repeat (apply emits_bind; [apply emits_shader; reflexivity|intros _]).
    apply emits_shader; reflexivity.
  - unfold SetShaderTexture. apply emits_bind; [apply emits_this|]. intros s.
    apply emits_if; [|apply emits_ret].
    apply emits_bind; [apply emits_shader; reflexivity|]. intros _.
    apply emits_bind; [apply emits_FindTextureSlot|]. intros slot.
    apply emits_shader; reflexivity.
  - intros _. destruct (DrawCmd.type c); apply emits_meshes; reflexivity.
Qed.

Lemma emits_RenderScene : emits render_call RenderScene.
Proof.
  unfold RenderScene. apply emits_bind; [apply emits_this|]. intros s.
  apply emits_if; [apply emits_emit; reflexivity|].
  apply emits_for_each. exact emits_drawOne.
Qed.

(** X18. A frame only draws.  In whatever state [RenderScene] is called,
    if it runs to its end then each of its calls is the error line, an
    upload of [model], of a [material] uniform, of [bUseTexture] with the
    value 1 or of [objectTexture], or a mesh draw call.  So a frame selects
    no texture unit, binds and generates no texture, never uploads
    [UVscale] or [objectColor] and never switches texturing off: the
    bindings made by [LoadSceneTextures] and the UV scale of the shader
    are what every mesh is drawn with. *)
Theorem RenderScene_only_draws (w w' : World) (s s' : SceneManager) (t : list event) :
  RenderScene w s = Done tt w' s' t ->
  Forall (fun e => render_call e = true) t /\
  (forall i, ~ In (glActiveTexture i) t) /\
  (forall target name, ~ In (glBindTexture target name) t) /\
  (forall n name, ~ In (glGenTextures n name) t) /\
  (forall v, ~ In (setVec2Value "UVscale" v) t) /\
  (forall v, ~ In (setVec4Value "objectColor" v) t) /\
  ~ In (setIntValue "bUseTexture" 0) t.
Proof.
  intros H. apply emits_RenderScene in H.
  rewrite forallb_forall in H.
  split; [apply List.Forall_forall; exact H|].
  repeat split; repeat intro;
    match goal with Hin : In _ t |- _ => apply H in Hin; discriminate Hin end.
Qed.

Lemma RenderScene_only_draws_witness :
  RenderScene empty_disk no_shader
  = Done tt empty_disk no_shader
      [DrawPlaneMesh; DrawPlaneMesh; DrawSphereMesh;
       DrawCylinderMesh; DrawCylinderMesh; DrawCylinderMesh;
       DrawCylinderMesh; DrawCylinderMesh; DrawCylinderMesh;
       DrawBoxMesh; DrawBoxMesh; DrawBoxMesh; DrawBoxMesh] /\
  ~ In (setIntValue "bUseTexture" 0)
      [DrawPlaneMesh; DrawPlaneMesh; DrawSphereMesh;
       DrawCylinderMesh; DrawCylinderMesh; DrawCylinderMesh;
       DrawCylinderMesh; DrawCylinderMesh; DrawCylinderMesh;
       DrawBoxMesh; DrawBoxMesh; DrawBoxMesh; DrawBoxMesh].
Proof.
  split; [reflexivity|].
  apply (RenderScene_only_draws empty_disk empty_disk no_shader no_shader).
  reflexivity.
Defined.

